(** * directionalscalper: the multi-exchange scraper (api/scraper_multi_v3.py)

    A shallow embedding of [CombinedScraper] and of the per-exchange
    publication cycle, followed by the properties of the retry wrapper, the
    worker pool, the funding cache, the table filters, the candle-derived
    values, the cross-exchange merge, the publication of the artifacts, the
    symbol universe of the constructor and the historical volumes.

    Conventions of the embedding.
    - A Python call that may raise is a value of [pyresult]: [Return v] or
      [Raise e].
    - Effects the properties speak of (calls to the exchange, log lines,
      sleeps, file-system states) are recorded in explicit traces.
    - A float64 in a table is a [cell]: [NaN], or [Num q] for a finite value
      q (every finite float is a rational; comparisons of finite floats are
      the comparisons of these rationals).  Where the program computes with
      floats, in [get_spread], the model computes in binary64: the
      operations are those of the Standard Library's [SpecFloat] at
      precision 53.  Elsewhere (the rate times 100 of the funding cache,
      the volume sums of the merge) the arithmetic on [Num] is exact. *)

From Stdlib Require Import ZArith QArith Qround Lia Lqa Permutation Sorted.
From Stdlib Require Import Qabs SpecFloat.
From Stdlib Require OrdersEx.
From stdpp Require Import gmap strings list.

Open Scope string_scope.
Open Scope list_scope.
Open Scope Z_scope.

(* ===================================================================== *)
(** * Part I: the program                                                 *)
(* ===================================================================== *)

(** ** Python results and exceptions *)

Inductive cell : Type :=
| NaN
| Num (q : Q)
| Str (s : string).

(** The exceptions this module can see.  [AnalysisFailed symbol n] is the
    [Exception(f"Failed to analyse {symbol} after {n} attempts.")] of
    [retry_analyse_symbol]; [ExchangeError] stands for whatever the exchange
    client raises. *)
Inductive exn : Type :=
| AnalysisFailed (symbol : string) (retry_limit : Z)
| ExchangeError (msg : string)
| KeyError (key : string)
| TypeError (msg : string)
| ValueError (msg : string)
| AttributeError (msg : string)
| OSError (msg : string).

Inductive pyresult (A : Type) : Type :=
| Return (a : A)
| Raise (e : exn).
Arguments Return {A} a.
Arguments Raise {A} e.

(** Sequencing stops at the first exception; [x ← m; k] below is this bind. *)
#[global] Instance pyresult_bind : MBind pyresult := fun A B k m =>
  match m with
  | Return a => k a
  | Raise e => Raise e
  end.
#[global] Instance pyresult_ret : MRet pyresult := fun A a => Return a.

(** A dict built by [analyse_symbol]: keys in insertion order. *)
Definition record : Type := list (string * cell).

(** ** retry_analyse_symbol *)

(** What a task does that the outside can observe. *)
Inductive event : Type :=
| EvAnalyse (symbol : string)
| EvLogRetry (symbol : string) (retry_count : Z) (e : exn)
| EvSleep (seconds : Z).

Section Retry.

(** [analyse_symbol symbol i] is the outcome of the i-th invocation
    (counted from 0) of [self.analyse_symbol(symbol)] inside one task: it
    returns the dict of values or raises what the exchange client raised. *)
Variable analyse_symbol : string -> nat -> pyresult record.

(** The [while retry_count < retry_limit] loop; [fuel] bounds the number
    of iterations, [None] is "fuel exhausted". *)
Fixpoint retry_loop (fuel : nat) (symbol : string) (retry_limit : Z)
    (retry_count : Z) (tr : list event)
  : option (pyresult record * list event) :=
  if retry_count <? retry_limit then
    match fuel with
    | O => None
    | S fuel' =>
        match analyse_symbol symbol (Z.to_nat retry_count) with
        | Return values => Some (Return values, tr ++ [EvAnalyse symbol])
        | Raise e =>
            let retry_count := retry_count + 1 in
            retry_loop fuel' symbol retry_limit retry_count
              (tr ++ [EvAnalyse symbol;
                      EvLogRetry symbol retry_count e;
                      EvSleep 1])
        end
    end
  else Some (Raise (AnalysisFailed symbol retry_limit), tr).

Definition retry_analyse_symbol (symbol : string) (retry_limit : Z)
  : option (pyresult record * list event) :=
  retry_loop (Z.to_nat retry_limit) symbol retry_limit 0 [].

End Retry.

(** ** Log lines *)

Inductive log_line : Type :=
| LogInfo (msg : string)
| LogWarning (msg : string)
| LogError (msg : string)
| LogTaskError (symbol : string) (e : exn)
| LogCycleError (exchange : string) (e : exn).

(** ** Strings *)

(** [s.endswith(suffix)] *)
Definition endswith (s suffix : string) : bool :=
  (String.length suffix <=? String.length s)%nat &&
  String.eqb
    (String.substring (String.length s - String.length suffix)
       (String.length suffix) s)
    suffix.

(** [s.replace(old, new)] for a non-empty [old]: every occurrence, found
    from the left, without overlap.  [skip] counts the characters of an
    occurrence that was just replaced and are still to be passed over. *)
Fixpoint replace_from (old new : string) (skip : nat) (s : string) : string :=
  match s with
  | EmptyString => EmptyString
  | String c s' =>
      match skip with
      | S skip' => replace_from old new skip' s'
      | O =>
          if String.prefix old s
          then String.append new (replace_from old new (String.length old - 1) s')
          else String c (replace_from old new 0 s')
      end
  end.

Definition replace (s old new : string) : string := replace_from old new 0 s.

(** ** Data frames *)

(** A table: the column labels in order, and one list of cells per row. *)
Record DataFrame : Type := mkDataFrame {
  columns : list string;
  rows : list (list cell)
}.

Fixpoint index_of (c : string) (cols : list string) : option nat :=
  match cols with
  | [] => None
  | c' :: cols' =>
      if String.eqb c c' then Some O else S <$> index_of c cols'
  end.

Definition cell_at (i : nat) (row : list cell) : cell := nth i row NaN.

(** [df[c]]: the cells of one column, [KeyError] for an unknown label. *)
Definition getitem (df : DataFrame) (c : string) : pyresult (list cell) :=
  match index_of c (columns df) with
  | Some i => Return (map (cell_at i) (rows df))
  | None => Raise (KeyError c)
  end.

(** The elements of [l] whose mask entry is true. *)
Fixpoint select_where {A} (l : list A) (mask : list bool) : list A :=
  match l, mask with
  | x :: l', b :: mask' =>
      if b then x :: select_where l' mask' else select_where l' mask'
  | _, _ => []
  end.

(** [df[mask]]: the rows whose mask entry is true, all columns kept. *)
Definition select_rows (rs : list (list cell)) (mask : list bool)
  : list (list cell) :=
  select_where rs mask.

Definition getitem_mask (df : DataFrame) (mask : list bool) : DataFrame :=
  {| columns := columns df; rows := select_rows (rows df) mask |}.

(** [pd.DataFrame(data, columns=cols)] for a list of dicts: the listed
    keys of each dict, NaN where a dict has no such key. *)
Fixpoint dict_get (k : string) (d : record) : cell :=
  match d with
  | [] => NaN
  | (k', v) :: d' => if String.eqb k k' then v else dict_get k d'
  end.

Definition DataFrame_of_records (data : list record) (cols : list string)
  : DataFrame :=
  {| columns := cols;
     rows := map (fun d => map (fun c => dict_get c d) cols) data |}.

(** *** Comparisons of a column with a number *)

Definition Qltb (a b : Q) : bool := negb (Qle_bool b a).

(** [sequence pyresults]: the first exception wins. *)
Fixpoint pysequence {A} (l : list (pyresult A)) : pyresult (list A) :=
  match l with
  | [] => Return []
  | m :: l' => a ← m; as' ← pysequence l'; Return (a :: as')
  end.

(** [series > value]: false on NaN, [TypeError] on a string. *)
Definition cell_gt (value : Q) (c : cell) : pyresult bool :=
  match c with
  | NaN => Return false
  | Num q => Return (Qltb value q)
  | Str _ => Raise (TypeError "'>' not supported between instances of 'str' and 'int'")
  end.

Definition cell_lt (value : Q) (c : cell) : pyresult bool :=
  match c with
  | NaN => Return false
  | Num q => Return (Qltb q value)
  | Str _ => Raise (TypeError "'<' not supported between instances of 'str' and 'int'")
  end.

(** [series == value]: false on NaN and on a string. *)
Definition cell_eq (value : Q) (c : cell) : pyresult bool :=
  match c with
  | NaN => Return false
  | Num q => Return (Qeq_bool q value)
  | Str _ => Return false
  end.

(** *** filter_df, reduce_df *)

(** [filter_df]: the result is [Some] table, or [None] for Python's None
    when the function falls off its end; the second component is what it
    logged. *)
Definition filter_df (dataframe : DataFrame) (filter_col operator : string)
    (value : Q) : pyresult (option DataFrame) * list log_line :=
  if String.eqb operator ">" then
    (col ← getitem dataframe filter_col;
     mask ← pysequence (map (cell_gt value) col);
     Return (Some (getitem_mask dataframe mask)), [])
  else if String.eqb operator "<" then
    (col ← getitem dataframe filter_col;
     mask ← pysequence (map (cell_lt value) col);
     Return (Some (getitem_mask dataframe mask)), [])
  else if String.eqb operator "==" then
    (col ← getitem dataframe filter_col;
     mask ← pysequence (map (cell_eq value) col);
     Return (Some (getitem_mask dataframe mask)), [])
  else
    (Return None,
     [LogError (String.append "Operator "
                  (String.append operator " not implemented"))]).

(** [pysequence] over the labels: the first unknown label raises. *)
Definition indices_of (cols : list string) (labels : list string)
  : pyresult (list nat) :=
  pysequence
    (map (fun c => match index_of c cols with
                   | Some i => Return i
                   | None => Raise (KeyError c)
                   end) labels).

(** [reduce_df]: [dataframe[columns]]. *)
Definition reduce_df (dataframe : DataFrame) (cols : list string)
  : pyresult DataFrame :=
  idx ← indices_of (columns dataframe) cols;
  Return {| columns := cols;
            rows := map (fun row => map (fun i => cell_at i row) idx)
                      (rows dataframe) |}.

(** ** The scraper object and the funding cache *)

(** The fields of a [CombinedScraper] the modelled methods read.  The
    attribute [self.funding_cache] is not among them: [__init__] binds it to
    the one module-level dict [funding_cache], so the dict lives in the
    [world] below, not in the instance.  [self.cache_lock] is per instance;
    calls are modelled one after the other, each lock section being one
    step. *)
Record CombinedScraper : Type := mkScraper {
  exchange_name : string;
  symbols : list string
}.

(** Instants ([datetime.now()]) and durations ([timedelta]) in microseconds. *)
Definition timedelta_hours (h : Z) : Z := h * 3600 * 1000000.

Definition FUNDING_CACHE_DURATION : Z := timedelta_hours 4.

(** The state shared by all scrapers of the process: the module-level
    [funding_cache] dict, symbol -> (fetched_at, rate), and the funding
    requests sent so far, as (exchange, symbol). *)
Record world : Type := mkWorld {
  funding_cache : gmap string (Z * Q);
  funding_requests : list (string * string)
}.

Definition initial_world : world :=
  {| funding_cache := ∅; funding_requests := [] |}.

Section Funding.

(** [exchange.get_funding_rate(symbol=symbol)] of the named exchange: what
    the request answers when [n] funding requests were sent before it. *)
Variable get_funding_rate : string -> string -> nat -> pyresult Q.

Definition fetch_funding (self : CombinedScraper) (symbol : string)
    (now : Z) (w : world) : pyresult Q * world :=
  let sent := funding_requests w ++ [(exchange_name self, symbol)] in
  match get_funding_rate (exchange_name self) symbol
          (length (funding_requests w)) with
  | Raise e =>
      (Raise e, {| funding_cache := funding_cache w; funding_requests := sent |})
  | Return r =>
      let rate := (r * 100)%Q in
      (Return rate,
       {| funding_cache := <[symbol := (now, rate)]> (funding_cache w);
          funding_requests := sent |})
  end.

Definition get_cached_funding (self : CombinedScraper) (symbol : string)
    (now : Z) (w : world) : pyresult Q * world :=
  match funding_cache w !! symbol with
  | Some (last_fetched, rate) =>
      if now - last_fetched <? FUNDING_CACHE_DURATION
      then (Return rate, w)
      else fetch_funding self symbol now w
  | None => fetch_funding self symbol now w
  end.

End Funding.

(** ** Candles and the values derived from them *)

(** One bar as the exchange client returns it. *)
Record Candle : Type := mkCandle {
  timestamp : Z;
  open : Q;
  high : Q;
  low : Q;
  close : Q;
  volume : Q
}.

(** [Series.max()] and [Series.min()] of a non-empty series of numbers. *)
Definition Qmax2 (a b : Q) : Q := if Qle_bool a b then b else a.
Definition Qmin2 (a b : Q) : Q := if Qle_bool a b then a else b.

Definition series_max (x : Q) (xs : list Q) : Q := fold_left Qmax2 xs x.
Definition series_min (x : Q) (xs : list Q) : Q := fold_left Qmin2 xs x.

(** Rounding to the nearest integer, ties to the even one. *)
Definition round_half_even (y : Q) : Z :=
  let f := Qfloor y in
  match (y - inject_Z f ?= 1 # 2)%Q with
  | Lt => f
  | Gt => f + 1
  | Eq => if Z.even f then f else f + 1
  end.

(** *** binary64

    A float64 is a [spec_float]; subtraction, division and multiplication
    are IEEE 754's, to nearest, ties to even. *)

Definition f64_sub : spec_float -> spec_float -> spec_float := SFsub 53 1024.
Definition f64_div : spec_float -> spec_float -> spec_float := SFdiv 53 1024.
Definition f64_mul : spec_float -> spec_float -> spec_float := SFmul 53 1024.

(** 2^e, and for q > 0 the greatest e with 2^e <= q. *)
Definition Qpow2 (e : Z) : Q :=
  if 0 <=? e then inject_Z (2 ^ e) else (/ inject_Z (2 ^ (- e)))%Q.

Definition Qlog2 (q : Q) : Z :=
  let e := Z.log2 (Qnum q) - Z.log2 (Zpos (Qden q)) in
  if Qle_bool (Qpow2 e) q then e else e - 1.

(** The float of value q: the number itself when it is a float64, and
    otherwise the nearest one, ties to even (what reading the decimal
    number gives); beyond the largest float, infinity.  The unit in the
    last place is 2^(e - 52) for 2^e <= |q|, and 2^(-1074) below 2^(-1022). *)
Definition binary64 (q : Q) : spec_float :=
  match Qnum q with
  | Z0 => S754_zero false
  | _ =>
      let a := Qabs q in
      let e := Z.max (Qlog2 a) (-1022) - 52 in
      let m := round_half_even (a / Qpow2 e) in
      binary_normalize 53 1024 (if Qnum q <? 0 then - m else m) e (Qnum q <? 0)
  end.

Section Candles.

(** [exchange.get_futures_kline(symbol=, interval=, limit=)]: bars from
    the oldest to the newest. *)
Variable get_futures_kline : string -> string -> Z -> pyresult (list Candle).

(** The builtin [round] on the float the spread is: Python's own for a
    float, numpy's for a numpy.float64, which is what [Series.max()] hands
    back with a numpy that defines [__round__] on its scalars. *)
Variable round_ : spec_float -> Z -> spec_float.

(** [get_spread].  The highs and lows are floats, held in the bars as
    their values.  The second component lists the denominators of the
    divisions the call has executed. *)
Definition get_spread (symbol : string) (limit : Z) (timeframe : string)
    (data : option (list Candle)) : pyresult spec_float * list spec_float :=
  let fetched :=
    match data with
    | None => get_futures_kline symbol timeframe limit
    | Some data => Return data
    end in
  match fetched with
  | Raise e => (Raise e, [])
  | Return [] => (Raise (KeyError "high"), [])
  | Return (c :: cs) =>
      let highest_high := binary64 (series_max (high c) (map high cs)) in
      let lowest_low := binary64 (series_min (low c) (map low cs)) in
      if SFltb (S754_zero false) highest_high then
        (Return (round_ (f64_mul
                           (f64_div (f64_sub highest_high lowest_low) highest_high)
                           (binary64 100))
                   4),
         [highest_high])
      else (Return (S754_zero false), [])
  end.

(** The two indicators of the [ta] package, window 14, over the whole
    series: the value at row [i], NaN while the window is not filled. *)
Variable money_flow_index : list Candle -> nat -> cell.
Variable rsi : list Q -> nat -> cell.

(** [series < value] and [series > value] on an indicator column. *)
Definition lt_num (c : cell) (value : Q) : bool :=
  match c with Num q => Qltb q value | _ => false end.
Definition gt_num (c : cell) (value : Q) : bool :=
  match c with Num q => Qltb value q | _ => false end.

(** The columns [buy_condition] and [sell_condition], row by row. *)
Definition conditions (bars : list Candle) : list (bool * bool) :=
  imap (fun i bar =>
          let mfi := money_flow_index bars i in
          let rsi := rsi (map close bars) i in
          let open_less_close := Qltb (open bar) (close bar) in
          (lt_num mfi 20 && lt_num rsi 35 && open_less_close,
           gt_num mfi 80 && gt_num rsi 65 && negb open_less_close))
       bars.

(** [l[start:]] with Python's reading of a negative start. *)
Definition slice_from {A} (start : Z) (l : list A) : list A :=
  let n := Z.of_nat (length l) in
  let start := if start <? 0 then Z.max (n + start) 0 else Z.min start n in
  drop (Z.to_nat start) l.

(** The [for buy, sell in reversed(last_conditions)] loop. *)
Fixpoint first_signal (conds : list (bool * bool)) : string :=
  match conds with
  | [] => "neutral"
  | (buy, sell) :: conds' =>
      if buy then "long"
      else if sell then "short"
      else first_signal conds'
  end.

Definition get_mfi (symbol interval : string) (limit lookback : Z)
  : pyresult string :=
  bars ← get_futures_kline symbol interval limit;
  let last_conditions := slice_from (- lookback) (conditions bars) in
  Return (first_signal (rev last_conditions)).

End Candles.

(** ** Sorting a table *)

(** Order of two cells of a key column sorted descending, NaN last
    ([Lt]: the first goes before the second).  A column mixing numbers and
    strings is rejected before this order is used. *)
Definition descending (a b : cell) : comparison :=
  match a, b with
  | NaN, NaN => Eq
  | NaN, _ => Gt
  | _, NaN => Lt
  | Num x, Num y => (y ?= x)%Q
  | Str x, Str y => String.compare y x
  | _, _ => Eq
  end.

(** Lexicographic order of two rows on the key columns [by]. *)
Fixpoint rows_descending (by_ : list nat) (r1 r2 : list cell) : comparison :=
  match by_ with
  | [] => Eq
  | i :: by' =>
      match descending (cell_at i r1) (cell_at i r2) with
      | Eq => rows_descending by' r1 r2
      | c => c
      end
  end.

(** Stable insertion: [r] goes behind the rows it does not precede. *)
Fixpoint insert_row (by_ : list nat) (r : list cell) (sorted : list (list cell))
  : list (list cell) :=
  match sorted with
  | [] => [r]
  | s :: sorted' =>
      match rows_descending by_ r s with
      | Lt => r :: s :: sorted'
      | _ => s :: insert_row by_ r sorted'
      end
  end.

Definition sort_rows (by_ : list nat) (rs : list (list cell)) : list (list cell) :=
  fold_left (fun sorted r => insert_row by_ r sorted) rs [].

Definition is_num (c : cell) : bool := match c with Num _ => true | _ => false end.
Definition is_str (c : cell) : bool := match c with Str _ => true | _ => false end.

Definition mixed_column (rs : list (list cell)) (i : nat) : bool :=
  existsb (fun r => is_num (cell_at i r)) rs &&
  existsb (fun r => is_str (cell_at i r)) rs.

(** [df.sort_values(by=by, ascending=[False, ...])]: stable, NaN last;
    [KeyError] for an unknown label, [TypeError] for a key column that
    mixes numbers and strings. *)
Definition sort_values (df : DataFrame) (by_ : list string) : pyresult DataFrame :=
  idx ← indices_of (columns df) by_;
  if existsb (mixed_column (rows df)) idx
  then Raise (TypeError "'<' not supported between instances of 'str' and 'float'")
  else Return {| columns := columns df; rows := sort_rows idx (rows df) |}.

(** ** analyse_all_symbols *)

Definition analysis_columns : list string :=
  ["Asset"; "Min qty"; "Price";
   "1m 1x Volume (USDT)"; "5m 1x Volume (USDT)";
   "30m 1x Volume (USDT)"; "1h 1x Volume (USDT)";
   "1m Spread"; "5m Spread"; "30m Spread"; "1h Spread"; "4h Spread";
   "trend%"; "Trend"; "HMA Trend"; "5m MA6 high"; "5m MA6 low";
   "Funding"; "Timestamp"; "MFI";
   "ERI Bull Power"; "ERI Bear Power"; "ERI Trend"].

Section Pool.

Variable analyse_symbol : string -> nat -> pyresult record.

(** [executor.submit(self.retry_analyse_symbol, symbol, retry_limit)]:
    the future, paired with its symbol as in [future_data], holds what
    the task returned or raised.  What the task logged and slept on its
    way (line 534, once per failed attempt) is the trace of
    [retry_analyse_symbol]; a future does not carry it. *)
Definition submit (retry_limit : Z) (symbol : string)
  : option (string * pyresult record) :=
  match retry_analyse_symbol analyse_symbol symbol retry_limit with
  | Some (res, _) => Some (symbol, res)
  | None => None
  end.

(** The [for future in as_completed(future_data)] loop: a result is
    appended to [data], an exception is logged and the loop goes on. *)
Fixpoint collect (completed : list (string * pyresult record))
    (data : list record) (log : list log_line)
  : list record * list log_line :=
  match completed with
  | [] => (data, log)
  | (symbol_data, Return symbol_data_result) :: completed' =>
      collect completed' (data ++ [symbol_data_result]) log
  | (symbol_data, Raise e) :: completed' =>
      collect completed' data (log ++ [LogTaskError symbol_data e])
  end.

(** [completion] is the order in which the futures complete, as indices
    into the list of submitted tasks: any permutation of them.  The
    outer [None] is "a task ran out of fuel".  The list
    returned with the table holds the lines this method logs itself
    (line 553, one for each future that raised), not the lines of the
    tasks. *)
Definition analyse_all_symbols (self : CombinedScraper) (max_workers : Z)
    (retry_limit : Z) (completion : list nat)
  : option (pyresult DataFrame * list log_line) :=
  if max_workers <=? 0 then
    Some (Raise (ValueError "max_workers must be greater than 0"), [])
  else
    future_data ← mapM (submit retry_limit) (symbols self);
    let completed := omap (fun i => future_data !! i) completion in
    let '(data, log) := collect completed [] [] in
    let df := DataFrame_of_records data analysis_columns in
    Some (sort_values df ["1m 1x Volume (USDT)"; "5m Spread"], log).

End Pool.

(** ** Column assignment, drop, merge *)

(** [for x in l: s = body(s, x)], stopping at the first exception. *)
Fixpoint for_each {A S} (l : list A) (body : S -> A -> pyresult S) (s : S)
  : pyresult S :=
  match l with
  | [] => Return s
  | x :: l' => s' ← body s x; for_each l' body s'
  end.

(** [df[col] = vals]: overwrite the column, or append it as the last one. *)
Definition setitem (df : DataFrame) (col : string) (vals : list cell)
  : DataFrame :=
  match index_of col (columns df) with
  | Some i =>
      {| columns := columns df;
         rows := zip_with (fun r v => <[i := v]> r) (rows df) vals |}
  | None =>
      {| columns := columns df ++ [col];
         rows := zip_with (fun r v => r ++ [v]) (rows df) vals |}
  end.

Definition mem (c : string) (l : list string) : bool := existsb (String.eqb c) l.

(** [df.drop(columns=labels)]: [KeyError] for a label that is no column. *)
Definition drop_columns (df : DataFrame) (labels : list string)
  : pyresult DataFrame :=
  _ ← indices_of (columns df) labels;
  let keep := map (fun c => negb (mem c labels)) (columns df) in
  Return {| columns := select_where (columns df) keep;
            rows := map (fun r => select_where r keep) (rows df) |}.

(** [series.fillna(0)] *)
Definition fillna0 (s : list cell) : list cell :=
  map (fun c => match c with NaN => Num 0 | _ => c end) s.

(** Element-wise [+] of two series. *)
Definition cell_add (a b : cell) : pyresult cell :=
  match a, b with
  | Num x, Num y => Return (Num (x + y))
  | NaN, NaN | NaN, Num _ | Num _, NaN => Return NaN
  | Str x, Str y => Return (Str (String.append x y))
  | _, _ => Raise (TypeError "unsupported operand type(s) for +")
  end.

Definition series_add (a b : list cell) : pyresult (list cell) :=
  pysequence (zip_with cell_add a b).

(** Equality of join keys (NaN keys match each other). *)
Definition cell_eqb (a b : cell) : bool :=
  match a, b with
  | NaN, NaN => true
  | Num x, Num y => Qeq_bool x y
  | Str x, Str y => String.eqb x y
  | _, _ => false
  end.

(** Ascending order of join keys: numbers, then strings, then NaN.  The
    keys of the analysis tables are all strings. *)
Definition key_ltb (a b : cell) : bool :=
  match a, b with
  | Num x, Num y => Qltb x y
  | Str x, Str y => String.ltb x y
  | Num _, Str _ => true
  | Num _, NaN => true
  | Str _, NaN => true
  | _, _ => false
  end.

Fixpoint insert_key (k : cell) (keys : list cell) : list cell :=
  match keys with
  | [] => [k]
  | k' :: keys' =>
      if cell_eqb k k' then keys
      else if key_ltb k k' then k :: keys
      else k' :: insert_key k keys'
  end.

(** The distinct keys in ascending order. *)
Definition sorted_keys (ks : list cell) : list cell :=
  fold_left (fun acc k => insert_key k acc) ks [].

(** The rows of the outer join for one key: every pairing of the left rows
    and the right rows that carry it; NaN for the side that has none. *)
Definition join_key (left right : DataFrame) (li ri : nat) (k : cell)
  : list (list cell) :=
  let ls := List.filter (fun r => cell_eqb (cell_at li r) k) (rows left) in
  let rs := List.filter (fun r => cell_eqb (cell_at ri r) k) (rows right) in
  match ls, rs with
  | [], _ =>
      map (fun r => <[li := k]> (replicate (length (columns left)) NaN)
                      ++ delete ri r) rs
  | _, [] =>
      map (fun l => l ++ replicate (length (columns right) - 1) NaN) ls
  | _, _ =>
      flat_map (fun l => map (fun r => l ++ delete ri r) rs) ls
  end.

(** [pd.merge(left, right, on=on, how="outer", suffixes=(lsuffix, rsuffix))]:
    the key column once, the other columns of the left and then of the
    right table, a label both tables have getting the side's suffix; one
    group of rows per key, keys ascending. *)
Definition merge_outer (left right : DataFrame) (on lsuffix rsuffix : string)
  : pyresult DataFrame :=
  match index_of on (columns left), index_of on (columns right) with
  | Some li, Some ri =>
      let lcols :=
        map (fun c => if String.eqb c on then c
                      else if mem c (columns right) then String.append c lsuffix
                      else c)
            (columns left) in
      let rcols :=
        map (fun c => if mem c (columns left) then String.append c rsuffix else c)
            (delete ri (columns right)) in
      let keys :=
        sorted_keys (map (cell_at li) (rows left) ++ map (cell_at ri) (rows right)) in
      Return {| columns := lcols ++ rcols;
                rows := flat_map (join_key left right li ri) keys |}
  | _, _ => Raise (KeyError on)
  end.

(** ** combine_and_save_rotator_data: the table it builds *)

Definition volume_columns : list string :=
  ["1m 1x Volume (USDT)"; "5m 1x Volume (USDT)";
   "30m 1x Volume (USDT)"; "1h 1x Volume (USDT)"].

(** [combined_data[col] = combined_data[col + '_bybit'].fillna(0)
                          + combined_data[col + '_binance'].fillna(0)] *)
Definition sum_volume (combined_data : DataFrame) (col : string)
  : pyresult DataFrame :=
  bybit ← getitem combined_data (String.append col "_bybit");
  binance ← getitem combined_data (String.append col "_binance");
  total ← series_add (fillna0 bybit) (fillna0 binance);
  Return (setitem combined_data col total).

(** [if col.endswith(suffix):
        combined_data[col.replace(suffix, '')] = combined_data[col]] *)
Definition copy_suffixed (suffix : string) (combined_data : DataFrame)
    (col : string) : pyresult DataFrame :=
  if endswith col suffix then
    vals ← getitem combined_data col;
    Return (setitem combined_data (replace col suffix "") vals)
  else Return combined_data.

(** Lines 57-79 of [combine_and_save_rotator_data]: the value of
    [combined_data] when it is saved. *)
Definition combined_data (data_binance data_bybit : DataFrame)
  : pyresult DataFrame :=
  combined_data ← merge_outer data_bybit data_binance "Asset" "_bybit" "_binance";
  combined_data ← for_each volume_columns sum_volume combined_data;
  combined_data ← drop_columns combined_data
                    (map (fun col => String.append col "_bybit") volume_columns);
  combined_data ← drop_columns combined_data
                    (map (fun col => String.append col "_binance") volume_columns);
  combined_data ← for_each (columns combined_data) (copy_suffixed "_bybit")
                    combined_data;
  combined_data ← for_each (columns combined_data) (copy_suffixed "_binance")
                    combined_data;
  drop_columns combined_data
    (List.filter (fun col => endswith col "_bybit" || endswith col "_binance")
       (columns combined_data)).

(** ** Files *)

(** The machine the cycle runs on: the files by path, the warnings and
    errors logged (info lines are not recorded), the seconds slept, and
    [budget]: how many more elementary disk operations (opening a file for
    writing, writing one character, renaming) are carried out before the
    disk fails or the process is killed.  A state reached with budget n is
    what a reader of the directory can see after the n-th operation. *)
Record machine : Type := mkMachine {
  files : gmap string string;
  budget : nat;
  log : list log_line;
  slept : Z
}.

Definition io (A : Type) : Type := machine -> pyresult A * machine.

#[global] Instance io_ret : MRet io := fun A a m => (Return a, m).
#[global] Instance io_bind : MBind io := fun A B k c m =>
  match c m with
  | (Return a, m') => k a m'
  | (Raise e, m') => (Raise e, m')
  end.

Definition lift {A} (r : pyresult A) : io A := fun m => (r, m).

Definition log_lines (lines : list log_line) : io unit := fun m =>
  (Return (),
   {| files := files m; budget := budget m; log := log m ++ lines;
      slept := slept m |}).

(** [open(path, "w")] followed by the write of [content]: the file is
    truncated when it is opened and then grows to [content]; if the budget
    ends on the way the file keeps what was written and [OSError] is
    raised. *)
Definition write_file (path content : string) : io unit := fun m =>
  match budget m with
  | O => (Raise (OSError "write failed"), m)
  | S b =>
      if (b <? String.length content)%nat then
        (Raise (OSError "write failed"),
         {| files := <[path := String.substring 0 b content]> (files m);
            budget := 0; log := log m; slept := slept m |})
      else
        (Return (),
         {| files := <[path := content]> (files m);
            budget := b - String.length content; log := log m;
            slept := slept m |})
  end.

(** [os.rename(src, dst)]: one operation, replacing [dst]. *)
Definition rename (src dst : string) : io unit := fun m =>
  match budget m with
  | O => (Raise (OSError "rename failed"), m)
  | S b =>
      match files m !! src with
      | None =>
          (Raise (OSError "No such file or directory"),
           {| files := files m; budget := b; log := log m; slept := slept m |})
      | Some content =>
          (Return (),
           {| files := <[dst := content]> (delete src (files m));
              budget := b; log := log m; slept := slept m |})
      end
  end.

(** ** Publication *)

(** The dict [get_all_historical_volume] returns. *)
Definition volume_map : Type := list (string * list cell).

Section Publication.

(** [DataFrame.to_json(orient="records", date_format="iso")],
    [to_csv(index=False)] and [to_parquet()], by format name, and
    [json.dump] of the volume map. *)
Variable serialize : string -> DataFrame -> string.
Variable json_dump : volume_map -> string.

(** [output_df]; the table is [None] when the caller passes Python's
    None. *)
Definition output_df (dataframe : option DataFrame) (path : string)
    (to : string) : io unit :=
  if String.eqb to "json" || String.eqb to "csv" || String.eqb to "parquet" then
    match dataframe with
    | Some df => write_file path (serialize to df)
    | None => lift (Raise (AttributeError "'NoneType' object has no attribute"))
    end
  else if String.eqb to "dict" then
    lift (Raise (match dataframe with
                 | Some _ => TypeError "to_dict() got multiple values for argument 'orient'"
                 | None => AttributeError "'NoneType' object has no attribute"
                 end))
  else
    log_lines [LogError (String.append "Output to "
                           (String.append to " not implemented"))].

(** [scraper.filter_df(...)] with its log lines going to the log. *)
Definition filter_df_logged (dataframe : DataFrame) (filter_col operator : string)
    (value : Q) : io (option DataFrame) := fun m =>
  let '(res, lines) := filter_df dataframe filter_col operator value in
  (res, {| files := files m; budget := budget m; log := log m ++ lines;
           slept := slept m |}).

(** A method call, or a subscription, on the result of [filter_df]. *)
Definition method_of (res : option DataFrame) : pyresult DataFrame :=
  match res with
  | Some df => Return df
  | None => Raise (AttributeError "'NoneType' object has no attribute")
  end.

Definition subscript_of (res : option DataFrame) : pyresult DataFrame :=
  match res with
  | Some df => Return df
  | None => Raise (TypeError "'NoneType' object is not subscriptable")
  end.

Definition data_dir : string := "/var/www/api/data/".

(** The body of the [with pidfile.PIDFile(...)] block after
    [df = scraper.analyse_all_symbols()]; [total_historical_volume] is
    what [scraper.get_all_historical_volume(...)] returns or raises. *)
Definition publish_artifacts (exchange_name : string) (df : DataFrame)
    (total_historical_volume : pyresult volume_map) : io unit :=
  let main_path_quant :=
    String.append data_dir (String.append "quantdatav2_" (String.append exchange_name ".json")) in
  let temp_path_quant :=
    String.append data_dir (String.append "quantdatav2_" (String.append exchange_name "_temp.json")) in
  output_df (Some df) temp_path_quant "json";;
  rename temp_path_quant main_path_quant;;
  (if String.eqb exchange_name "bybit" then
     let old_path := String.append data_dir "quantdatav2.json" in
     let old_temp_path := String.append data_dir "quantdatav2_temp.json" in
     output_df (Some df) old_temp_path "json";;
     rename old_temp_path old_path
   else mret ());;
  to_trade ← filter_df_logged df "5m 1x Volume (USDT)" ">" 15000;
  let main_path_trade :=
    String.append data_dir (String.append "whattotrade_" (String.append exchange_name ".json")) in
  let temp_path_trade :=
    String.append data_dir (String.append "whattotrade_" (String.append exchange_name "_temp.json")) in
  output_df to_trade temp_path_trade "json";;
  rename temp_path_trade main_path_trade;;
  rotator_symbols ← filter_df_logged df "5m 1x Volume (USDT)" ">" 15000;
  rotator_symbols ← lift (rotator_symbols ← method_of rotator_symbols;
                          sort_values rotator_symbols
                            ["5m 1x Volume (USDT)"; "5m Spread"]);
  let main_path :=
    String.append data_dir (String.append "rotatorsymbols_" (String.append exchange_name ".json")) in
  let temp_path :=
    String.append data_dir (String.append "rotatorsymbols_" (String.append exchange_name "_temp.json")) in
  output_df (Some rotator_symbols) temp_path "json";;
  rename temp_path main_path;;
  (if String.eqb exchange_name "bybit" then
     output_df (Some rotator_symbols)
       (String.append data_dir "rotatorsymbols.json") "json"
   else mret ());;
  negative ← filter_df_logged df "Funding" "<" 0;
  negative ← lift (negative ← subscript_of negative;
                   reduce_df negative ["Asset"; "1m 1x Volume (USDT)"; "Funding"]);
  output_df (Some negative)
    (String.append data_dir (String.append "negativefunding_" (String.append exchange_name ".json")))
    "json";;
  positive ← filter_df_logged df "Funding" ">" 0;
  positive ← lift (positive ← subscript_of positive;
                   reduce_df positive ["Asset"; "1m 1x Volume (USDT)"; "Funding"]);
  output_df (Some positive)
    (String.append data_dir (String.append "positivefunding_" (String.append exchange_name ".json")))
    "json";;
  total_historical_volume ← lift total_historical_volume;
  write_file
    (String.append data_dir
       (String.append "total_historical_volume_" (String.append exchange_name ".json")))
    (json_dump total_historical_volume).

(** One turn of the [while True] loop of [run_scraper_for_exchange]:
    [already_running] tells whether the pid file is held by another
    process, [analysis] is what building the scraper and
    [analyse_all_symbols()] return or raise. *)
Definition scraper_iteration (exchange_name : string) (already_running : bool)
    (analysis : pyresult DataFrame)
    (total_historical_volume : pyresult volume_map) (m : machine) : machine :=
  let m' :=
    if already_running then
      snd (log_lines [LogWarning (String.append exchange_name
                                    " scraper already running.")] m)
    else
      match (df ← lift analysis;
             publish_artifacts exchange_name df total_historical_volume) m with
      | (Return _, m') => m'
      | (Raise e, m') => snd (log_lines [LogCycleError exchange_name e] m')
      end in
  {| files := files m'; budget := budget m'; log := log m';
     slept := slept m' + 60 |}.

(** [combine_and_save_rotator_data]: the merged table is written with
    [to_json] inside a try block; a failure of the write is logged.  An
    exception of the merging steps is not caught. *)
Definition combine_and_save_rotator_data (data_binance data_bybit : DataFrame)
    (filename : string) : io unit := fun m =>
  match combined_data data_binance data_bybit with
  | Raise e => (Raise e, m)
  | Return combined =>
      match write_file filename (serialize "json" combined) m with
      | (Return _, m') => (Return (), m')
      | (Raise e, m') =>
          log_lines [LogError (String.append "Error during saving combined data to "
                                 filename)] m'
      end
  end.

End Publication.

(** ** The symbol universe *)

(** [filter_quote]: the symbols that end with one of the quotes
    ([symbol.endswith(tuple(quotes))]), in their order. *)
Definition filter_quote (symbols quotes : list string) : list string :=
  List.filter (fun symbol => existsb (endswith symbol) quotes) symbols.

(** [l[:stop]] with Python's reading of a negative stop. *)
Definition slice_to {A} (stop : Z) (l : list A) : list A :=
  let n := Z.of_nat (length l) in
  let stop := if stop <? 0 then Z.max (n + stop) 0 else Z.min stop n in
  take (Z.to_nat stop) l.

(** [sorted(volumes.items(), key=lambda x: x[1], reverse=True)]: by
    volume, greatest first; the sort is stable, so items of equal volume
    stay in the order of the dict.  An item is put before the first item
    of smaller volume. *)
Fixpoint insert_volume (x : string * Q) (sorted : list (string * Q))
  : list (string * Q) :=
  match sorted with
  | [] => [x]
  | y :: sorted' =>
      if Qltb (snd y) (snd x) then x :: y :: sorted'
      else y :: insert_volume x sorted'
  end.

Definition sorted_by_volume (items : list (string * Q)) : list (string * Q) :=
  fold_left (fun sorted x => insert_volume x sorted) items [].

(** [filter_volume]; [volumes] lists the items of the dict of 24h
    volumes. *)
Definition filter_volume (symbols : list string) (volumes : list (string * Q))
    (limit : Z) : list string :=
  let volumes := sorted_by_volume volumes in
  let volumes := slice_to limit volumes in
  let volume_keys := map fst volumes in
  List.filter (fun symbol => mem symbol volume_keys) symbols.

(** ** The historical volumes *)

(** [all_volume[symbol] = volume] on a dict kept as the list of its items:
    a new key goes last, an old key keeps its place. *)
Fixpoint dict_set (k : string) (v : list cell) (d : volume_map) : volume_map :=
  match d with
  | [] => [(k, v)]
  | (k', v') :: d' =>
      if String.eqb k k' then (k, v) :: d' else (k', v') :: dict_set k v d'
  end.

Section Volumes.

Variable get_futures_kline : string -> string -> Z -> pyresult (list Candle).

(** Lines 113-124 of [get_historical_volume_binance]: the request to
    "/fapi/v1/klines" and the sixth field of each entry of the answer. *)
Variable binance_kline_volumes : string -> string -> Z -> pyresult (list cell).

Definition get_historical_volume_bybit (symbol interval : string) (limit : Z)
  : pyresult (string * list cell) :=
  data ← get_futures_kline symbol interval limit;
  Return (symbol, map (fun candle => Num (volume candle)) data).

Definition get_historical_volume_binance (symbol interval : string) (limit : Z)
  : pyresult (string * list cell) :=
  volumes ← binance_kline_volumes symbol interval limit;
  Return (symbol, volumes).

(** The [for future in as_completed(futures)] loop: [future.result()]
    raises what the task raised, and nothing catches it. *)
Fixpoint gather (completed : list (pyresult (string * list cell)))
    (all_volume : volume_map) : pyresult volume_map :=
  match completed with
  | [] => Return all_volume
  | Return (symbol, volume) :: completed' =>
      gather completed' (dict_set symbol volume all_volume)
  | Raise e :: completed' => Raise e
  end.

(** [completion] is the order in which the futures complete, as indices
    into the list of submitted tasks. *)
Definition get_all_historical_volume (self : CombinedScraper)
    (exchange_name interval : string) (limit : Z) (completion : list nat)
  : pyresult volume_map :=
  futures ←
    (if String.eqb exchange_name "bybit" then
       Return (map (fun symbol => get_historical_volume_bybit symbol interval limit)
                 (symbols self))
     else if String.eqb exchange_name "binance" then
       Return (map (fun symbol => get_historical_volume_binance symbol interval limit)
                 (symbols self))
     else Raise (ValueError (String.append "Unsupported exchange: " exchange_name)));
  gather (omap (fun i => futures !! i) completion) [].

End Volumes.

(** ** The constructor *)

(** The [filters] dict: each of the two keys may be absent. *)
Record Filters : Type := mkFilters {
  quote_symbols : option (list string);
  top_volume : option Z
}.

Section Constructor.

(** [Binance()] or [Bybit()], by name, and its three listings. *)
Variable get_futures_symbols : string -> pyresult (list string).
Variable get_futures_prices : string -> pyresult (list (string * Q)).
Variable get_futures_volumes : string -> pyresult (list (string * Q)).

Definition __init__ (exchange_name : string) (filters : Filters)
  : pyresult CombinedScraper :=
  if String.eqb exchange_name "binance" || String.eqb exchange_name "bybit" then
    symbols ← get_futures_symbols exchange_name;
    prices ← get_futures_prices exchange_name;
    let symbols :=
      match quote_symbols filters with
      | Some quotes => filter_quote symbols quotes
      | None => symbols
      end in
    match top_volume filters with
    | Some limit =>
        volumes ← get_futures_volumes exchange_name;
        Return {| exchange_name := exchange_name;
                  symbols := filter_volume symbols volumes limit |}
    | None =>
        Return {| exchange_name := exchange_name; symbols := symbols |}
    end
  else
    Raise (ValueError "Invalid exchange name provided. Use 'binance' or 'bybit'.").

End Constructor.

(* ===================================================================== *)
(** * Part II: vocabulary of the properties and concrete inputs           *)
(* ===================================================================== *)

(** ** The retry wrapper *)

(** The events of one failed attempt: the call, the log line, the pause. *)
Definition failed_attempt (symbol : string) (errs : nat -> exn) (i : nat)
  : list event :=
  [EvAnalyse symbol; EvLogRetry symbol (Z.of_nat i + 1) (errs i); EvSleep 1].

Definition failed_attempts (symbol : string) (errs : nat -> exn) (from n : nat)
  : list event :=
  concat (map (failed_attempt symbol errs) (seq from n)).

Definition is_call (ev : event) : bool :=
  match ev with EvAnalyse _ => true | _ => false end.

Definition count_calls (tr : list event) : nat :=
  length (List.filter is_call tr).

Definition is_sleep (ev : event) : bool :=
  match ev with EvSleep _ => true | _ => false end.

(** The "Retry attempt" lines a task logs itself (line 534). *)
Definition is_retry_line (ev : event) : bool :=
  match ev with EvLogRetry _ _ _ => true | _ => false end.

Definition retry_lines (tr : list event) : list event :=
  List.filter is_retry_line tr.

(** An analysis that times out twice and then answers. *)
Definition flaky_analysis (symbol : string) (i : nat) : pyresult record :=
  if (i <? 2)%nat then Raise (ExchangeError "timeout")
  else Return [("Asset", Str symbol); ("Price", Num 1)].

(** An analysis that never answers. *)
Definition dead_analysis (symbol : string) (i : nat) : pyresult record :=
  Raise (ExchangeError "timeout").

(** ** Filters *)

(** A cell holds a number below / above / equal to [value]. *)
Definition below (value : Q) (c : cell) : bool :=
  match c with Num q => Qltb q value | _ => false end.

Definition above (value : Q) (c : cell) : bool :=
  match c with Num q => Qltb value q | _ => false end.

Definition equal_to (value : Q) (c : cell) : bool :=
  match c with Num q => Qeq_bool q value | _ => false end.

(** A cell holds a number other than [value]. *)
Definition other_than (value : Q) (c : cell) : bool :=
  match c with Num q => negb (Qeq_bool q value) | _ => false end.

(** A numeric column: every cell is a number or NaN (float64 dtype). *)
Definition numeric_cell (c : cell) : Prop :=
  match c with Str _ => False | _ => True end.

Definition numeric_column (df : DataFrame) (i : nat) : Prop :=
  Forall (fun row => numeric_cell (cell_at i row)) (rows df).

(** A small table with a string and two numeric columns. *)
Definition funding_table : DataFrame :=
  {| columns := ["Asset"; "1m 1x Volume (USDT)"; "Funding"];
     rows := [ [Str "AAAUSDT"; Num 900; Num (-1 # 100)];
               [Str "BBBUSDT"; Num 800; Num 0];
               [Str "CCCUSDT"; Num 700; Num (3 # 100)];
               [Str "DDDUSDT"; Num 600; NaN];
               [Str "EEEUSDT"; Num 500; Num (-2 # 100)] ] |}.

(** ** Funding cache *)

(** The cache holds for [symbol] an entry that is fresh at [now]. *)
Definition fresh_at (w : world) (symbol : string) (now : Z) : Prop :=
  exists last_fetched rate,
    funding_cache w !! symbol = Some (last_fetched, rate) /\
    now - last_fetched < FUNDING_CACHE_DURATION.

(** The cache holds no entry for [symbol], or one of age at least the TTL. *)
Definition absent_or_stale (w : world) (symbol : string) (now : Z) : Prop :=
  match funding_cache w !! symbol with
  | None => True
  | Some (last_fetched, _) => FUNDING_CACHE_DURATION <= now - last_fetched
  end.

(** The number of funding requests for [symbol] sent to [exchange]. *)
Definition requests_to (exchange symbol : string) (w : world) : nat :=
  length (List.filter
            (fun r => String.eqb (fst r) exchange && String.eqb (snd r) symbol)
            (funding_requests w)).

Definition binance_scraper : CombinedScraper :=
  {| exchange_name := "binance"; symbols := ["BTCUSDT"; "ETHUSDT"] |}.

Definition bybit_scraper : CombinedScraper :=
  {| exchange_name := "bybit"; symbols := ["BTCUSDT"; "SOLUSDT"] |}.

(** Exchanges that answer every funding request: Binance 0.0001, Bybit
    0.0003. *)
Definition steady_funding (exchange symbol : string) (n : nat) : pyresult Q :=
  if String.eqb exchange "binance" then Return (1 # 10000)%Q
  else Return (3 # 10000)%Q.

(** ** Candle windows *)

(** [m] is the greatest (the least) number of the series [xs]. *)
Definition is_max (m : Q) (xs : list Q) : Prop :=
  In m xs /\ forall x, In x xs -> (x <= m)%Q.

Definition is_min (m : Q) (xs : list Q) : Prop :=
  In m xs /\ forall x, In x xs -> (m <= x)%Q.

(** The window [get_spread] works on: the one passed, or the one fetched. *)
Definition window_of (get_futures_kline : string -> string -> Z -> pyresult (list Candle))
    (symbol : string) (limit : Z) (timeframe : string)
    (data : option (list Candle)) : pyresult (list Candle) :=
  match data with
  | Some data => Return data
  | None => get_futures_kline symbol timeframe limit
  end.

Definition bar (o h l c : Q) : Candle :=
  {| timestamp := 0; open := o; high := h; low := l; close := c; volume := 1 |}.

Definition no_kline (symbol interval : string) (limit : Z) : pyresult (list Candle) :=
  Raise (ExchangeError "no data").

(** *** The two builtin roundings

    The value of a finite float. *)
Definition float_value (x : spec_float) : option Q :=
  match x with
  | S754_zero _ => Some 0%Q
  | S754_finite s m e =>
      Some ((if s then inject_Z (Zneg m) else inject_Z (Zpos m)) * Qpow2 e)%Q
  | _ => None
  end.

(** The multiple of 10^(-ndigits) nearest to q, ties to the even one. *)
Definition nearest_decimal (q : Q) (ndigits : Z) : Q :=
  (inject_Z (round_half_even (q * inject_Z (10 ^ ndigits)))
   / inject_Z (10 ^ ndigits))%Q.

(** Python's [round(x, ndigits)] of a float, ndigits >= 0: the float
    nearest to the decimal nearest to the value of x; a zero keeps the sign
    of x; infinities and NaN are returned as they are. *)
Definition round_float (x : spec_float) (ndigits : Z) : spec_float :=
  match x with
  | S754_finite s _ _ =>
      match float_value x with
      | Some q =>
          let d := nearest_decimal q ndigits in
          match Qnum d with
          | Z0 => S754_zero s
          | _ => binary64 d
          end
      | None => x
      end
  | _ => x
  end.

(** numpy's rounding of a float64, decimals >= 0: multiply by 10^decimals,
    round to the nearest integer, ties to even, divide. *)
Definition f64_rint (y : spec_float) : spec_float :=
  match y with
  | S754_finite s _ _ =>
      match float_value y with
      | Some q =>
          match round_half_even q with
          | Z0 => S754_zero s
          | n => binary64 (inject_Z n)
          end
      | None => y
      end
  | _ => y
  end.

Definition round_float64 (x : spec_float) (decimals : Z) : spec_float :=
  let p := binary64 (inject_Z (10 ^ decimals)) in
  f64_div (f64_rint (f64_mul x p)) p.

(** ** Oscillator verdict *)

(** A row of (buy_condition, sell_condition) that decides nothing. *)
Definition quiet (c : bool * bool) : Prop := c = (false, false).

(** The [n] most recent elements of a series (all of it when shorter). *)
Definition most_recent {A} (n : nat) (l : list A) : list A :=
  drop (length l - n) l.

(** A market that falls on every bar: fifteen bars, each with its close
    and its typical price (high + low + close) / 3 below those of the bar
    before; the last bar gaps down and closes above its open. *)
Definition falling_feed : list Candle :=
  [bar 200 201 194 195; bar 190 191 184 185; bar 180 181 174 175;
   bar 170 171 164 165; bar 160 161 154 155; bar 150 151 144 145;
   bar 140 141 134 135; bar 130 131 124 125; bar 120 121 114 115;
   bar 110 111 104 105; bar 100 101 94 95; bar 90 91 84 85;
   bar 80 81 74 75; bar 70 71 64 65; bar 54 56 53 55].

Definition falling_market (symbol interval : string) (limit : Z)
  : pyresult (list Candle) :=
  Return falling_feed.

(** *** The indicators of the [ta] package

    [get_mfi] takes the two indicators as given.  What follows is what
    [ta] computes with window 14 and fillna=False, written in exact
    arithmetic.  It is used on [falling_feed] only: there the positive
    money flow and the average gain are 0 and the negative money flow and
    the average loss are not, so both indicators are 100 - 100 / (1 + 0),
    which is 0 in binary64 as well. *)

Definition typical_price (c : Candle) : Q := ((high c + low c + close c) / 3)%Q.

(** [typical_price * volume * up_down]: the money flow of a row, signed
    by the move of the typical price from the row before; 0 on row 0. *)
Definition money_flow (bars : list Candle) (i : nat) (c : Candle) : Q :=
  match i with
  | O => 0%Q
  | S j =>
      match bars !! j with
      | Some before =>
          if Qltb (typical_price before) (typical_price c)
          then (typical_price c * volume c)%Q
          else if Qltb (typical_price c) (typical_price before)
          then (- (typical_price c * volume c))%Q
          else 0%Q
      | None => 0%Q
      end
  end.

Definition Qsum (l : list Q) : Q := foldr Qplus 0%Q l.

(** [rolling(14, min_periods=14)] at row [i]: the rows [i - 13 .. i],
    nothing while there are fewer. *)
Definition rolling {A} (l : list A) (i : nat) : option (list A) :=
  if (13 <=? i)%nat && (i <? length l)%nat
  then Some (take 14 (drop (i - 13) l))
  else None.

(** [MFIIndicator(high, low, close, volume, window=14, fillna=False)
    .money_flow_index()]: 0 / 0 is NaN, a positive flow over 0 is
    infinite and gives 100. *)
Definition ta_money_flow_index (bars : list Candle) (i : nat) : cell :=
  match rolling (imap (money_flow bars) bars) i with
  | None => NaN
  | Some window =>
      let n_positive_mf := Qsum (List.filter (fun x => Qle_bool 0 x) window) in
      let n_negative_mf := Qabs (Qsum (List.filter (fun x => Qltb x 0) window)) in
      if Qeq_bool n_negative_mf 0 then
        if Qeq_bool n_positive_mf 0 then NaN else Num 100
      else Num (100 - 100 / (1 + n_positive_mf / n_negative_mf))%Q
  end.

(** [series.ewm(alpha=alpha, adjust=False).mean()] *)
Fixpoint ewm_from (alpha y : Q) (xs : list Q) : list Q :=
  match xs with
  | [] => []
  | x :: xs' =>
      let y' := ((1 - alpha) * y + alpha * x)%Q in
      y' :: ewm_from alpha y' xs'
  end.

Definition ewm_mean (alpha : Q) (xs : list Q) : list Q :=
  match xs with
  | [] => []
  | x :: xs' => x :: ewm_from alpha x xs'
  end.

(** [close.diff(1)]; row 0 has no difference, and counts as 0 for the
    gains and for the losses. *)
Definition diff (closes : list Q) : list Q :=
  match closes with
  | [] => []
  | _ :: later => 0%Q :: zip_with (fun before c => (c - before)%Q) closes later
  end.

(** [ta.momentum.rsi(close, window=14)]: no value before row 13; with an
    average loss of 0 the value is 100. *)
Definition ta_rsi (closes : list Q) (i : nat) : cell :=
  let up_direction := map (fun d => if Qltb 0 d then d else 0%Q) (diff closes) in
  let down_direction := map (fun d => if Qltb d 0 then (- d)%Q else 0%Q) (diff closes) in
  let emaup := ewm_mean (1 # 14) up_direction in
  let emadn := ewm_mean (1 # 14) down_direction in
  if (i <? 13)%nat then NaN
  else
    match emaup !! i, emadn !! i with
    | Some up, Some dn =>
        if Qeq_bool dn 0 then Num 100 else Num (100 - 100 / (1 + up / dn))%Q
    | _, _ => NaN
    end.

(** A cell that holds the number 0. *)
Definition is_zero (c : cell) : bool :=
  match c with Num q => Qeq_bool q 0 | _ => false end.

(** ** The worker pool *)

(** Every attempt on [symbol] raises. *)
Definition always_fails (analyse_symbol : string -> nat -> pyresult record)
    (symbol : string) : Prop :=
  forall i, exists e, analyse_symbol symbol i = Raise e.

(** Some attempt on [symbol], not beyond the retry limit, returns [values]
    after the earlier ones raised. *)
Definition succeeds_within (analyse_symbol : string -> nat -> pyresult record)
    (retry_limit : Z) (symbol : string) (values : record) : Prop :=
  exists (k : nat) (errs : nat -> exn),
    (1 <= k)%nat /\ Z.of_nat k <= retry_limit /\
    (forall i, (i < k - 1)%nat -> analyse_symbol symbol i = Raise (errs i)) /\
    analyse_symbol symbol (k - 1)%nat = Return values.

(** The two sort keys of an analysis record are numbers. *)
Definition sortable (values : record) : Prop :=
  numeric_cell (dict_get "1m 1x Volume (USDT)" values) /\
  numeric_cell (dict_get "5m Spread" values).

Definition returned (f : string * pyresult record) : option record :=
  match f with (_, Return values) => Some values | _ => None end.

Definition raised (f : string * pyresult record) : option log_line :=
  match f with (symbol, Raise e) => Some (LogTaskError symbol e) | _ => None end.

(** Three symbols, the second of which is delisted: its analysis always
    raises; the others answer at once. *)
Definition analysis_of (volume spread : Q) (symbol : string) : record :=
  [("Asset", Str symbol); ("Price", Num 1);
   ("1m 1x Volume (USDT)", Num volume); ("5m Spread", Num spread)].

Definition one_delisted (symbol : string) (i : nat) : pyresult record :=
  if String.eqb symbol "BBBUSDT" then Raise (ExchangeError "delisted")
  else if String.eqb symbol "AAAUSDT" then Return (analysis_of 100 (1 # 2) symbol)
  else Return (analysis_of 300 (1 # 4) symbol).

Definition three_symbols : CombinedScraper :=
  {| exchange_name := "bybit"; symbols := ["AAAUSDT"; "BBBUSDT"; "CCCUSDT"] |}.

(** ** The merge *)

(** The row of [symbol] in a table keyed by its "Asset" column, and its
    cell in column [col]. *)
Definition row_of (df : DataFrame) (symbol : string) : option (list cell) :=
  i ← index_of "Asset" (columns df);
  List.find (fun r => cell_eqb (cell_at i r) (Str symbol)) (rows df).

Definition value_at (df : DataFrame) (symbol col : string) : option cell :=
  r ← row_of df symbol;
  i ← index_of col (columns df);
  Some (cell_at i r).

(** How many rows a table has for [symbol]. *)
Definition count_rows (df : DataFrame) (symbol : string) : nat :=
  match index_of "Asset" (columns df) with
  | Some i =>
      length (List.filter (fun r => cell_eqb (cell_at i r) (Str symbol)) (rows df))
  | None => 0
  end.

(** An analysis record with the given price and 5-minute volume. *)
Definition analysis (symbol : string) (price vol5m funding : Q) : record :=
  [("Asset", Str symbol); ("Min qty", Num (1 # 10)); ("Price", Num price);
   ("1m 1x Volume (USDT)", Num 10); ("5m 1x Volume (USDT)", Num vol5m);
   ("30m 1x Volume (USDT)", Num 1000); ("1h 1x Volume (USDT)", Num 2000);
   ("1m Spread", Num (1 # 10)); ("5m Spread", Num (2 # 10));
   ("30m Spread", Num (3 # 10)); ("1h Spread", Num (4 # 10));
   ("4h Spread", Num (5 # 10)); ("trend%", Num (1 # 100));
   ("Trend", Str "short"); ("HMA Trend", Str "long");
   ("5m MA6 high", Num price); ("5m MA6 low", Num price);
   ("Funding", Num funding); ("Timestamp", Str "1700000000");
   ("MFI", Str "neutral"); ("ERI Bull Power", Num (1 # 100));
   ("ERI Bear Power", Num (-1 # 100)); ("ERI Trend", Str "bullish");
   ("hma_trend%", Num (-1 # 100))].

(** The tables of the merge example: exchange A lists AAAUSDT with a
    5-minute volume of 100; exchange B lists AAAUSDT with 50 and BBBUSDT
    with 20. *)
Definition exchange_A : DataFrame :=
  DataFrame_of_records [analysis "AAAUSDT" 10 100 (1 # 100)] analysis_columns.

Definition exchange_B : DataFrame :=
  DataFrame_of_records
    [analysis "AAAUSDT" 11 50 (2 # 100); analysis "BBBUSDT" 2 20 (-3 # 100)]
    analysis_columns.

(** The columns that are neither the key nor a volume column. *)
Definition other_columns : list string :=
  List.filter (fun c => negb (String.eqb c "Asset") && negb (mem c volume_columns))
    analysis_columns.

(** ** Publication *)

(** A toy serializer, enough to tell contents apart: the first cell of
    each row (the symbol), rows closed by [;]. *)
Definition show_cell (c : cell) : string :=
  match c with Str s => s | Num _ => "#" | NaN => "null" end.

Definition show_rows (to : string) (df : DataFrame) : string :=
  String.concat ""
    (map (fun r => String.append (show_cell (cell_at 0 r)) ";") (rows df)).

Definition show_volumes (v : volume_map) : string :=
  String.concat "" (map (fun kv => String.append (fst kv) ";") v).

(** A table of three symbols, two with a negative funding rate. *)
Definition cycle_table : DataFrame :=
  DataFrame_of_records
    [analysis "AAAUSDT" 10 20000 (-1 # 100);
     analysis "BBBUSDT" 2 16000 (2 # 100);
     analysis "CCCUSDT" 5 100 (-3 # 100)]
    analysis_columns.

Definition cycle_volumes : volume_map :=
  [("AAAUSDT", [Num 1; Num 2]); ("BBBUSDT", [Num 3]); ("CCCUSDT", [Num 4])].

(** The directory as the previous cycle left it. *)
Definition previous_files (exchange : string) : gmap string string :=
  list_to_map
    (map (fun name => (String.append data_dir
                         (String.append name (String.append exchange ".json")),
                       "PREVIOUS;"))
       ["quantdatav2_"; "whattotrade_"; "rotatorsymbols_"; "negativefunding_";
        "positivefunding_"; "total_historical_volume_"]
     ++ [(String.append data_dir "quantdatav2.json", "PREVIOUS;");
         (String.append data_dir "rotatorsymbols.json", "PREVIOUS;")]).

Definition machine_with (exchange : string) (budget : nat) : machine :=
  {| files := previous_files exchange; budget := budget; log := []; slept := 0 |}.

(** What one cycle leaves at [path] when the disk stops after [budget]
    operations. *)
Definition left_at (exchange : string) (budget : nat) (path : string)
  : option string :=
  files (scraper_iteration show_rows show_volumes exchange false
           (Return cycle_table) (Return cycle_volumes)
           (machine_with exchange budget))
    !! path.

(** A computation keeps [Q] when [Q] holds of the machine it leaves,
    whether it returns or raises, whenever [Q] held before. *)
Definition keeps {A} (Q : machine -> Prop) (c : io A) : Prop :=
  forall m, Q m -> Q (snd (c m)).

(** What a reader finds at [path] satisfies [S]. *)
Definition holds_at (path : string) (S : option string -> Prop) (m : machine)
  : Prop :=
  S (files m !! path).

(** The destination paths of the artifacts that are renamed into place. *)
Definition quant_path (exchange_name : string) : string :=
  String.append data_dir
    (String.append "quantdatav2_" (String.append exchange_name ".json")).

Definition trade_path (exchange_name : string) : string :=
  String.append data_dir
    (String.append "whattotrade_" (String.append exchange_name ".json")).

Definition rotator_path (exchange_name : string) : string :=
  String.append data_dir
    (String.append "rotatorsymbols_" (String.append exchange_name ".json")).

Definition legacy_quant_path : string := String.append data_dir "quantdatav2.json".

(** The views a cycle derives from the analysis table, when deriving them
    raises nothing. *)
Definition tradeable_view (df : DataFrame) : option DataFrame :=
  match filter_df df "5m 1x Volume (USDT)" ">" 15000 with
  | (Return res, _) => res
  | (Raise _, _) => None
  end.

Definition rotator_view (df : DataFrame) : option DataFrame :=
  match tradeable_view df with
  | Some t =>
      match sort_values t ["5m 1x Volume (USDT)"; "5m Spread"] with
      | Return sorted => Some sorted
      | Raise _ => None
      end
  | None => None
  end.

(** [now] is [before], or the serialization of the view, if there is one. *)
Definition old_or_new (serialize : string -> DataFrame -> string)
    (before : option string) (view : option DataFrame) (now : option string)
  : Prop :=
  now = before \/ exists t, view = Some t /\ now = Some (serialize "json" t).

Definition table_of (analysis : pyresult DataFrame) : option DataFrame :=
  match analysis with Return df => Some df | Raise _ => None end.

(** ** The merge, in general *)

(** A volume with NaN counted as 0, and the sum of two such volumes. *)
Definition val0 (c : cell) : Q := match c with Num q => q | _ => 0%Q end.
Definition plus0 (a b : cell) : cell := Num (val0 a + val0 b).

(** The positions of the volume columns and of the other value columns
    in the standard schema. *)
Definition volume_positions : list nat := [3; 4; 5; 6]%nat.
Definition other_positions : list nat :=
  [1; 2; 7; 8; 9; 10; 11; 12; 13; 14; 15; 16; 17; 18; 19; 20; 21; 22]%nat.

(** A table over the standard schema: 23 cells per row, numbers (or NaN)
    in the volume columns. *)
Definition standard_row (r : list cell) : Prop :=
  length r = 23%nat /\
  Forall (fun i => numeric_cell (cell_at i r)) volume_positions.

Definition standard (df : DataFrame) : Prop :=
  columns df = analysis_columns /\ Forall standard_row (rows df).

(** The columns of the outer join and of the combined table. *)
Definition joined_columns : list string :=
  "Asset"
  :: map (fun c => String.append c "_bybit") (tail analysis_columns)
  ++ map (fun c => String.append c "_binance") (tail analysis_columns).

Definition combined_columns : list string :=
  "Asset" :: volume_columns ++ other_columns.

(** The cell of a side's row, NaN when the side has no row. *)
Definition side (r : option (list cell)) (i : nat) : cell :=
  match r with Some r => cell_at i r | None => NaN end.

(** The row of the combined table for key [k], from the Bybit row and the
    Binance row that carry the key, if any: the key, the four volume sums
    with a missing side counted as 0, and for every other column the
    Binance side's cell, NaN when Binance has no row. *)
Definition merged_row (k : cell) (bybit binance : option (list cell))
  : list cell :=
  match bybit with Some y => cell_at 0 y | None => k end
  :: map (fun i => plus0 (side bybit i) (side binance i)) volume_positions
  ++ map (fun i => side binance i) other_positions.

(** [r] is the row of [df] with key [k], or [df] has no row with key [k]. *)
Definition side_of (df : DataFrame) (k : cell) (r : option (list cell)) : Prop :=
  match r with
  | Some r => In r (rows df) /\ cell_eqb (cell_at 0 r) k = true
  | None => forall r', In r' (rows df) -> cell_eqb (cell_at 0 r') k = false
  end.

(** A row of the join, from the two sides. *)
Definition glue (k : cell) (bybit binance : option (list cell)) : list cell :=
  match bybit with
  | Some y => y
  | None => <[0%nat := k]> (replicate 23 NaN)
  end
  ++ match binance with
     | Some b => delete 0%nat b
     | None => replicate 22 NaN
     end.

(** The row of the combined table from a row of the join. *)
Definition finish (g : list cell) : list cell :=
  cell_at 0 g
  :: map (fun i => plus0 (cell_at i g) (cell_at (i + 22) g)) volume_positions
  ++ map (fun i => cell_at (i + 22) g) other_positions.

Definition joined_row (g : list cell) : Prop :=
  length g = 45%nat /\
  Forall (fun i => numeric_cell (cell_at i g) /\ numeric_cell (cell_at (i + 22) g))
    volume_positions.

(** Row functions: what the column operations of the merge do to one row
    of the join.  [appended f g] adds the cell [g] computes as a new last
    column, [replaced f j g] puts it in column [j], [selected f keep]
    keeps the columns marked in [keep]. *)
Definition appended (f : list cell -> list cell) (g : list cell -> cell)
  : list cell -> list cell :=
  fun r => let x := f r in x ++ [g x].

Definition replaced (f : list cell -> list cell) (j : nat) (g : list cell -> cell)
  : list cell -> list cell :=
  fun r => let x := f r in <[j := g x]> x.

Definition selected (f : list cell -> list cell) (keep : list bool)
  : list cell -> list cell :=
  fun r => select_where (f r) keep.

Definition volume_sum (i j : nat) (x : list cell) : cell :=
  plus0 (cell_at i x) (cell_at j x).

(** ** The symbol universe *)

(** [s] ends with [suffix]. *)
Definition ends_with (s suffix : string) : Prop :=
  exists pre, s = String.append pre suffix.

(** The volume the dict has for a symbol. *)
Definition volume_of (volumes : list (string * Q)) (symbol : string) (v : Q)
  : Prop :=
  In (symbol, v) volumes.

(** Greatest volume first. *)
Definition by_volume (a b : string * Q) : Prop := (snd b <= snd a)%Q.

Definition exchange_volumes : list (string * Q) :=
  [("AAAUSDT", 50%Q); ("BBBUSDT", 900%Q); ("CCCUSDT", 50%Q); ("DDDUSDT", 7%Q)].

(** An exchange whose first funding request fails. *)
Definition outage_then_answer (exchange symbol : string) (n : nat) : pyresult Q :=
  match n with
  | O => Raise (ExchangeError "503")
  | _ => Return (1 # 10000)%Q
  end.


(** Two cells that pandas cannot compare: a number and a string. *)
Definition clash (a b : cell) : bool :=
  (is_num a && is_str b) || (is_str a && is_num b).

Definition comparable (by_ : list nat) (r1 r2 : list cell) : Prop :=
  Forall (fun i => clash (cell_at i r1) (cell_at i r2) = false) by_.

(** [r1] may stand before [r2] in the order of the key columns [by_]. *)
Definition in_order (by_ : list nat) (r1 r2 : list cell) : Prop :=
  rows_descending by_ r1 r2 <> Gt.

(** The destination paths of the artifacts that are written in place, and
    the temporary paths of those that are renamed into place. *)
Definition negative_path (exchange_name : string) : string :=
  String.append data_dir
    (String.append "negativefunding_" (String.append exchange_name ".json")).

Definition positive_path (exchange_name : string) : string :=
  String.append data_dir
    (String.append "positivefunding_" (String.append exchange_name ".json")).

Definition volume_path (exchange_name : string) : string :=
  String.append data_dir
    (String.append "total_historical_volume_" (String.append exchange_name ".json")).

Definition legacy_rotator_path : string :=
  String.append data_dir "rotatorsymbols.json".

Definition quant_temp_path (exchange_name : string) : string :=
  String.append data_dir
    (String.append "quantdatav2_" (String.append exchange_name "_temp.json")).

Definition trade_temp_path (exchange_name : string) : string :=
  String.append data_dir
    (String.append "whattotrade_" (String.append exchange_name "_temp.json")).

Definition rotator_temp_path (exchange_name : string) : string :=
  String.append data_dir
    (String.append "rotatorsymbols_" (String.append exchange_name "_temp.json")).

Definition legacy_quant_temp_path : string :=
  String.append data_dir "quantdatav2_temp.json".

(** The funding view of one sign: the rows [filter_df] keeps, reduced to
    the three columns of the view, when neither step raises. *)
Definition funding_view (operator : string) (df : DataFrame) : option DataFrame :=
  match filter_df df "Funding" operator 0 with
  | (Return (Some t), _) =>
      match reduce_df t ["Asset"; "1m 1x Volume (USDT)"; "Funding"] with
      | Return reduced => Some reduced
      | Raise _ => None
      end
  | _ => None
  end.

(** What the exchange answers when asked for the volumes of [symbol]: the
    volumes of its bars on Bybit, the sixth fields of the klines on
    Binance. *)
Definition volumes_answer
    (get_futures_kline : string -> string -> Z -> pyresult (list Candle))
    (binance_kline_volumes : string -> string -> Z -> pyresult (list cell))
    (exchange_name interval : string) (limit : Z) (symbol : string)
  : pyresult (list cell) :=
  if String.eqb exchange_name "bybit" then
    data ← get_futures_kline symbol interval limit;
    Return (map (fun candle => Num (volume candle)) data)
  else binance_kline_volumes symbol interval limit.

(** Klines that are refused for one symbol. *)
Definition kline_without (delisted : string) (symbol interval : string) (limit : Z)
  : pyresult (list Candle) :=
  if String.eqb symbol delisted then Raise (ExchangeError "symbol not found")
  else Return [bar 100 110 95 105].

(* ===================================================================== *)
(** * Part III: the properties                                            *)
(* ===================================================================== *)

Lemma count_calls_app (tr1 tr2 : list event) :
  count_calls (tr1 ++ tr2) = (count_calls tr1 + count_calls tr2)%nat.
Proof. unfold count_calls. now rewrite List.filter_app, length_app. Qed.

Lemma failed_attempts_S symbol errs from n :
  failed_attempts symbol errs from (S n) =
  failed_attempt symbol errs from ++ failed_attempts symbol errs (S from) n.
Proof. reflexivity. Qed.

Lemma count_calls_failed_attempts symbol errs n : forall from,
  count_calls (failed_attempts symbol errs from n) = n.
Proof.
  induction n as [|n IH]; intros from; [reflexivity|].
  rewrite failed_attempts_S, count_calls_app, IH. reflexivity.
Qed.

Lemma sleeps_failed_attempts symbol errs n : forall from,
  List.filter is_sleep (failed_attempts symbol errs from n) = repeat (EvSleep 1) n.
Proof.
  induction n as [|n IH]; intros from; [reflexivity|].
  rewrite failed_attempts_S, List.filter_app, IH. reflexivity.
Qed.

Section RetryFacts.

Variable analyse_symbol : string -> nat -> pyresult record.
Variable symbol : string.
Variable retry_limit : Z.

(** Failing [k] times from attempt [c] on and then succeeding: the loop
    returns the successful dict after exactly those attempts. *)
Lemma retry_loop_succeeds (errs : nat -> exn) (values : record) (k : nat) :
  forall (fuel c : nat) (tr : list event),
    (forall i, (c <= i < c + k)%nat -> analyse_symbol symbol i = Raise (errs i)) ->
    analyse_symbol symbol (c + k) = Return values ->
    Z.of_nat (c + k) < retry_limit ->
    (k < fuel)%nat ->
    retry_loop analyse_symbol fuel symbol retry_limit (Z.of_nat c) tr =
    Some (Return values,
          tr ++ failed_attempts symbol errs c k ++ [EvAnalyse symbol]).
Proof.
  induction k as [|k IH]; intros fuel c tr Hfail Hok Hlim Hfuel.
  - destruct fuel as [|fuel]; [lia|]. simpl.
    destruct (Z.ltb_spec (Z.of_nat c) retry_limit) as [_|Hge]; [|lia].
    rewrite Nat2Z.id. rewrite Nat.add_0_r in Hok. rewrite Hok.
    reflexivity.
  - destruct fuel as [|fuel]; [lia|]. cbn [retry_loop].
    destruct (Z.ltb_spec (Z.of_nat c) retry_limit) as [_|Hge]; [|lia].
    rewrite Nat2Z.id, (Hfail c) by lia.
    replace (Z.of_nat c + 1) with (Z.of_nat (S c)) by lia.
    rewrite (IH fuel (S c)).
    + rewrite failed_attempts_S. unfold failed_attempt.
      replace (Z.of_nat c + 1) with (Z.of_nat (S c)) by lia.
      now rewrite <- !app_assoc.
    + intros i Hi. apply Hfail. lia.
    + now replace (S c + k)%nat with (c + S k)%nat by lia.
    + lia.
    + lia.
Qed.

(** With fuel for the remaining attempts the loop ends; it calls the
    analysis at most [retry_limit - c] more times, and what it raises is
    its own exception, after exactly that many calls. *)
Lemma retry_loop_total : forall (fuel c : nat) (tr : list event),
  (Z.to_nat (retry_limit - Z.of_nat c) <= fuel)%nat ->
  exists res tr',
    retry_loop analyse_symbol fuel symbol retry_limit (Z.of_nat c) tr =
      Some (res, tr ++ tr') /\
    (count_calls tr' <= Z.to_nat (retry_limit - Z.of_nat c))%nat /\
    (forall e, res = Raise e ->
       e = AnalysisFailed symbol retry_limit /\
       count_calls tr' = Z.to_nat (retry_limit - Z.of_nat c)).
Proof.
  induction fuel as [|fuel IH]; intros c tr Hfuel.
  - simpl. destruct (Z.ltb_spec (Z.of_nat c) retry_limit) as [Hlt|Hge]; [lia|].
    exists (Raise (AnalysisFailed symbol retry_limit)), [].
    rewrite app_nil_r. split; [reflexivity|].
    change (count_calls []) with 0%nat. split; [lia|].
    intros e He. split; [congruence|lia].
  - simpl. destruct (Z.ltb_spec (Z.of_nat c) retry_limit) as [Hlt|Hge].
    + destruct (analyse_symbol symbol (Z.to_nat (Z.of_nat c))) as [values|e].
      * exists (Return values), [EvAnalyse symbol].
        repeat split; try discriminate. unfold count_calls; simpl. lia.
      * replace (Z.of_nat c + 1) with (Z.of_nat (S c)) by lia.
        destruct (IH (S c)
                    (tr ++ [EvAnalyse symbol;
                            EvLogRetry symbol (Z.of_nat (S c)) e; EvSleep 1]))
          as (res & tr' & Heq & Hle & Hraise); [lia|].
        exists res,
          ([EvAnalyse symbol; EvLogRetry symbol (Z.of_nat (S c)) e; EvSleep 1]
             ++ tr').
        rewrite Heq, <- app_assoc. split; [reflexivity|].
        rewrite count_calls_app.
        change (count_calls [EvAnalyse symbol;
                             EvLogRetry symbol (Z.of_nat (S c)) e; EvSleep 1])
          with 1%nat.
        split; [lia|].
        intros e' He'. destruct (Hraise e' He') as [-> Hc]. split; [reflexivity|lia].
    + exists (Raise (AnalysisFailed symbol retry_limit)), [].
      rewrite app_nil_r. split; [reflexivity|].
      change (count_calls []) with 0%nat. split; [lia|].
      intros e He. split; [congruence|lia].
Qed.

End RetryFacts.

(** C3.  If the analysis of [symbol] raises on its first k-1 attempts and
    returns [values] on attempt k, with 1 <= k <= retry_limit, then
    [retry_analyse_symbol] returns [values] (no exception reaches the
    caller), it has called the analysis exactly k times, and between two
    consecutive calls it has logged the failure and slept exactly once, for
    one second: k-1 pauses of 1 second in all. *)
Theorem retry_returns_first_success
    (analyse_symbol : string -> nat -> pyresult record)
    (symbol : string) (retry_limit : Z) (k : nat)
    (errs : nat -> exn) (values : record)
    (Hk : (1 <= k)%nat)
    (Hlimit : Z.of_nat k <= retry_limit)
    (Hfail : forall i, (i < k - 1)%nat -> analyse_symbol symbol i = Raise (errs i))
    (Hsucc : analyse_symbol symbol (k - 1)%nat = Return values) :
  exists tr,
    retry_analyse_symbol analyse_symbol symbol retry_limit = Some (Return values, tr) /\
    tr = failed_attempts symbol errs 0 (k - 1)%nat ++ [EvAnalyse symbol] /\
    count_calls tr = k /\
    List.filter is_sleep tr = repeat (EvSleep 1) (k - 1)%nat.
Proof.
  eexists. split; [|split; [reflexivity|split]].
  - unfold retry_analyse_symbol.
    change 0 with (Z.of_nat 0).
    rewrite (retry_loop_succeeds analyse_symbol symbol retry_limit errs values (k - 1)%nat);
      try reflexivity; try lia.
    + intros i Hi. apply Hfail. lia.
    + exact Hsucc.
  - rewrite count_calls_app, count_calls_failed_attempts.
    unfold count_calls; simpl. lia.
  - rewrite List.filter_app, sleeps_failed_attempts. simpl. now rewrite app_nil_r.
Qed.

Lemma retry_returns_first_success_witness :
  exists tr,
    retry_analyse_symbol flaky_analysis "BTCUSDT" 3 =
      Some (Return [("Asset", Str "BTCUSDT"); ("Price", Num 1)], tr) /\
    tr = failed_attempts "BTCUSDT" (fun _ => ExchangeError "timeout") 0 (3 - 1)%nat
           ++ [EvAnalyse "BTCUSDT"] /\
    count_calls tr = 3%nat /\
    List.filter is_sleep tr = repeat (EvSleep 1) (3 - 1)%nat.
Proof.
  apply (retry_returns_first_success flaky_analysis "BTCUSDT" 3 3
           (fun _ => ExchangeError "timeout")).
  - lia.
  - simpl. lia.
  - intros [|[|i]] Hi; [reflexivity|reflexivity|simpl in Hi; lia].
  - reflexivity.
Defined.

(** C10.  [retry_analyse_symbol] always ends.  With retry_limit <= 0 it
    raises its own exception at once, with no event at all: the analysis is
    not invoked.  In general it invokes the analysis at most retry_limit
    times (none when retry_limit is negative), the only exception it lets
    out is "Failed to analyse symbol after retry_limit attempts", and when it
    raises it has made exactly max(retry_limit, 0) invocations. *)
Theorem retry_calls_at_most_limit
    (analyse_symbol : string -> nat -> pyresult record)
    (symbol : string) (retry_limit : Z) :
  exists res tr,
    retry_analyse_symbol analyse_symbol symbol retry_limit = Some (res, tr) /\
    Z.of_nat (count_calls tr) <= Z.max 0 retry_limit /\
    (forall e, res = Raise e ->
       e = AnalysisFailed symbol retry_limit /\
       Z.of_nat (count_calls tr) = Z.max 0 retry_limit) /\
    (retry_limit <= 0 ->
       res = Raise (AnalysisFailed symbol retry_limit) /\ tr = []).
Proof.
  unfold retry_analyse_symbol.
  destruct (retry_loop_total analyse_symbol symbol retry_limit
              (Z.to_nat retry_limit) 0 [])
    as (res & tr & Heq & Hle & Hraise).
  { simpl. rewrite Z.sub_0_r. lia. }
  change (Z.of_nat 0) with 0 in *. rewrite Z.sub_0_r in *.
  exists res, tr. split; [exact Heq|]. split; [lia|]. split.
  - intros e He. destruct (Hraise e He) as [-> Hc]. split; [reflexivity|lia].
  - intros Hle0. revert Heq.
    destruct (Z.to_nat retry_limit) as [|n] eqn:Hn; simpl;
      destruct (Z.ltb_spec 0 retry_limit) as [Hlt|_]; try lia.
    all: intros [= <- <-]; split; reflexivity.
Qed.

Lemma retry_calls_at_most_limit_witness :
  retry_analyse_symbol flaky_analysis "BTCUSDT" 0 =
    Some (Raise (AnalysisFailed "BTCUSDT" 0), []) /\
  retry_analyse_symbol dead_analysis "BTCUSDT" 2 =
    Some (Raise (AnalysisFailed "BTCUSDT" 2),
          failed_attempts "BTCUSDT" (fun _ => ExchangeError "timeout") 0 2).
Proof.
  split.
  - destruct (retry_calls_at_most_limit flaky_analysis "BTCUSDT" 0)
      as (res & tr & Heq & _ & _ & H0).
    destruct H0 as [-> ->]; [lia|]. exact Heq.
  - reflexivity.
Defined.

(** ** filter_df *)

Lemma Qltb_lt (a b : Q) : Qltb a b = true <-> (a < b)%Q.
Proof.
  unfold Qltb. rewrite negb_true_iff.
  split.
  - intros H. apply Qnot_le_lt. intros Hle.
    apply Qle_bool_iff in Hle. congruence.
  - intros H. destruct (Qle_bool b a) eqn:E; [|reflexivity].
    apply Qle_bool_iff in E. exfalso. exact (Qlt_not_le _ _ H E).
Qed.

Lemma select_rows_map (f : list cell -> bool) (rs : list (list cell)) :
  select_rows rs (map f rs) = List.filter f rs.
Proof.
  unfold select_rows. induction rs as [|r rs IH]; [reflexivity|].
  simpl. now rewrite IH.
Qed.

(** On a numeric column the element-wise comparison raises nothing and is
    the boolean test of each row. *)
Lemma mask_numeric (cmp : cell -> pyresult bool) (test : cell -> bool)
    (i : nat) (rs : list (list cell)) :
  (forall c, numeric_cell c -> cmp c = Return (test c)) ->
  Forall (fun row => numeric_cell (cell_at i row)) rs ->
  pysequence (map cmp (map (cell_at i) rs)) =
  Return (map (fun row => test (cell_at i row)) rs).
Proof.
  intros Hcmp Hnum. induction Hnum as [|r rs Hr _ IH]; [reflexivity|].
  simpl. rewrite (Hcmp _ Hr). simpl. rewrite IH. reflexivity.
Qed.

Lemma cell_lt_numeric value c : numeric_cell c -> cell_lt value c = Return (below value c).
Proof. destruct c; simpl; intros H; [reflexivity|reflexivity|destruct H]. Qed.

Lemma cell_gt_numeric value c : numeric_cell c -> cell_gt value c = Return (above value c).
Proof. destruct c; simpl; intros H; [reflexivity|reflexivity|destruct H]. Qed.

Lemma cell_eq_numeric value c : numeric_cell c -> cell_eq value c = Return (equal_to value c).
Proof. destruct c; simpl; intros H; [reflexivity|reflexivity|destruct H]. Qed.

Section FilterFacts.

Variable dataframe : DataFrame.
Variable filter_col : string.
Variable i : nat.
Variable value : Q.
Hypothesis Hcol : index_of filter_col (columns dataframe) = Some i.
Hypothesis Hnum : numeric_column dataframe i.

Let kept (test : cell -> bool) : DataFrame :=
  {| columns := columns dataframe;
     rows := List.filter (fun row => test (cell_at i row)) (rows dataframe) |}.

Lemma filter_df_lt :
  filter_df dataframe filter_col "<" value = (Return (Some (kept (below value))), []).
Proof.
  unfold filter_df, getitem. simpl. rewrite Hcol. simpl.
  rewrite (mask_numeric _ (below value)) by (auto using cell_lt_numeric).
  simpl. unfold getitem_mask, kept.
  now rewrite (select_rows_map (fun row => below value (cell_at i row))).
Qed.

Lemma filter_df_gt :
  filter_df dataframe filter_col ">" value = (Return (Some (kept (above value))), []).
Proof.
  unfold filter_df, getitem. simpl. rewrite Hcol. simpl.
  rewrite (mask_numeric _ (above value)) by (auto using cell_gt_numeric).
  simpl. unfold getitem_mask, kept.
  now rewrite (select_rows_map (fun row => above value (cell_at i row))).
Qed.

Lemma filter_df_eq :
  filter_df dataframe filter_col "==" value = (Return (Some (kept (equal_to value))), []).
Proof.
  unfold filter_df, getitem. simpl. rewrite Hcol. simpl.
  rewrite (mask_numeric _ (equal_to value)) by (auto using cell_eq_numeric).
  simpl. unfold getitem_mask, kept.
  now rewrite (select_rows_map (fun row => equal_to value (cell_at i row))).
Qed.

End FilterFacts.

Lemma below_lt value c : below value c = true <-> exists q, c = Num q /\ (q < value)%Q.
Proof.
  destruct c as [|q|s]; simpl.
  - split; [discriminate|]. intros (q & [=] & _).
  - rewrite Qltb_lt. split; [eauto|]. now intros (q' & [= <-] & H).
  - split; [discriminate|]. intros (q & [=] & _).
Qed.

Lemma above_gt value c : above value c = true <-> exists q, c = Num q /\ (value < q)%Q.
Proof.
  destruct c as [|q|s]; simpl.
  - split; [discriminate|]. intros (q & [=] & _).
  - rewrite Qltb_lt. split; [eauto|]. now intros (q' & [= <-] & H).
  - split; [discriminate|]. intros (q & [=] & _).
Qed.

Lemma equal_to_eq value c : equal_to value c = true <-> exists q, c = Num q /\ (q == value)%Q.
Proof.
  destruct c as [|q|s]; simpl.
  - split; [discriminate|]. intros (q & [=] & _).
  - rewrite Qeq_bool_iff. split; [eauto|]. now intros (q' & [= <-] & H).
  - split; [discriminate|]. intros (q & [=] & _).
Qed.

(** Two tests that exclude each other split the rows passing either. *)
Lemma filter_split {A} (p q : A -> bool) (l : list A) :
  (forall x, p x = true -> q x = false) ->
  Permutation (List.filter p l ++ List.filter q l)
              (List.filter (fun x => p x || q x) l).
Proof.
  intros Hpq. induction l as [|x l IH]; [constructor|].
  simpl. destruct (p x) eqn:Hp; simpl.
  - rewrite (Hpq x Hp). now constructor.
  - destruct (q x); [|exact IH].
    etransitivity; [symmetry; apply Permutation_middle|]. now constructor.
Qed.

Lemma below_above_disjoint value c : below value c = true -> above value c = false.
Proof.
  destruct c as [|q|s]; simpl; try discriminate.
  rewrite Qltb_lt. intros H.
  destruct (Qltb value q) eqn:E; [|reflexivity].
  apply Qltb_lt in E. exfalso. exact (Qlt_irrefl _ (Qlt_trans _ _ _ H E)).
Qed.

Lemma below_or_above value c : below value c || above value c = other_than value c.
Proof.
  destruct c as [|q|s]; simpl; try reflexivity.
  destruct (Qeq_bool q value) eqn:E; simpl.
  - apply Qeq_bool_iff in E.
    apply orb_false_iff. split.
    + destruct (Qltb q value) eqn:E1; [|reflexivity].
      apply Qltb_lt in E1. rewrite E in E1. exfalso. exact (Qlt_irrefl _ E1).
    + destruct (Qltb value q) eqn:E1; [|reflexivity].
      apply Qltb_lt in E1. rewrite E in E1. exfalso. exact (Qlt_irrefl _ E1).
  - apply orb_true_iff.
    destruct (Q_dec q value) as [[Hlt|Hgt]|Heq].
    + left. now apply Qltb_lt.
    + right. now apply Qltb_lt.
    + apply Qeq_bool_iff in Heq. congruence.
Qed.

Lemma filter_ext_bool {A} (f g : A -> bool) (l : list A) :
  (forall x, f x = g x) -> List.filter f l = List.filter g l.
Proof.
  intros H. induction l as [|x l IH]; [reflexivity|]. simpl. now rewrite H, IH.
Qed.

(** C6, as amended.  On a table that has the column [filter_col], holding
    numbers (NaN included, as in a float64 column):
    - [filter_df] with "<" returns, without logging or raising, the table
      with the same columns whose rows are exactly the rows, whole and in
      their order, that hold in that column a number strictly less than
      [value]; ">" and "==" do the same with "greater" and "equal";
    - the "<" and ">" results share no row and together are the rows that
      hold a number other than [value] (so for Funding and 0: the rows
      with a nonzero funding rate are split between the negative and the
      positive view; a NaN cell is in neither).
    And on any table, for any operator other than ">", "<" and "==",
    [filter_df] raises nothing, logs "Operator ... not implemented" as an
    error and returns Python's None, which is no table: calling a method
    on it, subscripting it or handing it to [output_df] raises, and
    [output_df] then writes nothing. *)
Theorem filter_df_correct :
  (forall (dataframe : DataFrame) (filter_col : string) (i : nat) (value : Q),
      index_of filter_col (columns dataframe) = Some i ->
      numeric_column dataframe i ->
      exists lt gt eq : DataFrame,
        filter_df dataframe filter_col "<" value = (Return (Some lt), []) /\
        filter_df dataframe filter_col ">" value = (Return (Some gt), []) /\
        filter_df dataframe filter_col "==" value = (Return (Some eq), []) /\
        (columns lt = columns dataframe /\
         columns gt = columns dataframe /\
         columns eq = columns dataframe) /\
        (rows lt = List.filter (fun row => below value (cell_at i row)) (rows dataframe) /\
         rows gt = List.filter (fun row => above value (cell_at i row)) (rows dataframe) /\
         rows eq = List.filter (fun row => equal_to value (cell_at i row)) (rows dataframe)) /\
        (forall row, In row (rows lt) <->
           In row (rows dataframe) /\ exists q, cell_at i row = Num q /\ (q < value)%Q) /\
        (forall row, In row (rows gt) <->
           In row (rows dataframe) /\ exists q, cell_at i row = Num q /\ (value < q)%Q) /\
        (forall row, In row (rows eq) <->
           In row (rows dataframe) /\ exists q, cell_at i row = Num q /\ (q == value)%Q) /\
        Permutation (rows lt ++ rows gt)
          (List.filter (fun row => other_than value (cell_at i row)) (rows dataframe)) /\
        (forall row, In row (rows lt) -> ~ In row (rows gt)))
  /\
  (forall (dataframe : DataFrame) (filter_col operator : string) (value : Q),
      operator <> ">" -> operator <> "<" -> operator <> "==" ->
      filter_df dataframe filter_col operator value =
        (Return None,
         [LogError (String.append "Operator "
                      (String.append operator " not implemented"))]))
  /\
  (method_of None =
     Raise (AttributeError "'NoneType' object has no attribute") /\
   subscript_of None =
     Raise (TypeError "'NoneType' object is not subscriptable") /\
   forall (serialize : string -> DataFrame -> string) (path to : string)
          (m : machine),
     to = "json" \/ to = "csv" \/ to = "parquet" ->
     output_df serialize None path to m =
       (Raise (AttributeError "'NoneType' object has no attribute"), m)).
Proof.
  split; [|split].
  - intros dataframe filter_col i value Hcol Hnum.
    eexists _, _, _.
    split; [apply (filter_df_lt dataframe filter_col i value Hcol Hnum)|].
    split; [apply (filter_df_gt dataframe filter_col i value Hcol Hnum)|].
    split; [apply (filter_df_eq dataframe filter_col i value Hcol Hnum)|].
    cbn [columns rows].
    split; [repeat split|]. split; [repeat split|].
    split; [|split; [|split; [|split]]].
    + intros row. rewrite List.filter_In, below_lt. reflexivity.
    + intros row. rewrite List.filter_In, above_gt. reflexivity.
    + intros row. rewrite List.filter_In, equal_to_eq. reflexivity.
    + rewrite (filter_split (fun row => below value (cell_at i row))
                 (fun row => above value (cell_at i row))).
      * erewrite filter_ext_bool; [reflexivity|].
        intros row. apply below_or_above.
      * intros row. apply below_above_disjoint.
    + intros row. rewrite !List.filter_In. intros [_ Hb] [_ Ha].
      apply below_above_disjoint in Hb. congruence.
  - intros dataframe filter_col operator value Hgt Hlt Heq.
    unfold filter_df.
    destruct (String.eqb_spec operator ">") as [->|_]; [congruence|].
    destruct (String.eqb_spec operator "<") as [->|_]; [congruence|].
    destruct (String.eqb_spec operator "==") as [->|_]; [congruence|].
    reflexivity.
  - split; [reflexivity|]. split; [reflexivity|].
    intros serialize path to m [->|[->| ->]]; reflexivity.
Qed.

Lemma filter_df_correct_witness :
  filter_df funding_table "Funding" "<" 0 =
    (Return (Some {| columns := ["Asset"; "1m 1x Volume (USDT)"; "Funding"];
                     rows := [ [Str "AAAUSDT"; Num 900; Num (-1 # 100)];
                               [Str "EEEUSDT"; Num 500; Num (-2 # 100)] ] |}), []) /\
  filter_df funding_table "Funding" ">" 0 =
    (Return (Some {| columns := ["Asset"; "1m 1x Volume (USDT)"; "Funding"];
                     rows := [ [Str "CCCUSDT"; Num 700; Num (3 # 100)] ] |}), []) /\
  filter_df funding_table "Funding" "!=" 0 =
    (Return None, [LogError "Operator != not implemented"]).
Proof.
  destruct filter_df_correct as (Hknown & Hunknown & _).
  destruct (Hknown funding_table "Funding" 2%nat 0%Q) as
    (lt & gt & eq & Hlt & Hgt & _ & _ & (Hrl & Hrg & _) & _).
  { reflexivity. }
  { unfold numeric_column, funding_table. simpl. repeat constructor. }
  split; [|split].
  - rewrite Hlt. destruct lt as [cl rl]. simpl in Hrl. subst rl.
    vm_compute in Hlt. injection Hlt as <-. reflexivity.
  - rewrite Hgt. destruct gt as [cg rg]. simpl in Hrg. subst rg.
    vm_compute in Hgt. injection Hgt as <-. reflexivity.
  - apply (Hunknown funding_table "Funding" "!=" 0%Q); discriminate.
Defined.

(** C6 as it was stated fails.  With the operator "!=" on the funding
    table the caller does not receive an empty result: it receives None,
    which is no table at all, empty or not, and the steps that
    [run_scraper_for_exchange] takes with a view (subscripting it for
    [reduce_df], handing it to [output_df]) raise on it. *)
Lemma filter_df_unknown_operator_is_no_empty_result :
  filter_df funding_table "Funding" "!=" 0 =
    (Return None, [LogError "Operator != not implemented"]) /\
  (forall empty : DataFrame,
     fst (filter_df funding_table "Funding" "!=" 0) <> Return (Some empty)) /\
  (negative ← subscript_of None;
   reduce_df negative ["Asset"; "1m 1x Volume (USDT)"; "Funding"]) =
    Raise (TypeError "'NoneType' object is not subscriptable") /\
  fst (output_df show_rows None "/var/www/api/data/negativefunding_binance.json"
         "json" (machine_with "binance" 100)) =
    Raise (AttributeError "'NoneType' object has no attribute").
Proof.
  split; [reflexivity|]. split; [|split; reflexivity].
  intros empty H. discriminate H.
Qed.

(** ** The funding cache *)

Section FundingFacts.

Variable get_funding_rate : string -> string -> nat -> pyresult Q.
Variable self : CombinedScraper.
Variable symbol : string.

(** A fresh entry is returned as it is and the world is left alone. *)
Lemma get_cached_funding_hit (now : Z) (w : world) (last_fetched : Z) (rate : Q) :
  funding_cache w !! symbol = Some (last_fetched, rate) ->
  now - last_fetched < FUNDING_CACHE_DURATION ->
  get_cached_funding get_funding_rate self symbol now w = (Return rate, w).
Proof.
  intros Hlook Hfresh. unfold get_cached_funding. rewrite Hlook.
  destruct (Z.ltb_spec (now - last_fetched) FUNDING_CACHE_DURATION); [reflexivity|lia].
Qed.

(** No entry, or a stale one: one request goes out and its answer, as a
    percentage, is stored under the instant taken at the start of the call. *)
Lemma get_cached_funding_miss (now : Z) (w : world) (r : Q) :
  absent_or_stale w symbol now ->
  get_funding_rate (exchange_name self) symbol (length (funding_requests w)) = Return r ->
  get_cached_funding get_funding_rate self symbol now w =
    (Return (r * 100)%Q,
     {| funding_cache := <[symbol := (now, (r * 100)%Q)]> (funding_cache w);
        funding_requests := funding_requests w ++ [(exchange_name self, symbol)] |}).
Proof.
  intros Hstale Hans. unfold get_cached_funding, absent_or_stale in *.
  destruct (funding_cache w !! symbol) as [[last_fetched rate]|].
  - destruct (Z.ltb_spec (now - last_fetched) FUNDING_CACHE_DURATION); [lia|].
    unfold fetch_funding. now rewrite Hans.
  - unfold fetch_funding. now rewrite Hans.
Qed.

End FundingFacts.

(** C5.  For every scraper and symbol:
    - a call that finds an entry with now - fetched_at < 4 hours returns the
      cached rate and leaves the world as it was: no funding request is sent;
    - a call that finds no entry, or one aged 4 hours or more, sends one
      funding request and, when it is answered, stores (now, rate) and
      returns that rate;
    - hence, from a cache without a fresh entry, a first query at t1, a
      second at t2 with t2 - t1 < 4 hours and a third at t3 with
      t3 - t1 >= 4 hours send one request for the first two queries together
      and a second request for the third. *)
Theorem funding_cached_for_ttl
    (get_funding_rate : string -> string -> nat -> pyresult Q)
    (self : CombinedScraper) (symbol : string) :
  (forall now w last_fetched rate,
      funding_cache w !! symbol = Some (last_fetched, rate) ->
      now - last_fetched < timedelta_hours 4 ->
      get_cached_funding get_funding_rate self symbol now w = (Return rate, w))
  /\
  (forall now w r,
      absent_or_stale w symbol now ->
      get_funding_rate (exchange_name self) symbol (length (funding_requests w)) = Return r ->
      get_cached_funding get_funding_rate self symbol now w =
        (Return (r * 100)%Q,
         {| funding_cache := <[symbol := (now, (r * 100)%Q)]> (funding_cache w);
            funding_requests := funding_requests w ++ [(exchange_name self, symbol)] |}))
  /\
  (forall t1 t2 t3 w r1 r3,
      absent_or_stale w symbol t1 ->
      t2 - t1 < timedelta_hours 4 ->
      timedelta_hours 4 <= t3 - t1 ->
      get_funding_rate (exchange_name self) symbol (length (funding_requests w)) = Return r1 ->
      get_funding_rate (exchange_name self) symbol (S (length (funding_requests w))) = Return r3 ->
      let first := get_cached_funding get_funding_rate self symbol t1 w in
      let second := get_cached_funding get_funding_rate self symbol t2 (snd first) in
      let third := get_cached_funding get_funding_rate self symbol t3 (snd second) in
      fst first = Return (r1 * 100)%Q /\
      fst second = Return (r1 * 100)%Q /\
      funding_requests (snd second) =
        funding_requests w ++ [(exchange_name self, symbol)] /\
      fst third = Return (r3 * 100)%Q /\
      funding_requests (snd third) =
        funding_requests w ++ [(exchange_name self, symbol); (exchange_name self, symbol)] /\
      funding_cache (snd third) !! symbol = Some (t3, (r3 * 100)%Q)).
Proof.
  split; [|split].
  - intros now w last_fetched rate. apply get_cached_funding_hit.
  - intros now w r. apply get_cached_funding_miss.
  - intros t1 t2 t3 w r1 r3 Hstale H12 H13 Hr1 Hr3 first second third.
    assert (Hfirst : first =
      (Return (r1 * 100)%Q,
       {| funding_cache := <[symbol := (t1, (r1 * 100)%Q)]> (funding_cache w);
          funding_requests := funding_requests w ++ [(exchange_name self, symbol)] |}))
      by (apply get_cached_funding_miss; assumption).
    assert (Hsecond : second = (Return (r1 * 100)%Q, snd first)).
    { subst second. rewrite Hfirst. cbn [snd].
      apply (get_cached_funding_hit _ _ _ _ _ t1); [|exact H12].
      cbn [funding_cache]. apply lookup_insert_eq. }
    assert (Hthird : third =
      (Return (r3 * 100)%Q,
       {| funding_cache := <[symbol := (t3, (r3 * 100)%Q)]> (funding_cache (snd second));
          funding_requests := funding_requests (snd second) ++ [(exchange_name self, symbol)] |})).
    { subst third. apply get_cached_funding_miss.
      - rewrite Hsecond, Hfirst. unfold absent_or_stale. cbn [snd funding_cache].
        rewrite lookup_insert_eq. exact H13.
      - rewrite Hsecond, Hfirst. cbn [snd funding_requests].
        rewrite length_app. cbn [length].
        now replace (length (funding_requests w) + 1)%nat
          with (S (length (funding_requests w))) by lia. }
    rewrite Hthird, Hsecond, Hfirst. cbn [fst snd funding_requests funding_cache].
    repeat split.
    + now rewrite <- app_assoc.
    + apply lookup_insert_eq.
Qed.

Lemma funding_cached_for_ttl_witness :
  let first := get_cached_funding steady_funding binance_scraper "BTCUSDT" 0 initial_world in
  let second := get_cached_funding steady_funding binance_scraper "BTCUSDT"
                  (timedelta_hours 4 - 1) (snd first) in
  let third := get_cached_funding steady_funding binance_scraper "BTCUSDT"
                 (timedelta_hours 4) (snd second) in
  fst second = Return ((1 # 10000) * 100)%Q /\
  funding_requests (snd second) = [("binance", "BTCUSDT")] /\
  funding_requests (snd third) = [("binance", "BTCUSDT"); ("binance", "BTCUSDT")].
Proof.
  destruct (funding_cached_for_ttl steady_funding binance_scraper "BTCUSDT")
    as (_ & _ & Hseq).
  destruct (Hseq 0 (timedelta_hours 4 - 1) (timedelta_hours 4) initial_world
              (1 # 10000)%Q (1 # 10000)%Q)
    as (_ & H2 & Hreq2 & _ & Hreq3 & _).
  - exact I.
  - lia.
  - unfold timedelta_hours. lia.
  - reflexivity.
  - reflexivity.
  - repeat split; assumption.
Defined.

(** C9.  The cache is one dict of the process, keyed by the symbol name
    only.  Let scraper [a] (say Binance's) answer a query for [symbol] at t1
    by fetching and storing a rate.  Then a query for the same name by any
    scraper [b] (say Bybit's) at t2, t2 - t1 < 4 hours, returns the rate [a]
    stored and changes nothing: no funding request is sent, so the number of
    requests ever sent to [b]'s own exchange for that symbol is what it was
    before the two queries when the exchanges differ. *)
Theorem funding_cache_shared_between_exchanges
    (get_funding_rate : string -> string -> nat -> pyresult Q)
    (a b : CombinedScraper) (symbol : string) (t1 t2 : Z) (w : world) (r : Q)
    (Hstale : absent_or_stale w symbol t1)
    (Hanswer : get_funding_rate (exchange_name a) symbol
                 (length (funding_requests w)) = Return r)
    (Hwithin : t2 - t1 < timedelta_hours 4) :
  let w1 := snd (get_cached_funding get_funding_rate a symbol t1 w) in
  funding_cache w1 !! symbol = Some (t1, (r * 100)%Q) /\
  get_cached_funding get_funding_rate b symbol t2 w1 = (Return (r * 100)%Q, w1) /\
  (exchange_name a <> exchange_name b ->
   requests_to (exchange_name b) symbol
     (snd (get_cached_funding get_funding_rate b symbol t2 w1)) =
   requests_to (exchange_name b) symbol w).
Proof.
  intros w1. subst w1.
  rewrite (get_cached_funding_miss _ _ _ _ _ _ Hstale Hanswer). cbn [snd].
  assert (Hlook :
    funding_cache
      {| funding_cache := <[symbol := (t1, (r * 100)%Q)]> (funding_cache w);
         funding_requests := funding_requests w ++ [(exchange_name a, symbol)] |}
      !! symbol = Some (t1, (r * 100)%Q))
    by (cbn [funding_cache]; apply lookup_insert_eq).
  split; [exact Hlook|].
  rewrite (get_cached_funding_hit _ _ _ _ _ _ _ Hlook Hwithin).
  split; [reflexivity|].
  intros Hne. cbn [snd]. unfold requests_to. cbn [funding_requests].
  rewrite List.filter_app, length_app. cbn [List.filter fst snd].
  destruct (String.eqb_spec (exchange_name a) (exchange_name b)) as [E|_];
    [contradiction|].
  simpl. lia.
Qed.

Lemma funding_cache_shared_between_exchanges_witness :
  let w1 := snd (get_cached_funding steady_funding binance_scraper "BTCUSDT" 0
                   initial_world) in
  get_cached_funding steady_funding bybit_scraper "BTCUSDT" 1000000 w1 =
    (Return ((1 # 10000) * 100)%Q, w1) /\
  requests_to "bybit" "BTCUSDT"
    (snd (get_cached_funding steady_funding bybit_scraper "BTCUSDT" 1000000 w1)) = 0%nat.
Proof.
  destruct (funding_cache_shared_between_exchanges steady_funding
              binance_scraper bybit_scraper "BTCUSDT" 0 1000000 initial_world
              (1 # 10000)%Q) as (_ & Hhit & Hreq).
  - exact I.
  - reflexivity.
  - unfold timedelta_hours. lia.
  - intros w1. split; [exact Hhit|].
    exact (Hreq ltac:(discriminate)).
Defined.

(** ** get_spread *)

Lemma Qmax2_cases (a b : Q) :
  (Qmax2 a b = a \/ Qmax2 a b = b) /\ (a <= Qmax2 a b)%Q /\ (b <= Qmax2 a b)%Q.
Proof.
  unfold Qmax2. destruct (Qle_bool a b) eqn:E.
  - apply Qle_bool_iff in E. repeat split; [now right|exact E|apply Qle_refl].
  - assert (b < a)%Q.
    { apply Qnot_le_lt. intros H. apply Qle_bool_iff in H. congruence. }
    repeat split; [now left|apply Qle_refl|now apply Qlt_le_weak].
Qed.

Lemma Qmin2_cases (a b : Q) :
  (Qmin2 a b = a \/ Qmin2 a b = b) /\ (Qmin2 a b <= a)%Q /\ (Qmin2 a b <= b)%Q.
Proof.
  unfold Qmin2. destruct (Qle_bool a b) eqn:E.
  - apply Qle_bool_iff in E. repeat split; [now left|apply Qle_refl|exact E].
  - assert (b < a)%Q.
    { apply Qnot_le_lt. intros H. apply Qle_bool_iff in H. congruence. }
    repeat split; [now right|now apply Qlt_le_weak|apply Qle_refl].
Qed.

Lemma series_max_is_max (xs : list Q) : forall x, is_max (series_max x xs) (x :: xs).
Proof.
  unfold series_max.
  induction xs as [|y ys IH]; intros x; cbn [fold_left].
  - split; [now left|]. intros z [<-|[]]. apply Qle_refl.
  - destruct (IH (Qmax2 x y)) as [Hin Hub].
    destruct (Qmax2_cases x y) as (Hcase & Hx & Hy).
    split.
    + destruct Hin as [Hin|Hin]; [|now right; right].
      rewrite <- Hin. destruct Hcase as [->| ->]; [now left|now right; left].
    + intros z [<-|[<-|Hz]].
      * eapply Qle_trans; [exact Hx|]. apply Hub. now left.
      * eapply Qle_trans; [exact Hy|]. apply Hub. now left.
      * apply Hub. now right.
Qed.

Lemma series_min_is_min (xs : list Q) : forall x, is_min (series_min x xs) (x :: xs).
Proof.
  unfold series_min.
  induction xs as [|y ys IH]; intros x; cbn [fold_left].
  - split; [now left|]. intros z [<-|[]]. apply Qle_refl.
  - destruct (IH (Qmin2 x y)) as [Hin Hlb].
    destruct (Qmin2_cases x y) as (Hcase & Hx & Hy).
    split.
    + destruct Hin as [Hin|Hin]; [|now right; right].
      rewrite <- Hin. destruct Hcase as [->| ->]; [now left|now right; left].
    + intros z [<-|[<-|Hz]].
      * eapply Qle_trans; [|exact Hx]. apply Hlb. now left.
      * eapply Qle_trans; [|exact Hy]. apply Hlb. now left.
      * apply Hlb. now right.
Qed.

(** Whether a float passes the guard [highest_high > 0] is read off its
    constructor. *)
Lemma positive_float (x : spec_float) :
  SFltb (S754_zero false) x = true <->
  x = S754_infinity false \/ exists m e, x = S754_finite false m e.
Proof.
  destruct x as [s|[|]| |[|] m e]; cbn; split;
    try discriminate; try tauto; try (intros [H|(m' & e' & H)]; discriminate);
    eauto.
Qed.

Lemma round_half_even_nonneg (y : Q) : (0 <= y)%Q -> 0 <= round_half_even y.
Proof.
  intros Hy. unfold round_half_even.
  assert (Hf : 0 <= Qfloor y).
  { change 0 with (Qfloor 0). now apply Qfloor_resp_le. }
  destruct (y - inject_Z (Qfloor y) ?= 1 # 2)%Q; [destruct (Z.even _)| |]; lia.
Qed.

Lemma Qpow2_pos (e : Z) : (0 < Qpow2 e)%Q.
Proof.
  unfold Qpow2. destruct (Z.leb_spec 0 e).
  - change 0%Q with (inject_Z 0). rewrite <- Zlt_Qlt. now apply Z.pow_pos_nonneg.
  - apply Qinv_lt_0_compat.
    change 0%Q with (inject_Z 0). rewrite <- Zlt_Qlt. apply Z.pow_pos_nonneg; lia.
Qed.

(** Rounding to a float keeps the sign. *)
Lemma binary_round_negative (m : positive) (e : Z) :
  SFltb (S754_zero false) (binary_round 53 1024 true m e) = false.
Proof.
  unfold binary_round, binary_round_aux.
  destruct (shl_align _ _ _) as [mz ez].
  destruct (shr_fexp _ _ _ _ _) as [mrs' e'].
  destruct (shr_fexp _ _ _ _ _) as [mrs'' e''].
  destruct (shr_m mrs''); [reflexivity| |reflexivity].
  destruct (e'' <=? 1024 - 53); reflexivity.
Qed.

Lemma binary64_nonpositive (q : Q) :
  (q <= 0)%Q -> SFltb (S754_zero false) (binary64 q) = false.
Proof.
  intros Hq. unfold binary64.
  destruct (Qnum q) as [|n|n] eqn:Hn; [reflexivity| |].
  - exfalso. unfold Qle in Hq. cbn in Hq. rewrite Hn in Hq. lia.
  - change (Z.neg n <? 0) with true. cbv iota.
    pose proof (round_half_even_nonneg
                  (Qabs q / Qpow2 (Z.max (Qlog2 (Qabs q)) (-1022) - 52))) as Hm.
    destruct (round_half_even _) as [|m|m].
    + reflexivity.
    + apply binary_round_negative.
    + exfalso. assert (0 <= Z.neg m); [|lia]. apply Hm.
      apply Qle_shift_div_l; [apply Qpow2_pos|].
      rewrite Qmult_0_l. apply Qabs_nonneg.
Qed.



(** ** get_mfi *)

Lemma slice_from_neg_zero {A} (l : list A) : slice_from (- 0) l = l.
Proof.
  unfold slice_from. change (- 0) with 0. cbn [Z.ltb Z.compare].
  replace (Z.to_nat (Z.min 0 (Z.of_nat (length l)))) with 0%nat by lia.
  reflexivity.
Qed.

Lemma slice_from_most_recent {A} (lookback : Z) (l : list A) :
  0 < lookback ->
  slice_from (- lookback) l = most_recent (Z.to_nat lookback) l.
Proof.
  intros Hpos. unfold slice_from, most_recent.
  destruct (Z.ltb_spec (- lookback) 0) as [_|H]; [|lia].
  f_equal. lia.
Qed.

Lemma first_signal_quiet (conds : list (bool * bool)) :
  Forall quiet conds -> first_signal conds = "neutral".
Proof.
  induction 1 as [|c conds Hc _ IH]; [reflexivity|].
  unfold quiet in Hc. subst c. exact IH.
Qed.

Lemma first_signal_skip_quiet (newer rest : list (bool * bool)) :
  Forall quiet newer -> first_signal (newer ++ rest) = first_signal rest.
Proof.
  induction 1 as [|c newer Hc _ IH]; [reflexivity|].
  unfold quiet in Hc. subst c. exact IH.
Qed.

(** Scanning a window backwards: the bars after the deciding bar are
    quiet, the bars before it are never looked at. *)
Lemma first_signal_rev_decided (older newer : list (bool * bool)) (b : bool * bool) :
  Forall quiet newer ->
  first_signal (rev (older ++ b :: newer)) =
    if fst b then "long" else if snd b then "short" else first_signal (rev older).
Proof.
  intros Hq. rewrite rev_app_distr. cbn [rev]. rewrite <- app_assoc.
  rewrite first_signal_skip_quiet by (apply Forall_rev; exact Hq).
  destruct b as [buy sell]. reflexivity.
Qed.

(** X16.  When the klines are returned and the lookback is at least one
    bar, [get_mfi] reads its verdict off the [lookback] most recent bars,
    newest first: "neutral" when none of them meets the buy or the sell
    condition, otherwise "long" or "short" by the newest bar that meets
    one, older bars having no say. *)
Lemma get_mfi_positive_lookback
    (get_futures_kline : string -> string -> Z -> pyresult (list Candle))
    (money_flow_index : list Candle -> nat -> cell) (rsi : list Q -> nat -> cell)
    (symbol interval : string) (limit lookback : Z) (bars : list Candle) :
  get_futures_kline symbol interval limit = Return bars ->
  0 < lookback ->
  let window :=
    most_recent (Z.to_nat lookback) (conditions money_flow_index rsi bars) in
  (Forall quiet window ->
   get_mfi get_futures_kline money_flow_index rsi symbol interval limit lookback =
     Return "neutral") /\
  (forall older newer b,
      window = older ++ b :: newer -> Forall quiet newer -> b <> (false, false) ->
      get_mfi get_futures_kline money_flow_index rsi symbol interval limit lookback =
        Return (if fst b then "long" else "short")).
Proof.
  intros Hbars Hpos window. unfold get_mfi. rewrite Hbars. cbn.
  rewrite slice_from_most_recent by exact Hpos. fold window.
  split.
  - intros Hq. rewrite first_signal_quiet; [reflexivity|].
    apply Forall_rev. exact Hq.
  - intros older newer b -> Hq Hb.
    rewrite first_signal_rev_decided by exact Hq.
    destruct b as [[|] [|]]; try reflexivity. congruence.
Qed.


(** ** sort_values *)

Lemma insert_row_perm by_ r sorted : Permutation (insert_row by_ r sorted) (r :: sorted).
Proof.
  induction sorted as [|s sorted IH]; [reflexivity|].
  simpl. destruct (rows_descending by_ r s); try reflexivity.
  - rewrite IH. apply perm_swap.
  - rewrite IH. apply perm_swap.
Qed.

Lemma sort_rows_perm by_ rs : Permutation (sort_rows by_ rs) rs.
Proof.
  unfold sort_rows.
  enough (H : forall acc, Permutation (fold_left (fun sorted r => insert_row by_ r sorted) rs acc)
                            (acc ++ rs)) by apply (H []).
  induction rs as [|r rs IH]; intros acc; simpl.
  - now rewrite app_nil_r.
  - rewrite IH, insert_row_perm. apply Permutation_middle.
Qed.

Lemma existsb_false_Forall {A} (f : A -> bool) (l : list A) :
  Forall (fun x => f x = false) l -> existsb f l = false.
Proof.
  induction 1 as [|x l Hx _ IH]; [reflexivity|]. simpl. now rewrite Hx, IH.
Qed.

Lemma numeric_not_str c : numeric_cell c -> is_str c = false.
Proof. destruct c; simpl; [reflexivity|reflexivity|intros []]. Qed.

(** ** analyse_all_symbols *)

Section PoolFacts.

Variable analyse_symbol : string -> nat -> pyresult record.
Variable retry_limit : Z.

Lemma retry_loop_always_fails (symbol : string) :
  always_fails analyse_symbol symbol ->
  forall (fuel c : nat) (tr : list event),
    (Z.to_nat (retry_limit - Z.of_nat c) <= fuel)%nat ->
    exists tr',
      retry_loop analyse_symbol fuel symbol retry_limit (Z.of_nat c) tr =
        Some (Raise (AnalysisFailed symbol retry_limit), tr').
Proof.
  intros Hfail. induction fuel as [|fuel IH]; intros c tr Hfuel; simpl.
  - destruct (Z.ltb_spec (Z.of_nat c) retry_limit); [lia|]. eauto.
  - destruct (Z.ltb_spec (Z.of_nat c) retry_limit); [|eauto].
    destruct (Hfail (Z.to_nat (Z.of_nat c))) as [e ->].
    replace (Z.of_nat c + 1) with (Z.of_nat (S c)) by lia.
    apply IH. lia.
Qed.

Lemma submit_always_fails (symbol : string) :
  always_fails analyse_symbol symbol ->
  submit analyse_symbol retry_limit symbol =
    Some (symbol, Raise (AnalysisFailed symbol retry_limit)).
Proof.
  intros Hfail. unfold submit, retry_analyse_symbol.
  destruct (retry_loop_always_fails symbol Hfail (Z.to_nat retry_limit) 0 [])
    as [tr' Heq]; [simpl; lia|].
  change (Z.of_nat 0) with 0 in Heq. now rewrite Heq.
Qed.

Lemma submit_succeeds (symbol : string) (values : record) :
  succeeds_within analyse_symbol retry_limit symbol values ->
  submit analyse_symbol retry_limit symbol = Some (symbol, Return values).
Proof.
  intros (k & errs & Hk & Hlim & Hfail & Hok).
  unfold submit, retry_analyse_symbol. change 0 with (Z.of_nat 0).
  rewrite (retry_loop_succeeds analyse_symbol symbol retry_limit errs values (k - 1));
    try reflexivity; try lia.
  - intros i Hi. apply Hfail. lia.
  - exact Hok.
Qed.

Lemma collect_spec (completed : list (string * pyresult record)) :
  forall data log,
    collect completed data log =
      (data ++ omap returned completed, log ++ omap raised completed).
Proof.
  induction completed as [|[symbol [values|e]] completed IH]; intros data log; simpl.
  - now rewrite !app_nil_r.
  - rewrite IH. now rewrite <- app_assoc.
  - rewrite IH. now rewrite <- app_assoc.
Qed.

End PoolFacts.

Lemma omap_lookup_seq {A} (l : list A) : forall pre : list A,
  omap (fun i => (pre ++ l) !! i) (seq (length pre) (length l)) = l.
Proof.
  induction l as [|x l IH]; intros pre; [reflexivity|].
  cbn [length seq]. unfold omap. cbn [list_omap].
  rewrite list_lookup_middle by reflexivity.
  f_equal.
  specialize (IH (pre ++ [x])).
  rewrite <- app_assoc, length_app in IH. cbn in IH.
  replace (length pre + 1)%nat with (S (length pre)) in IH by lia.
  exact IH.
Qed.

Lemma omap_returned_succeeded (ss : list string) (recs : list record)
    (fs : list (string * pyresult record)) :
  Forall2 (fun s f => exists values, f = (s, Return values)) ss fs ->
  Forall2 (fun f values => snd f = Return values) fs recs ->
  omap returned fs = recs /\ omap raised fs = [].
Proof.
  intros H1 H2. revert ss H1.
  induction H2 as [|[s res] values fs recs Hf _ IH]; intros ss H1.
  - split; reflexivity.
  - inversion H1 as [|s' f' ss' fs' _ Hrest]; subst.
    simpl in Hf. subst res.
    destruct (IH ss' Hrest) as [E1 E2]. unfold omap in *.
    cbn [list_omap returned raised]. rewrite E1, E2. split; reflexivity.
Qed.

Lemma sort_keys_indices :
  indices_of analysis_columns ["1m 1x Volume (USDT)"; "5m Spread"] =
    Return [3%nat; 8%nat].
Proof. reflexivity. Qed.

(** Sorting the analysis table of sortable records raises nothing and
    permutes the rows. *)
Lemma sort_analysis_table (data : list record) :
  Forall sortable data ->
  exists df,
    sort_values (DataFrame_of_records data analysis_columns)
      ["1m 1x Volume (USDT)"; "5m Spread"] = Return df /\
    columns df = analysis_columns /\
    Permutation (rows df) (rows (DataFrame_of_records data analysis_columns)).
Proof.
  intros Hsortable. unfold sort_values.
  change (columns (DataFrame_of_records data analysis_columns)) with analysis_columns.
  rewrite sort_keys_indices.
  change (Return [3%nat; 8%nat] ≫= ?k) with (k [3%nat; 8%nat]). cbv beta.
  assert (Hnot_mixed :
    existsb (mixed_column (rows (DataFrame_of_records data analysis_columns)))
      [3%nat; 8%nat] = false).
  { cbn [existsb]. unfold mixed_column.
    assert (H3 : existsb (fun r => is_str (cell_at 3 r))
                   (rows (DataFrame_of_records data analysis_columns)) = false).
    { apply existsb_false_Forall. cbn [rows DataFrame_of_records].
      apply Forall_map. eapply Forall_impl; [exact Hsortable|].
      intros d [Hv _]. apply numeric_not_str. exact Hv. }
    assert (H8 : existsb (fun r => is_str (cell_at 8 r))
                   (rows (DataFrame_of_records data analysis_columns)) = false).
    { apply existsb_false_Forall. cbn [rows DataFrame_of_records].
      apply Forall_map. eapply Forall_impl; [exact Hsortable|].
      intros d [_ Hs]. apply numeric_not_str. exact Hs. }
    rewrite H3, H8. now rewrite !andb_false_r. }
  rewrite Hnot_mixed.
  eexists. split; [reflexivity|]. split; [reflexivity|].
  cbn [rows]. apply sort_rows_perm.
Qed.

Lemma submit_all_succeed (analyse_symbol : string -> nat -> pyresult record)
    (retry_limit : Z) (ss : list string) (recs : list record) :
  Forall2 (fun s values => succeeds_within analyse_symbol retry_limit s values /\
                           sortable values) ss recs ->
  exists fs,
    Forall2 (fun s f => submit analyse_symbol retry_limit s = Some f) ss fs /\
    omap returned fs = recs /\ omap raised fs = [].
Proof.
  induction 1 as [|s values ss recs [Hs _] _ (fs & Hfs & Hret & Hraised)].
  - exists []. repeat split. constructor.
  - exists ((s, Return values) :: fs). split; [|split].
    + constructor; [now apply submit_succeeds|exact Hfs].
    + unfold omap in *. cbn [list_omap returned]. now rewrite Hret.
    + unfold omap in *. cbn [list_omap raised]. exact Hraised.
Qed.

(** C4.  Let the universe be [before ++ bad :: after] (N symbols), let every
    attempt on [bad] raise, and let each other symbol's analysis return,
    within the retry limit, a record whose sort keys are numbers.  Then for
    any pool width of at least one worker and any order in which the N tasks
    complete, [analyse_all_symbols] returns a table (it raises nothing):
    its only log line is the one for [bad], it has exactly N - 1 rows, and
    these are the rows of the N - 1 records the sibling tasks returned. *)
Theorem one_failing_symbol_is_dropped
    (analyse_symbol : string -> nat -> pyresult record)
    (self : CombinedScraper) (max_workers retry_limit : Z)
    (completion : list nat)
    (before after : list string) (bad : string) (recs : list record)
    (Hworkers : 0 < max_workers)
    (Huniverse : symbols self = before ++ bad :: after)
    (Hbad : always_fails analyse_symbol bad)
    (Hothers : Forall2 (fun s values =>
                          succeeds_within analyse_symbol retry_limit s values /\
                          sortable values)
                 (before ++ after) recs)
    (Hcompletion : Permutation completion (seq 0 (length (symbols self)))) :
  exists df : DataFrame,
    analyse_all_symbols analyse_symbol self max_workers retry_limit completion =
      Some (Return df, [LogTaskError bad (AnalysisFailed bad retry_limit)]) /\
    columns df = analysis_columns /\
    length (rows df) = (length (symbols self) - 1)%nat /\
    Permutation (rows df) (rows (DataFrame_of_records recs analysis_columns)).
Proof.
  apply Forall2_app_inv_l in Hothers as (recs_b & recs_a & Hb & Ha & ->).
  destruct (submit_all_succeed _ _ _ _ Hb) as (fb & Hfb & Hret_b & Hraised_b).
  destruct (submit_all_succeed _ _ _ _ Ha) as (fa & Hfa & Hret_a & Hraised_a).
  set (failed := (bad, Raise (AnalysisFailed bad retry_limit))
                 : string * pyresult record).
  set (future_data := fb ++ failed :: fa).
  assert (Hsubmitted :
    mapM (submit analyse_symbol retry_limit) (symbols self) = Some future_data).
  { apply mapM_Some_2. rewrite Huniverse. apply Forall2_app; [exact Hfb|].
    constructor; [now apply submit_always_fails|exact Hfa]. }
  assert (Hlen : length future_data = length (symbols self)).
  { apply mapM_Some_1, Forall2_length in Hsubmitted. congruence. }
  assert (Hcompleted :
    Permutation (omap (fun i => future_data !! i) completion) future_data).
  { rewrite Hcompletion, <- Hlen.
    pose proof (omap_lookup_seq future_data []) as E. cbn [app length] in E.
    now rewrite E. }
  assert (Hreturned : omap returned future_data = recs_b ++ recs_a).
  { unfold future_data. rewrite omap_app. unfold omap at 2. cbn [list_omap returned failed].
    fold (omap returned fa). now rewrite Hret_b, Hret_a. }
  assert (Hraised : omap raised future_data =
                    [LogTaskError bad (AnalysisFailed bad retry_limit)]).
  { unfold future_data. rewrite omap_app. unfold omap at 2. cbn [list_omap raised failed].
    fold (omap raised fa). now rewrite Hraised_b, Hraised_a. }
  set (data := omap returned (omap (fun i => future_data !! i) completion)).
  assert (Hdata : Permutation data (recs_b ++ recs_a)).
  { unfold data. now rewrite Hcompleted, Hreturned. }
  assert (Hlog : omap raised (omap (fun i => future_data !! i) completion) =
                 [LogTaskError bad (AnalysisFailed bad retry_limit)]).
  { apply Permutation_singleton_r. now rewrite Hcompleted, Hraised. }
  assert (Hsortable : Forall sortable data).
  { rewrite Hdata. apply Forall_app. split.
    - clear -Hb. induction Hb as [|? ? ? ? [_ ?]]; constructor; assumption.
    - clear -Ha. induction Ha as [|? ? ? ? [_ ?]]; constructor; assumption. }
  destruct (sort_analysis_table data Hsortable) as (df & Hsort & Hcols & Hrows).
  exists df. split; [|split; [exact Hcols|split]].
  - unfold analyse_all_symbols.
    destruct (Z.leb_spec max_workers 0) as [Hle|_]; [lia|].
    rewrite Hsubmitted. cbn [mbind option_bind].
    rewrite collect_spec, Hlog. cbn [app]. fold data.
    now rewrite Hsort.
  - rewrite (Permutation_length Hrows). cbn [rows DataFrame_of_records].
    rewrite length_map, (Permutation_length Hdata).
    apply Forall2_length in Hb, Ha.
    rewrite Huniverse, !length_app. cbn [length]. lia.
  - rewrite Hrows. cbn [rows DataFrame_of_records].
    apply Permutation_map. exact Hdata.
Qed.

Lemma one_failing_symbol_is_dropped_witness :
  exists df : DataFrame,
    analyse_all_symbols one_delisted three_symbols 20 5 [2; 0; 1]%nat =
      Some (Return df, [LogTaskError "BBBUSDT" (AnalysisFailed "BBBUSDT" 5)]) /\
    columns df = analysis_columns /\
    length (rows df) = 2%nat /\
    Permutation (rows df)
      (rows (DataFrame_of_records
               [analysis_of 100 (1 # 2) "AAAUSDT"; analysis_of 300 (1 # 4) "CCCUSDT"]
               analysis_columns)).
Proof.
  apply (one_failing_symbol_is_dropped one_delisted three_symbols 20 5
           [2; 0; 1]%nat ["AAAUSDT"] ["CCCUSDT"] "BBBUSDT").
  - lia.
  - reflexivity.
  - intros i. eexists. reflexivity.
  - constructor; [|constructor; [|constructor]].
    + split; [|split; exact I].
      exists 1%nat, (fun _ => ExchangeError "none").
      split; [lia|]. split; [simpl; lia|]. split; [intros i Hi; lia|reflexivity].
    + split; [|split; exact I].
      exists 1%nat, (fun _ => ExchangeError "none").
      split; [lia|]. split; [simpl; lia|]. split; [intros i Hi; lia|reflexivity].
  - simpl. eapply perm_trans; [apply perm_swap|].
    apply perm_skip. apply perm_swap.
Defined.

Example three_symbols_table :
  analyse_all_symbols one_delisted three_symbols 20 5 [2; 0; 1]%nat =
    Some (Return
            (DataFrame_of_records
               [analysis_of 300 (1 # 4) "CCCUSDT"; analysis_of 100 (1 # 2) "AAAUSDT"]
               analysis_columns),
          [LogTaskError "BBBUSDT" (AnalysisFailed "BBBUSDT" 5)]).
Proof. vm_compute. reflexivity. Qed.

(** ** The merge of two exchanges' tables *)

(** C1 on the merge example.  With A as [data_binance] and B as
    [data_bybit] the merged table has one row per symbol and the volumes
    are summed (AAAUSDT 150, BBBUSDT 20), AAAUSDT's other fields are A's;
    but BBBUSDT, which only B lists, keeps none of B's other fields: every
    one of them is NaN in the merged row (B has a price of 2, the merged
    row has NaN).  With the roles exchanged (B as [data_binance]), BBBUSDT
    keeps B's fields, but AAAUSDT's other fields are B's, not A's (price
    11, not 10).  Whichever side is called A, "A's value when A contains the
    symbol and B's value otherwise" fails on a symbol of this example. *)
Theorem merge_example_loses_one_side :
  (exists merged,
      combined_data exchange_A exchange_B = Return merged /\
      count_rows merged "AAAUSDT" = 1%nat /\
      count_rows merged "BBBUSDT" = 1%nat /\
      value_at merged "AAAUSDT" "5m 1x Volume (USDT)" = Some (Num 150) /\
      value_at merged "BBBUSDT" "5m 1x Volume (USDT)" = Some (Num 20) /\
      Forall (fun col => value_at merged "AAAUSDT" col =
                         value_at exchange_A "AAAUSDT" col) other_columns /\
      value_at exchange_B "BBBUSDT" "Price" = Some (Num 2) /\
      Forall (fun col => value_at merged "BBBUSDT" col = Some NaN) other_columns)
  /\
  (exists merged,
      combined_data exchange_B exchange_A = Return merged /\
      value_at merged "AAAUSDT" "5m 1x Volume (USDT)" = Some (Num 150) /\
      value_at merged "BBBUSDT" "5m 1x Volume (USDT)" = Some (Num 20) /\
      Forall (fun col => value_at merged "BBBUSDT" col =
                         value_at exchange_B "BBBUSDT" col) other_columns /\
      value_at exchange_A "AAAUSDT" "Price" = Some (Num 10) /\
      value_at merged "AAAUSDT" "Price" = Some (Num 11) /\
      Forall (fun col => value_at merged "AAAUSDT" col =
                         value_at exchange_B "AAAUSDT" col) other_columns).
Proof.
  split.
  - eexists. split; [vm_compute; reflexivity|].
    repeat split; try (vm_compute; reflexivity).
    + vm_compute. repeat constructor.
    + vm_compute. repeat constructor.
  - eexists. split; [vm_compute; reflexivity|].
    repeat split; try (vm_compute; reflexivity).
    + vm_compute. repeat constructor.
    + vm_compute. repeat constructor.
Qed.

(** ** Publication of the artifacts *)

(** C2 on one cycle of each exchange.  The directory holds the previous
    cycle's artifacts ("PREVIOUS;"), the table has three symbols, and
    [left_at exchange n path] is the content of [path] when the disk has
    carried out n elementary operations of the cycle.  The funding views
    and the volume map (and, for Bybit, the legacy copy of the rotator
    symbols) are opened at their destination and written in place: there
    are moments at which the destination is empty or holds a strict prefix
    of the new serialization, neither the previous nor the new snapshot,
    and a failure at such a moment leaves it so.  The primary table of the
    same cycle goes through a temporary file and a rename and is seen
    either old or new. *)
Theorem direct_writes_expose_partial_files :
  (* negative-funding view *)
  (left_at "binance" 62 "/var/www/api/data/negativefunding_binance.json"
     = Some "PREVIOUS;" /\
   left_at "binance" 63 "/var/www/api/data/negativefunding_binance.json"
     = Some "" /\
   left_at "binance" 68 "/var/www/api/data/negativefunding_binance.json"
     = Some "AAAUS" /\
   left_at "binance" 200 "/var/www/api/data/negativefunding_binance.json"
     = Some "AAAUSDT;CCCUSDT;") /\
  (* positive-funding view *)
  (left_at "binance" 79 "/var/www/api/data/positivefunding_binance.json"
     = Some "PREVIOUS;" /\
   left_at "binance" 84 "/var/www/api/data/positivefunding_binance.json"
     = Some "BBBU" /\
   left_at "binance" 200 "/var/www/api/data/positivefunding_binance.json"
     = Some "BBBUSDT;") /\
  (* historical-volume map *)
  (left_at "binance" 88 "/var/www/api/data/total_historical_volume_binance.json"
     = Some "PREVIOUS;" /\
   left_at "binance" 95 "/var/www/api/data/total_historical_volume_binance.json"
     = Some "AAAUSD" /\
   left_at "binance" 200 "/var/www/api/data/total_historical_volume_binance.json"
     = Some "AAAUSDT;BBBUSDT;CCCUSDT;") /\
  (* legacy-named copy of the rotator symbols, written for Bybit *)
  (left_at "bybit" 88 "/var/www/api/data/rotatorsymbols.json"
     = Some "PREVIOUS;" /\
   left_at "bybit" 94 "/var/www/api/data/rotatorsymbols.json"
     = Some "AAAUS" /\
   left_at "bybit" 200 "/var/www/api/data/rotatorsymbols.json"
     = Some "AAAUSDT;BBBUSDT;") /\
  (* none of the four has a temporary file *)
  (left_at "binance" 68 "/var/www/api/data/negativefunding_binance_temp.json" = None /\
   left_at "binance" 84 "/var/www/api/data/positivefunding_binance_temp.json" = None /\
   left_at "binance" 95 "/var/www/api/data/total_historical_volume_binance_temp.json" = None /\
   left_at "bybit" 94 "/var/www/api/data/rotatorsymbols_temp.json" = None) /\
  (* the primary table, at every moment of the cycle *)
  Forall (fun n =>
            left_at "binance" n "/var/www/api/data/quantdatav2_binance.json"
              = Some "PREVIOUS;" \/
            left_at "binance" n "/var/www/api/data/quantdatav2_binance.json"
              = Some "AAAUSDT;BBBUSDT;CCCUSDT;")
         (seq 0 120).
Proof.
  repeat split; try (vm_compute; reflexivity).
  apply Forall_forall. intros n Hn.
  apply elem_of_seq in Hn.
  assert (Hcheck :
    forallb (fun n =>
               match left_at "binance" n "/var/www/api/data/quantdatav2_binance.json" with
               | Some c => String.eqb c "PREVIOUS;" || String.eqb c "AAAUSDT;BBBUSDT;CCCUSDT;"
               | None => false
               end) (List.seq 0 120) = true) by (vm_compute; reflexivity).
  rewrite forallb_forall in Hcheck.
  specialize (Hcheck n (proj2 (in_seq _ _ _) Hn)). cbv beta in Hcheck.
  destruct (left_at "binance" n "/var/www/api/data/quantdatav2_binance.json") as [c|];
    [|discriminate].
  apply orb_true_iff in Hcheck as [H|H]; apply String.eqb_eq in H; subst; auto.
Qed.

Lemma append_inj_l (s a b : string) :
  String.append s a = String.append s b -> a = b.
Proof.
  induction s as [|c s IH]; simpl; intros H; [exact H|].
  injection H as H. exact (IH H).
Qed.

(** Two paths differ: strip what they share, then compare characters. *)
Ltac path_neq :=
  let H := fresh "H" in
  intros H; unfold data_dir in H;
  repeat (apply append_inj_l in H);
  cbn in H; discriminate H.

Section PublicationFacts.

Variable serialize : string -> DataFrame -> string.
Variable json_dump : volume_map -> string.

Lemma keeps_ret {A} (Q : machine -> Prop) (a : A) : keeps Q (mret a : io A).
Proof. intros m HQ. exact HQ. Qed.

Lemma keeps_lift {A} (Q : machine -> Prop) (r : pyresult A) : keeps Q (lift r).
Proof. intros m HQ. exact HQ. Qed.

Lemma keeps_bind {A B} (Q : machine -> Prop) (c : io A) (k : A -> io B) :
  keeps Q c -> (forall a, keeps Q (k a)) -> keeps Q (c ≫= k).
Proof.
  intros Hc Hk m HQ. specialize (Hc m HQ).
  unfold mbind, io_bind. destruct (c m) as [[a|e] m1]; cbn [snd] in *.
  - apply Hk. exact Hc.
  - exact Hc.
Qed.

Lemma keeps_log_lines p S lines : keeps (holds_at p S) (log_lines lines).
Proof. intros m HQ. exact HQ. Qed.

Lemma keeps_filter_df_logged p S dataframe filter_col operator value :
  keeps (holds_at p S) (filter_df_logged dataframe filter_col operator value).
Proof.
  intros m HQ. unfold filter_df_logged.
  destruct (filter_df dataframe filter_col operator value) as [res lines]. exact HQ.
Qed.

Lemma keeps_write_file p S path content :
  path <> p -> keeps (holds_at p S) (write_file path content).
Proof.
  intros Hne m HQ. unfold write_file, holds_at in *.
  destruct (budget m) as [|b]; [exact HQ|].
  destruct (b <? String.length content)%nat; cbn [snd files];
    rewrite lookup_insert_ne by exact Hne; exact HQ.
Qed.

Lemma keeps_rename p S src dst :
  src <> p -> dst <> p -> keeps (holds_at p S) (rename src dst).
Proof.
  intros Hsrc Hdst m HQ. unfold rename, holds_at in *.
  destruct (budget m) as [|b]; [exact HQ|].
  destruct (files m !! src) as [content|]; cbn [snd files]; [|exact HQ].
  rewrite lookup_insert_ne by exact Hdst.
  rewrite lookup_delete_ne by exact Hsrc. exact HQ.
Qed.

Lemma keeps_output_df p S dataframe path to :
  path <> p -> keeps (holds_at p S) (output_df serialize dataframe path to).
Proof.
  intros Hne. unfold output_df.
  destruct (String.eqb to "json" || String.eqb to "csv" || String.eqb to "parquet").
  - destruct dataframe; [now apply keeps_write_file|apply keeps_lift].
  - destruct (String.eqb to "dict"); [apply keeps_lift|apply keeps_log_lines].
Qed.

(** The publish primitive: the table is written to [temp], then [temp] is
    renamed over [p].  Whatever the budget, a reader of [p] finds what was
    there or the whole new serialization. *)
Lemma keeps_temp_then_rename {B} p temp df (S : option string -> Prop)
    (rest : io B) :
  temp <> p ->
  S (Some (serialize "json" df)) ->
  keeps (holds_at p S) rest ->
  keeps (holds_at p S)
    (output_df serialize (Some df) temp "json" ≫= fun _ =>
     rename temp p ≫= fun _ => rest).
Proof.
  intros Hne Hnew Hrest m HQ.
  unfold mbind, io_bind, output_df. cbn [String.eqb Ascii.eqb Bool.eqb orb].
  unfold write_file at 1.
  destruct (budget m) as [|b]; [exact HQ|].
  destruct (b <? String.length (serialize "json" df))%nat.
  - cbn [snd]. unfold holds_at in *. cbn [files].
    rewrite lookup_insert_ne by exact Hne. exact HQ.
  - unfold rename. cbn [budget files].
    destruct (b - String.length (serialize "json" df))%nat as [|b'].
    + cbn [snd]. unfold holds_at in *. cbn [files].
      rewrite lookup_insert_ne by exact Hne. exact HQ.
    + rewrite lookup_insert_eq. apply Hrest.
      unfold holds_at. cbn [files]. rewrite lookup_insert_eq. exact Hnew.
Qed.

Lemma keeps_raise_bind {A B} (Q : machine -> Prop) (e : exn) (k : A -> io B) :
  keeps Q (lift (Raise e) ≫= k).
Proof. intros m HQ. exact HQ. Qed.

Lemma keeps_bind_lift {A B} (Q : machine -> Prop) (r : pyresult A) (k : A -> io B) :
  (forall a, r = Return a -> keeps Q (k a)) -> keeps Q (lift r ≫= k).
Proof.
  intros Hk m HQ. unfold mbind, io_bind, lift.
  destruct r as [a|e]; [|exact HQ]. now apply Hk.
Qed.

Lemma keeps_bind_filter {B} p S dataframe filter_col operator value
    (k : option DataFrame -> io B) :
  (forall res lines,
      filter_df dataframe filter_col operator value = (Return res, lines) ->
      keeps (holds_at p S) (k res)) ->
  keeps (holds_at p S)
    (filter_df_logged dataframe filter_col operator value ≫= k).
Proof.
  intros Hk m HQ. unfold mbind, io_bind, filter_df_logged.
  destruct (filter_df dataframe filter_col operator value) as [[res|e] lines] eqn:E.
  - apply (Hk res lines eq_refl). exact HQ.
  - exact HQ.
Qed.

(** Goals [keeps (holds_at p S) c] for a [c] that does not write [p]. *)
Ltac frame :=
  repeat first
    [ apply keeps_ret
    | apply keeps_lift
    | apply keeps_log_lines
    | apply keeps_filter_df_logged
    | apply keeps_output_df; path_neq
    | apply keeps_write_file; path_neq
    | apply keeps_rename; path_neq
    | apply keeps_bind; [|intros ?]
    | match goal with
      | |- keeps _ (if String.eqb ?e "bybit" then _ else _) =>
          let E := fresh "E" in
          destruct (String.eqb_spec e "bybit") as [E|E]; [subst e|]
      end ].

Variable exchange_name : string.
Variable df : DataFrame.
Variable total_historical_volume : pyresult volume_map.

(** The four artifacts that go through a temporary file: at the end of
    [publish_artifacts], completed or not, each destination holds what it
    held or the whole new serialization. *)
Lemma publish_quant (before : option string) :
  keeps (holds_at (quant_path exchange_name)
           (old_or_new serialize before (Some df)))
    (publish_artifacts serialize json_dump exchange_name df total_historical_volume).
Proof.
  unfold publish_artifacts, quant_path.
  apply keeps_temp_then_rename; [path_neq|right; eauto|].
  frame.
Qed.

Lemma publish_legacy_quant (before : option string) :
  keeps (holds_at legacy_quant_path (old_or_new serialize before (Some df)))
    (publish_artifacts serialize json_dump exchange_name df total_historical_volume).
Proof.
  unfold publish_artifacts, legacy_quant_path.
  apply keeps_bind; [apply keeps_output_df; path_neq|intros _].
  apply keeps_bind; [apply keeps_rename; path_neq|intros _].
  destruct (String.eqb_spec exchange_name "bybit") as [E|E].
  - match goal with
    | |- keeps _ ((?a ≫= fun _ => ?b) ≫= ?k) =>
        enough (keeps (holds_at (String.append data_dir "quantdatav2.json")
                         (old_or_new serialize before (Some df)))
                  (a ≫= fun _ => b ≫= k)) as Hassoc
    end.
    + intros m HQ. specialize (Hassoc m HQ). revert Hassoc.
      unfold mbind, io_bind.
      destruct (output_df serialize (Some df)
                  (String.append data_dir "quantdatav2_temp.json") "json" m)
        as [[[]|e] m1]; [|exact id].
      destruct (rename (String.append data_dir "quantdatav2_temp.json")
                  (String.append data_dir "quantdatav2.json") m1)
        as [[[]|e] m2]; exact id.
    + apply keeps_temp_then_rename; [path_neq|right; eauto|]. subst exchange_name. frame.
  - frame.
Qed.

Lemma publish_trade (before : option string) :
  keeps (holds_at (trade_path exchange_name)
           (old_or_new serialize before (tradeable_view df)))
    (publish_artifacts serialize json_dump exchange_name df total_historical_volume).
Proof.
  unfold publish_artifacts, trade_path.
  apply keeps_bind; [apply keeps_output_df; path_neq|intros _].
  apply keeps_bind; [apply keeps_rename; path_neq|intros _].
  apply keeps_bind; [frame|intros _].
  apply keeps_bind_filter. intros [to_trade|] lines Hfilter.
  - apply keeps_temp_then_rename; [path_neq| |frame].
    right. exists to_trade. split; [|reflexivity].
    unfold tradeable_view. now rewrite Hfilter.
  - apply keeps_raise_bind.
Qed.

Lemma publish_rotator (before : option string) :
  keeps (holds_at (rotator_path exchange_name)
           (old_or_new serialize before (rotator_view df)))
    (publish_artifacts serialize json_dump exchange_name df total_historical_volume).
Proof.
  unfold publish_artifacts, rotator_path.
  apply keeps_bind; [apply keeps_output_df; path_neq|intros _].
  apply keeps_bind; [apply keeps_rename; path_neq|intros _].
  apply keeps_bind; [frame|intros _].
  apply keeps_bind; [apply keeps_filter_df_logged|intros to_trade].
  apply keeps_bind; [apply keeps_output_df; path_neq|intros _].
  apply keeps_bind; [apply keeps_rename; path_neq|intros _].
  apply keeps_bind_filter. intros res lines Hfilter.
  apply keeps_bind_lift. intros rotator_symbols Hsorted.
  apply keeps_temp_then_rename; [path_neq| |frame].
  right. exists rotator_symbols. split; [|reflexivity].
  unfold rotator_view, tradeable_view. rewrite Hfilter.
  destruct res as [t|]; [|discriminate].
  change (sort_values t ["5m 1x Volume (USDT)"; "5m Spread"] = Return rotator_symbols)
    in Hsorted.
  now rewrite Hsorted.
Qed.

End PublicationFacts.

Lemma files_scraper_iteration serialize json_dump exchange_name
    (analysis : pyresult DataFrame) total_historical_volume m :
  files (scraper_iteration serialize json_dump exchange_name false analysis
           total_historical_volume m) =
  match analysis with
  | Return df =>
      files (snd (publish_artifacts serialize json_dump exchange_name df
                    total_historical_volume m))
  | Raise _ => files m
  end.
Proof.
  unfold scraper_iteration. destruct analysis as [df|e]; [|reflexivity].
  unfold mbind at 1. unfold io_bind at 1. unfold lift.
  destruct (publish_artifacts serialize json_dump exchange_name df
              total_historical_volume m) as [[[]|e] m']; reflexivity.
Qed.

(** X17.  The part of C2 the code keeps.  After one turn of the loop, whatever
    the number of disk operations carried out before a failure, the
    primary table, its legacy copy, the tradeable view and the
    rotator-symbols view each hold what they held before the turn or the
    complete serialization of this turn's table or view. *)
Lemma renamed_artifacts_old_or_new
    (serialize : string -> DataFrame -> string) (json_dump : volume_map -> string)
    (exchange_name : string) (already_running : bool)
    (analysis : pyresult DataFrame) (total_historical_volume : pyresult volume_map)
    (m : machine) :
  let m' := scraper_iteration serialize json_dump exchange_name already_running
              analysis total_historical_volume m in
  old_or_new serialize (files m !! quant_path exchange_name) (table_of analysis)
    (files m' !! quant_path exchange_name) /\
  old_or_new serialize (files m !! legacy_quant_path) (table_of analysis)
    (files m' !! legacy_quant_path) /\
  old_or_new serialize (files m !! trade_path exchange_name)
    (table_of analysis ≫= tradeable_view)
    (files m' !! trade_path exchange_name) /\
  old_or_new serialize (files m !! rotator_path exchange_name)
    (table_of analysis ≫= rotator_view)
    (files m' !! rotator_path exchange_name).
Proof.
  intros m'. subst m'.
  destruct already_running; [repeat split; now left|].
  rewrite files_scraper_iteration.
  destruct analysis as [df|e]; [|repeat split; now left].
  cbn [table_of mbind option_bind].
  repeat split.
  - apply (publish_quant serialize json_dump exchange_name df
             total_historical_volume _ m). now left.
  - apply (publish_legacy_quant serialize json_dump exchange_name df
             total_historical_volume _ m). now left.
  - apply (publish_trade serialize json_dump exchange_name df
             total_historical_volume _ m). now left.
  - apply (publish_rotator serialize json_dump exchange_name df
             total_historical_volume _ m). now left.
Qed.


(** ** The merge of any two tables over the standard schema *)

Lemma getitem_rowwise cols (f : list cell -> list cell) (rs : list (list cell)) c i :
  index_of c cols = Some i ->
  getitem {| columns := cols; rows := map f rs |} c =
    Return (map (fun r => cell_at i (f r)) rs).
Proof.
  intros H. unfold getitem. cbn [columns rows]. rewrite H.
  now rewrite List.map_map.
Qed.

Lemma setitem_new cols (f : list cell -> list cell) (g : list cell -> cell) rs c :
  index_of c cols = None ->
  setitem {| columns := cols; rows := map f rs |} c (map (fun r => g (f r)) rs) =
    {| columns := cols ++ [c]; rows := map (appended f g) rs |}.
Proof.
  intros H. unfold setitem. cbn [columns rows]. rewrite H. f_equal.
  induction rs as [|r rs IH]; [reflexivity|]. simpl. now rewrite IH.
Qed.

Lemma setitem_at cols (f : list cell -> list cell) (g : list cell -> cell) rs c j :
  index_of c cols = Some j ->
  setitem {| columns := cols; rows := map f rs |} c (map (fun r => g (f r)) rs) =
    {| columns := cols; rows := map (replaced f j g) rs |}.
Proof.
  intros H. unfold setitem. cbn [columns rows]. rewrite H. f_equal.
  induction rs as [|r rs IH]; [reflexivity|]. simpl. now rewrite IH.
Qed.

Lemma series_add_rowwise (g h : list cell -> cell) (rs : list (list cell)) :
  Forall (fun r => numeric_cell (g r) /\ numeric_cell (h r)) rs ->
  series_add (fillna0 (map g rs)) (fillna0 (map h rs)) =
    Return (map (fun r => plus0 (g r) (h r)) rs).
Proof.
  unfold series_add, fillna0.
  induction 1 as [|r rs [Hg Hh] _ IH]; [reflexivity|].
  cbn [map zip_with pysequence]. rewrite IH.
  destruct (g r), (h r); try contradiction; reflexivity.
Qed.

Lemma sum_volume_rowwise cols (f : list cell -> list cell) rs col i j :
  index_of (String.append col "_bybit") cols = Some i ->
  index_of (String.append col "_binance") cols = Some j ->
  index_of col cols = None ->
  Forall (fun r => numeric_cell (cell_at i (f r)) /\ numeric_cell (cell_at j (f r))) rs ->
  sum_volume {| columns := cols; rows := map f rs |} col =
    Return {| columns := cols ++ [col];
              rows := map (appended f (volume_sum i j)) rs |}.
Proof.
  intros Hi Hj Hnew Hnum. unfold sum_volume.
  rewrite (getitem_rowwise _ _ _ _ _ Hi). cbn [mbind pyresult_bind].
  rewrite (getitem_rowwise _ _ _ _ _ Hj). cbn [mbind pyresult_bind].
  rewrite (series_add_rowwise _ _ _ Hnum). cbn [mbind pyresult_bind].
  now rewrite (setitem_new _ f (volume_sum i j) _ _ Hnew).
Qed.

Lemma copy_new suffix cols (f : list cell -> list cell) rs col i :
  endswith col suffix = true ->
  index_of col cols = Some i ->
  index_of (replace col suffix "") cols = None ->
  copy_suffixed suffix {| columns := cols; rows := map f rs |} col =
    Return {| columns := cols ++ [replace col suffix ""];
              rows := map (appended f (cell_at i)) rs |}.
Proof.
  intros He Hi Hnew. unfold copy_suffixed. rewrite He.
  rewrite (getitem_rowwise _ _ _ _ _ Hi). cbn [mbind pyresult_bind].
  now rewrite (setitem_new _ f (cell_at i) _ _ Hnew).
Qed.

Lemma copy_at suffix cols (f : list cell -> list cell) rs col i j :
  endswith col suffix = true ->
  index_of col cols = Some i ->
  index_of (replace col suffix "") cols = Some j ->
  copy_suffixed suffix {| columns := cols; rows := map f rs |} col =
    Return {| columns := cols; rows := map (replaced f j (cell_at i)) rs |}.
Proof.
  intros He Hi Hat. unfold copy_suffixed. rewrite He.
  rewrite (getitem_rowwise _ _ _ _ _ Hi). cbn [mbind pyresult_bind].
  now rewrite (setitem_at _ f (cell_at i) _ _ _ Hat).
Qed.

Lemma copy_skip suffix df col :
  endswith col suffix = false -> copy_suffixed suffix df col = Return df.
Proof. intros He. unfold copy_suffixed. now rewrite He. Qed.

Lemma drop_rowwise cols (f : list cell -> list cell) rs labels idx keep :
  indices_of cols labels = Return idx ->
  map (fun c => negb (mem c labels)) cols = keep ->
  drop_columns {| columns := cols; rows := map f rs |} labels =
    Return {| columns := select_where cols keep;
              rows := map (selected f keep) rs |}.
Proof.
  intros H <-. unfold drop_columns. cbn [columns rows]. rewrite H.
  cbn [mbind pyresult_bind]. now rewrite List.map_map.
Qed.

Ltac by_computation := vm_compute; reflexivity.

Lemma for_each_cons {A S} (body : S -> A -> pyresult S) (x : A) (l : list A) (s : S) :
  for_each (x :: l) body s = (body s x ≫= fun s' => for_each l body s').
Proof. reflexivity. Qed.

Lemma for_each_nil {A S} (body : S -> A -> pyresult S) (s : S) :
  for_each [] body s = Return s.
Proof. reflexivity. Qed.

Lemma bind_Return {A B} (a : A) (k : A -> pyresult B) : (Return a ≫= k) = k a.
Proof. reflexivity. Qed.

(** Keep the column labels of the current table a literal list. *)
Ltac literal_columns :=
  match goal with
  | |- context [ {| columns := ?c; rows := _ |} ] =>
      let c' := eval vm_compute in c in
      progress change c with c'
  end.

(** One turn of a loop over the columns. *)
Ltac copy_step :=
  rewrite for_each_cons;
  first
    [ rewrite copy_skip by by_computation
    | erewrite copy_new by by_computation
    | erewrite copy_at by by_computation ];
  rewrite bind_Return; cbv beta; try literal_columns.

Ltac end_loop := rewrite for_each_nil, bind_Return; cbv beta.

Lemma cell_at_app_l i (g extra : list cell) :
  (i < length g)%nat -> cell_at i (g ++ extra) = cell_at i g.
Proof. intros H. unfold cell_at. now rewrite app_nth1. Qed.

Lemma joined_row_numeric (g : list cell) (i : nat) :
  joined_row g -> In i volume_positions ->
  numeric_cell (cell_at i g) /\ numeric_cell (cell_at (i + 22) g).
Proof.
  intros [_ Hnum] Hi. rewrite Forall_forall in Hnum. apply Hnum.
  now apply list_elem_of_In.
Qed.

(** The cells of the join are where they were while columns are only
    added behind them. *)
Lemma cell_at_appended f g i (r : list cell) :
  (i < length (f r))%nat -> cell_at i (appended f g r) = cell_at i (f r).
Proof. intros H. unfold appended. cbv zeta. now apply cell_at_app_l. Qed.

Lemma length_appended f g (r : list cell) :
  length (appended f g r) = S (length (f r)).
Proof. unfold appended. cbv zeta. rewrite length_app. cbn. lia. Qed.

Ltac volume_step i :=
  erewrite (sum_volume_rowwise _ _ _ _ i (i + 22));
    [|by_computation|by_computation|by_computation|];
    [|match goal with
      | H : Forall joined_row _ |- _ =>
          eapply Forall_impl; [exact H|];
          let g := fresh "g" in let Hg := fresh "Hg" in
          intros g Hg;
          rewrite ?cell_at_appended
            by (rewrite ?length_appended; destruct Hg as [-> _]; lia);
          apply (joined_row_numeric g i Hg); cbn; tauto
      end];
  rewrite bind_Return; cbv beta; literal_columns.

Lemma frame_eq (c c' : list string) (r r' : list (list cell)) :
  c = c' -> r = r' ->
  Return {| columns := c; rows := r |} = Return {| columns := c'; rows := r' |}.
Proof. now intros -> ->. Qed.

Lemma explode45 (g : list cell) :
  length g = 45%nat -> g = map (fun i => cell_at i g) (seq 0 45).
Proof.
  intros Hlen.
  do 45 (destruct g as [|? g]; [discriminate Hlen|]).
  destruct g; [reflexivity|discriminate Hlen].
Qed.

(** From the join to the combined table: the steps after [pd.merge]. *)
Lemma finish_joined (rs : list (list cell)) :
  Forall joined_row rs ->
  (combined_data ← for_each volume_columns sum_volume
                     {| columns := joined_columns; rows := map (fun r => r) rs |};
   combined_data ← drop_columns combined_data
                     (map (fun col => String.append col "_bybit") volume_columns);
   combined_data ← drop_columns combined_data
                     (map (fun col => String.append col "_binance") volume_columns);
   combined_data ← for_each (columns combined_data) (copy_suffixed "_bybit")
                     combined_data;
   combined_data ← for_each (columns combined_data) (copy_suffixed "_binance")
                     combined_data;
   drop_columns combined_data
     (List.filter (fun col => endswith col "_bybit" || endswith col "_binance")
        (columns combined_data))) =
  Return {| columns := combined_columns; rows := map finish rs |}.
Proof.
  intros Hrows.
  unfold volume_columns.
  rewrite for_each_cons. volume_step 3%nat.
  rewrite for_each_cons. volume_step 4%nat.
  rewrite for_each_cons. volume_step 5%nat.
  rewrite for_each_cons. volume_step 6%nat.
  end_loop.
  erewrite drop_rowwise by by_computation.
  rewrite bind_Return; cbv beta. literal_columns.
  erewrite drop_rowwise by by_computation.
  rewrite bind_Return; cbv beta. literal_columns.
  cbn [columns].
  do 41 copy_step.
  end_loop. cbn [columns].
  do 59 copy_step.
  end_loop. cbn [columns].
  erewrite drop_rowwise by by_computation.
  apply frame_eq; [by_computation|].
  apply map_ext_in. intros g Hg.
  rewrite Forall_forall in Hrows. apply list_elem_of_In, Hrows in Hg.
  destruct Hg as [Hlen _].
  rewrite (explode45 g Hlen).
  by_computation.
Qed.

(** *** The outer join *)

Lemma cell_eqb_refl (c : cell) : cell_eqb c c = true.
Proof.
  destruct c as [|q|s]; simpl; [reflexivity| |apply String.eqb_refl].
  apply Qeq_bool_iff. reflexivity.
Qed.

Lemma insert_key_keeps (k x : cell) (keys : list cell) :
  In x keys -> In x (insert_key k keys).
Proof.
  induction keys as [|k' keys IH]; intros Hx; [destruct Hx|].
  simpl. destruct (cell_eqb k k'); [exact Hx|].
  destruct (key_ltb k k'); [now right|].
  destruct Hx as [<-|Hx]; [now left|right; now apply IH].
Qed.

Lemma insert_key_covers (k : cell) (keys : list cell) :
  exists k', In k' (insert_key k keys) /\ cell_eqb k k' = true.
Proof.
  induction keys as [|k0 keys (k' & Hin & Heq)].
  - exists k. split; [now left|apply cell_eqb_refl].
  - simpl. destruct (cell_eqb k k0) eqn:E.
    + exists k0. split; [now left|exact E].
    + destruct (key_ltb k k0).
      * exists k. split; [now left|apply cell_eqb_refl].
      * exists k'. split; [now right|exact Heq].
Qed.

(** Every key of either table is, up to equality of keys, a key of the
    join. *)
Lemma sorted_keys_covers (ks : list cell) (k : cell) :
  In k ks -> exists k', In k' (sorted_keys ks) /\ cell_eqb k k' = true.
Proof.
  unfold sorted_keys.
  enough (H : forall acc,
             (In k ks \/ exists k', In k' acc /\ cell_eqb k k' = true) ->
             exists k', In k' (fold_left (fun acc k => insert_key k acc) ks acc) /\
                        cell_eqb k k' = true)
    by (intros Hk; apply H; now left).
  induction ks as [|k0 ks IH]; intros acc [Hk|Hacc]; cbn [fold_left].
  - destruct Hk.
  - exact Hacc.
  - apply IH. destruct Hk as [->|Hk]; [right|now left].
    apply insert_key_covers.
  - apply IH. right. destruct Hacc as (k' & Hin & Heq).
    exists k'. split; [now apply insert_key_keeps|exact Heq].
Qed.

Lemma filter_nil_false {A} (f : A -> bool) (l : list A) :
  List.filter f l = [] -> forall x, In x l -> f x = false.
Proof.
  intros H x Hx. destruct (f x) eqn:E; [|reflexivity].
  assert (Hin : In x (List.filter f l)) by (apply List.filter_In; now split).
  rewrite H in Hin. destruct Hin.
Qed.

Section JoinFacts.

Variables left right : DataFrame.
Hypothesis Hleft : columns left = analysis_columns.
Hypothesis Hright : columns right = analysis_columns.

Lemma merge_outer_standard :
  merge_outer left right "Asset" "_bybit" "_binance" =
    Return {| columns := joined_columns;
              rows := flat_map (join_key left right 0 0)
                        (sorted_keys (map (cell_at 0) (rows left)
                                      ++ map (cell_at 0) (rows right))) |}.
Proof. unfold merge_outer. rewrite Hleft, Hright. reflexivity. Qed.

(** A row of the join for key [k] pairs a left row and a right row that
    carry [k], or has NaN for a side that has no such row. *)
Lemma join_key_sound (k : cell) (g : list cell) :
  In g (join_key left right 0 0 k) ->
  exists yo bo,
    g = glue k yo bo /\ side_of left k yo /\ side_of right k bo /\
    (is_Some yo \/ is_Some bo).
Proof.
  unfold join_key. rewrite Hleft, Hright.
  change (length analysis_columns) with 23%nat. cbn [Nat.sub].
  destruct (List.filter (fun r => cell_eqb (cell_at 0 r) k) (rows left))
    as [|l ls] eqn:El;
  destruct (List.filter (fun r => cell_eqb (cell_at 0 r) k) (rows right))
    as [|r rs] eqn:Er.
  - intros [].
  - intros Hg. apply in_map_iff in Hg as (b & <- & Hb).
    rewrite <- Er in Hb. apply List.filter_In in Hb.
    exists None, (Some b). repeat split; try apply Hb; [|right; eauto].
    exact (filter_nil_false _ _ El).
  - intros Hg. apply in_map_iff in Hg as (y & <- & Hy).
    rewrite <- El in Hy. apply List.filter_In in Hy.
    exists (Some y), None. repeat split; try apply Hy; [|left; eauto].
    exact (filter_nil_false _ _ Er).
  - intros Hg. apply in_flat_map in Hg as (y & Hy & Hg).
    apply in_map_iff in Hg as (b & <- & Hb).
    rewrite <- El in Hy. rewrite <- Er in Hb.
    apply List.filter_In in Hy, Hb.
    exists (Some y), (Some b). repeat split; try apply Hy; try apply Hb.
    left; eauto.
Qed.

Lemma join_key_left (k : cell) (y : list cell) :
  In y (rows left) -> cell_eqb (cell_at 0 y) k = true ->
  exists bo, side_of right k bo /\ In (glue k (Some y) bo) (join_key left right 0 0 k).
Proof.
  intros Hy Hk.
  assert (Hin : In y (List.filter (fun r => cell_eqb (cell_at 0 r) k) (rows left)))
    by (apply List.filter_In; now split).
  unfold join_key. rewrite Hright.
  change (length analysis_columns) with 23%nat. cbn [Nat.sub].
  destruct (List.filter (fun r => cell_eqb (cell_at 0 r) k) (rows left))
    as [|l ls] eqn:El; [destruct Hin|].
  destruct (List.filter (fun r => cell_eqb (cell_at 0 r) k) (rows right))
    as [|r rs] eqn:Er.
  - exists None. split; [exact (filter_nil_false _ _ Er)|].
    apply in_map_iff. exists y. split; [reflexivity|exact Hin].
  - exists (Some r). split.
    + assert (Hr : In r (List.filter (fun r => cell_eqb (cell_at 0 r) k) (rows right)))
        by (rewrite Er; now left).
      apply List.filter_In in Hr. exact Hr.
    + apply in_flat_map. exists y. split; [exact Hin|].
      apply in_map_iff. exists r. split; [reflexivity|now left].
Qed.

Lemma join_key_right (k : cell) (b : list cell) :
  In b (rows right) -> cell_eqb (cell_at 0 b) k = true ->
  exists yo, side_of left k yo /\ In (glue k yo (Some b)) (join_key left right 0 0 k).
Proof.
  intros Hb Hk.
  assert (Hin : In b (List.filter (fun r => cell_eqb (cell_at 0 r) k) (rows right)))
    by (apply List.filter_In; now split).
  unfold join_key. rewrite Hleft.
  change (length analysis_columns) with 23%nat.
  destruct (List.filter (fun r => cell_eqb (cell_at 0 r) k) (rows right))
    as [|r rs] eqn:Er; [destruct Hin|].
  destruct (List.filter (fun r => cell_eqb (cell_at 0 r) k) (rows left))
    as [|l ls] eqn:El.
  - exists None. split; [exact (filter_nil_false _ _ El)|].
    apply in_map_iff. exists b. split; [reflexivity|exact Hin].
  - exists (Some l). split.
    + assert (Hl : In l (List.filter (fun r => cell_eqb (cell_at 0 r) k) (rows left)))
        by (rewrite El; now left).
      apply List.filter_In in Hl. exact Hl.
    + apply in_flat_map. exists l. split; [now left|].
      apply in_map_iff. exists b. split; [reflexivity|exact Hin].
Qed.

End JoinFacts.

Lemma explode23 (r : list cell) :
  length r = 23%nat -> r = map (fun i => cell_at i r) (seq 0 23).
Proof.
  intros Hlen.
  do 23 (destruct r as [|? r]; [discriminate Hlen|]).
  destruct r; [reflexivity|discriminate Hlen].
Qed.

Lemma standard_side (df : DataFrame) (k : cell) (r : option (list cell)) :
  standard df -> side_of df k r ->
  match r with Some r => standard_row r | None => True end.
Proof.
  intros [_ Hrows] Hside. destruct r as [r|]; [|exact I].
  rewrite Forall_forall in Hrows. apply Hrows, list_elem_of_In, Hside.
Qed.

Lemma numeric_side (r : option (list cell)) (i : nat) :
  match r with Some r => standard_row r | None => True end ->
  In i volume_positions -> numeric_cell (side r i).
Proof.
  destruct r as [r|]; [|intros _ _; exact I].
  intros [_ Hnum] Hi. rewrite Forall_forall in Hnum.
  apply Hnum, list_elem_of_In, Hi.
Qed.

(** The cells of a row of the join, side by side. *)
Lemma glue_cells (k : cell) (yo bo : option (list cell)) :
  match yo with Some r => length r = 23%nat | None => True end ->
  match bo with Some r => length r = 23%nat | None => True end ->
  glue k yo bo =
    match yo with Some y => cell_at 0 y | None => k end
    :: map (fun i => side yo i) (seq 1 22)
    ++ map (fun i => side bo i) (seq 1 22).
Proof.
  intros Hy Hb. unfold glue.
  destruct yo as [y|], bo as [b|].
  - rewrite (explode23 y Hy), (explode23 b Hb). reflexivity.
  - rewrite (explode23 y Hy). reflexivity.
  - rewrite (explode23 b Hb). reflexivity.
  - reflexivity.
Qed.

Lemma glue_joined_row (k : cell) (yo bo : option (list cell)) :
  match yo with Some r => standard_row r | None => True end ->
  match bo with Some r => standard_row r | None => True end ->
  joined_row (glue k yo bo) /\ finish (glue k yo bo) = merged_row k yo bo.
Proof.
  intros Hy Hb.
  rewrite glue_cells;
    [|destruct yo; [apply Hy|exact I]|destruct bo; [apply Hb|exact I]].
  split; [split; [reflexivity|]|reflexivity].
  unfold volume_positions.
  repeat constructor;
    first [ apply (numeric_side yo _ Hy); cbn; tauto
          | apply (numeric_side bo _ Hb); cbn; tauto ].
Qed.

(** X18.  What [combine_and_save_rotator_data] builds from two tables over the
    standard schema.  The table has the key, the four volume columns and
    then the other columns.  Each row comes from a key and the rows of the
    two sides that carry it (at least one side has one): its volumes are the
    sums, a missing side counting as 0, and every other cell is the Binance
    side's, NaN when Binance has no row for the key, whatever Bybit has.
    Every row of either table is in some row of the result. *)
Lemma combined_data_rows (data_binance data_bybit : DataFrame) :
  standard data_binance -> standard data_bybit ->
  exists merged,
    combined_data data_binance data_bybit = Return merged /\
    columns merged = combined_columns /\
    (forall row, In row (rows merged) ->
       exists k yo bo,
         row = merged_row k yo bo /\
         side_of data_bybit k yo /\ side_of data_binance k bo /\
         (is_Some yo \/ is_Some bo)) /\
    (forall y, In y (rows data_bybit) ->
       exists k bo,
         cell_eqb (cell_at 0 y) k = true /\ side_of data_binance k bo /\
         In (merged_row k (Some y) bo) (rows merged)) /\
    (forall b, In b (rows data_binance) ->
       exists k yo,
         cell_eqb (cell_at 0 b) k = true /\ side_of data_bybit k yo /\
         In (merged_row k yo (Some b)) (rows merged)).
Proof.
  intros Hbinance Hbybit.
  pose proof Hbinance as [Hcb _]. pose proof Hbybit as [Hcy _].
  set (keys := sorted_keys (map (cell_at 0) (rows data_bybit)
                            ++ map (cell_at 0) (rows data_binance))).
  set (joined := flat_map (join_key data_bybit data_binance 0 0) keys).
  assert (Hglue : forall k yo bo,
             side_of data_bybit k yo -> side_of data_binance k bo ->
             joined_row (glue k yo bo) /\
             finish (glue k yo bo) = merged_row k yo bo).
  { intros k yo bo Hy Hb. apply glue_joined_row.
    - exact (standard_side _ _ _ Hbybit Hy).
    - exact (standard_side _ _ _ Hbinance Hb). }
  assert (Hjoined : Forall joined_row joined).
  { apply Forall_forall. intros g Hg. apply list_elem_of_In in Hg.
    apply in_flat_map in Hg as (k & _ & Hg).
    apply (join_key_sound _ _ Hcy Hcb) in Hg as (yo & bo & -> & Hy & Hb & _).
    apply Hglue; assumption. }
  exists {| columns := combined_columns; rows := map finish joined |}.
  split; [|split; [reflexivity|split; [|split]]].
  - unfold combined_data.
    rewrite (merge_outer_standard _ _ Hcy Hcb), bind_Return. cbv beta.
    fold keys. fold joined.
    pose proof (finish_joined joined Hjoined) as E.
    rewrite List.map_id in E. exact E.
  - cbn [rows]. intros row Hrow.
    apply in_map_iff in Hrow as (g & <- & Hg).
    apply in_flat_map in Hg as (k & _ & Hg).
    apply (join_key_sound _ _ Hcy Hcb) in Hg as (yo & bo & -> & Hy & Hb & Hsome).
    exists k, yo, bo. split; [apply Hglue; assumption|]. auto.
  - cbn [rows]. intros y Hy.
    destruct (sorted_keys_covers
                (map (cell_at 0) (rows data_bybit)
                 ++ map (cell_at 0) (rows data_binance)) (cell_at 0 y))
      as (k & Hk & Heq).
    { apply in_or_app. left. now apply in_map. }
    destruct (join_key_left data_bybit data_binance Hcb k y Hy Heq)
      as (bo & Hb & Hin).
    exists k, bo. split; [exact Heq|]. split; [exact Hb|].
    destruct (Hglue k (Some y) bo) as [_ <-]; [split; assumption|exact Hb|].
    apply in_map. apply in_flat_map. exists k. split; [exact Hk|exact Hin].
  - cbn [rows]. intros b Hb.
    destruct (sorted_keys_covers
                (map (cell_at 0) (rows data_bybit)
                 ++ map (cell_at 0) (rows data_binance)) (cell_at 0 b))
      as (k & Hk & Heq).
    { apply in_or_app. right. now apply in_map. }
    destruct (join_key_right data_bybit data_binance Hcy k b Hb Heq)
      as (yo & Hy & Hin).
    exists k, yo. split; [exact Heq|]. split; [exact Hy|].
    destruct (Hglue k yo (Some b)) as [_ <-]; [exact Hy|split; assumption|].
    apply in_map. apply in_flat_map. exists k. split; [exact Hk|exact Hin].
Qed.

(** ** Further properties of the oscillator verdict and of the merge *)

Lemma get_mfi_positive_lookback_witness :
  get_mfi falling_market ta_money_flow_index ta_rsi "BTCUSDT" "1m" 100 2 =
    Return "long".
Proof.
  destruct (get_mfi_positive_lookback falling_market ta_money_flow_index
              ta_rsi "BTCUSDT" "1m" 100 2 falling_feed)
    as [_ Hdecided]; [reflexivity|lia|].
  apply (Hdecided [(false, false)] [] (true, false)).
  - reflexivity.
  - constructor.
  - discriminate.
Defined.

Lemma combined_data_rows_witness :
  exists merged,
    combined_data exchange_A exchange_B = Return merged /\
    columns merged = combined_columns /\
    In (merged_row (Str "BBBUSDT")
          (Some (map (fun c => dict_get c (analysis "BBBUSDT" 2 20 (-3 # 100)))
                   analysis_columns))
          None)
       (rows merged).
Proof.
  destruct (combined_data_rows exchange_A exchange_B)
    as (merged & Hrun & Hcols & _ & Hbybit & _).
  - split; [reflexivity|]. repeat constructor.
  - split; [reflexivity|]. repeat constructor.
  - exists merged. split; [exact Hrun|]. split; [exact Hcols|].
    destruct (Hbybit (map (fun c => dict_get c (analysis "BBBUSDT" 2 20 (-3 # 100)))
                        analysis_columns))
      as (k & bo & Hk & Hside & Hin); [right; left; reflexivity|].
    destruct k as [| |s]; try discriminate Hk.
    apply String.eqb_eq in Hk. subst s.
    destruct bo as [b|]; [|exact Hin].
    destruct Hside as [[Hb|[]] Hkey]. subst b. discriminate Hkey.
Defined.

(** ** The symbol universe *)

Lemma substring_all (s : string) : String.substring 0 (String.length s) s = s.
Proof. induction s as [|c s IH]; [reflexivity|]. simpl. now rewrite IH. Qed.

Lemma substring_skip (pre s : string) (n : nat) :
  String.substring (String.length pre) n (String.append pre s) = String.substring 0 n s.
Proof. induction pre as [|c pre IH]; [reflexivity|]. simpl. exact IH. Qed.

Lemma length_append (a b : string) :
  String.length (String.append a b) = (String.length a + String.length b)%nat.
Proof. induction a as [|c a IH]; [reflexivity|]. simpl. now rewrite IH. Qed.

Lemma substring_split (s : string) : forall k,
  (k <= String.length s)%nat ->
  s = String.append (String.substring 0 k s)
        (String.substring k (String.length s - k) s).
Proof.
  induction s as [|c s IH]; intros k Hk.
  - destruct k; reflexivity.
  - destruct k as [|k].
    + simpl. now rewrite substring_all.
    + cbn [String.substring String.length Nat.sub] in *.
      change (String c s = String c (String.append (String.substring 0 k s)
                  (String.substring k (String.length s - k) s))).
      f_equal. apply IH. lia.
Qed.

(** The model of [str.endswith] is the suffix relation. *)
Lemma endswith_spec (s suffix : string) :
  endswith s suffix = true <-> ends_with s suffix.
Proof.
  unfold endswith, ends_with. rewrite andb_true_iff, Nat.leb_le, String.eqb_eq.
  split.
  - intros [Hlen Hsub].
    exists (String.substring 0 (String.length s - String.length suffix) s).
    rewrite (substring_split s (String.length s - String.length suffix)) at 1 by lia.
    f_equal.
    replace (String.length s - (String.length s - String.length suffix))%nat
      with (String.length suffix) by lia.
    exact Hsub.
  - intros [pre ->]. rewrite length_append. split; [lia|].
    replace (String.length pre + String.length suffix - String.length suffix)%nat
      with (String.length pre) by lia.
    rewrite substring_skip. apply substring_all.
Qed.

Lemma filter_sublist {A} (f : A -> bool) (l : list A) : sublist (List.filter f l) l.
Proof.
  induction l as [|x l IH]; [constructor|].
  simpl. destruct (f x); [now apply sublist_skip|now apply sublist_cons].
Qed.

Lemma filter_idempotent {A} (f : A -> bool) (l : list A) :
  List.filter f (List.filter f l) = List.filter f l.
Proof.
  induction l as [|x l IH]; [reflexivity|].
  simpl. destruct (f x) eqn:E; [|exact IH]. simpl. now rewrite E, IH.
Qed.

Lemma filter_count_kept (f : string -> bool) (l : list string) (s : string) :
  f s = true ->
  count_occ String.string_dec (List.filter f l) s = count_occ String.string_dec l s.
Proof.
  intros Hs. induction l as [|a l IH]; [reflexivity|].
  cbn [List.filter]. destruct (f a) eqn:Ha; cbn [count_occ];
    destruct (String.string_dec a s) as [->|Hne]; try congruence.
Qed.

Lemma filter_count_dropped (f : string -> bool) (l : list string) (s : string) :
  f s = false -> count_occ String.string_dec (List.filter f l) s = 0%nat.
Proof.
  intros Hs. induction l as [|a l IH]; [reflexivity|].
  cbn [List.filter]. destruct (f a) eqn:Ha; [|exact IH]. cbn [count_occ].
  destruct (String.string_dec a s) as [->|Hne]; [congruence|exact IH].
Qed.

Lemma existsb_endswith (s : string) (quotes : list string) :
  existsb (endswith s) quotes = true <-> exists q, In q quotes /\ ends_with s q.
Proof.
  rewrite existsb_exists.
  split; intros (q & Hq & He); exists q; (split; [exact Hq|]);
    now apply endswith_spec.
Qed.

(** X1.  [filter_quote] keeps exactly the symbols that end with one of the
    quotes, in the order and with the multiplicity they have in the input:
    the result is a subsequence of the input, a symbol that ends with one
    of the quotes occurs in it as many times as in the input and any other
    symbol not at all, and the filter goes through a concatenation of
    inputs; filtering twice changes nothing; with no quote at all nothing
    is kept. *)
Theorem filter_quote_keeps_suffixed (symbols quotes : list string) :
  (forall s, In s (filter_quote symbols quotes) <->
             In s symbols /\ exists q, In q quotes /\ ends_with s q) /\
  sublist (filter_quote symbols quotes) symbols /\
  (forall s, (exists q, In q quotes /\ ends_with s q) ->
             count_occ String.string_dec (filter_quote symbols quotes) s =
             count_occ String.string_dec symbols s) /\
  (forall s, ~ (exists q, In q quotes /\ ends_with s q) ->
             count_occ String.string_dec (filter_quote symbols quotes) s = 0%nat) /\
  (forall more, filter_quote (symbols ++ more) quotes =
                filter_quote symbols quotes ++ filter_quote more quotes) /\
  filter_quote (filter_quote symbols quotes) quotes = filter_quote symbols quotes /\
  filter_quote symbols [] = [].
Proof.
  unfold filter_quote. split; [|split; [|split; [|split; [|split; [|split]]]]].
  - intros s. rewrite List.filter_In, existsb_endswith. reflexivity.
  - apply filter_sublist.
  - intros s Hs. apply filter_count_kept. now apply existsb_endswith.
  - intros s Hs. apply filter_count_dropped.
    destruct (existsb (endswith s) quotes) eqn:E; [|reflexivity].
    exfalso. apply Hs. now apply existsb_endswith.
  - intros more. apply List.filter_app.
  - apply filter_idempotent.
  - induction symbols as [|s symbols IH]; [reflexivity|exact IH].
Qed.

(** *** filter_volume *)

Lemma insert_volume_perm x sorted : Permutation (insert_volume x sorted) (x :: sorted).
Proof.
  induction sorted as [|y sorted IH]; [reflexivity|].
  simpl. destruct (Qltb (snd y) (snd x)); [reflexivity|].
  rewrite IH. apply perm_swap.
Qed.

Lemma sorted_by_volume_perm items : Permutation (sorted_by_volume items) items.
Proof.
  unfold sorted_by_volume.
  enough (H : forall acc,
             Permutation (fold_left (fun sorted x => insert_volume x sorted) items acc)
                         (acc ++ items)) by apply (H []).
  induction items as [|x items IH]; intros acc; simpl.
  - now rewrite app_nil_r.
  - rewrite IH, insert_volume_perm. apply Permutation_middle.
Qed.

Lemma Qltb_false_le (a b : Q) : Qltb a b = false -> (b <= a)%Q.
Proof.
  unfold Qltb. rewrite negb_false_iff. apply Qle_bool_iff.
Qed.

Lemma insert_volume_sorted x sorted :
  StronglySorted by_volume sorted -> StronglySorted by_volume (insert_volume x sorted).
Proof.
  induction 1 as [|y sorted Hsorted IH Hy]; simpl.
  - repeat constructor.
  - destruct (Qltb (snd y) (snd x)) eqn:E.
    + apply Qltb_lt in E. constructor; [now constructor|].
      constructor; [now apply Qlt_le_weak|].
      eapply Forall_impl; [exact Hy|].
      intros z Hz. unfold by_volume in *.
      eapply Qle_trans; [exact Hz|]. now apply Qlt_le_weak.
    + apply Qltb_false_le in E. constructor; [exact IH|].
      rewrite (insert_volume_perm x sorted). constructor; [exact E|exact Hy].
Qed.

Lemma sorted_by_volume_sorted items : StronglySorted by_volume (sorted_by_volume items).
Proof.
  unfold sorted_by_volume.
  enough (H : forall acc, StronglySorted by_volume acc ->
             StronglySorted by_volume
               (fold_left (fun sorted x => insert_volume x sorted) items acc))
    by (apply H; constructor).
  induction items as [|x items IH]; intros acc Hacc; simpl; [exact Hacc|].
  apply IH, insert_volume_sorted, Hacc.
Qed.

Lemma In_drop {A} (l : list A) : forall n x, In x (drop n l) -> In x l.
Proof.
  induction l as [|y l IH]; intros [|n] x Hx; try exact Hx.
  right. exact (IH n x Hx).
Qed.

Lemma In_take {A} (l : list A) : forall n x, In x (take n l) -> In x l.
Proof.
  induction l as [|y l IH]; intros [|n] x Hx; try exact Hx; try destruct Hx as [].
  - now left.
  - right. eapply IH. eassumption.
Qed.

(** In a list sorted by volume, what a prefix holds is at least what the
    rest holds. *)
Lemma sorted_take_drop (l : list (string * Q)) (n : nat) (a b : string * Q) :
  StronglySorted by_volume l -> In a (take n l) -> In b (drop n l) -> by_volume a b.
Proof.
  intros Hsorted. revert n.
  induction Hsorted as [|x l Hl IH Hx]; intros n Ha Hb.
  - rewrite take_nil in Ha. destruct Ha.
  - destruct n as [|n]; [destruct Ha|].
    simpl in Ha, Hb. destruct Ha as [<-|Ha].
    + rewrite Forall_forall in Hx. apply Hx, list_elem_of_In.
      exact (In_drop _ _ _ Hb).
    + exact (IH n Ha Hb).
Qed.

Lemma mem_In (c : string) (l : list string) : mem c l = true <-> In c l.
Proof.
  unfold mem. rewrite existsb_exists. split.
  - intros (x & Hx & E). apply String.eqb_eq in E. now subst.
  - intros H. exists c. split; [exact H|apply String.eqb_refl].
Qed.

Lemma slice_to_take {A} (stop : Z) (l : list A) :
  exists n,
    slice_to stop l = take n l /\
    (0 <= stop -> Z.of_nat n <= stop) /\
    (Z.of_nat (length l) <= stop -> n = length l).
Proof.
  unfold slice_to. eexists. split; [reflexivity|].
  destruct (Z.ltb_spec stop 0); split; intros; lia.
Qed.

Lemma In_fst_exists {A B} (x : A) (l : list (A * B)) :
  In x (map fst l) <-> exists y, In (x, y) l.
Proof.
  rewrite in_map_iff. split.
  - intros ([a b] & <- & H). now exists b.
  - intros [y H]. now exists (x, y).
Qed.

Lemma NoDup_fst_inj {A B} (l : list (A * B)) (x : A) (y y' : B) :
  List.NoDup (map fst l) -> In (x, y) l -> In (x, y') l -> y = y'.
Proof.
  induction l as [|[a b] l IH]; intros Hnd Hy Hy'; [destruct Hy|].
  cbn [map fst] in Hnd. apply List.NoDup_cons_iff in Hnd as [Hnotin Hnd].
  destruct Hy as [Hy|Hy], Hy' as [Hy'|Hy'].
  - congruence.
  - injection Hy as -> ->. exfalso. apply Hnotin, In_fst_exists. eauto.
  - injection Hy' as -> ->. exfalso. apply Hnotin, In_fst_exists. eauto.
  - now apply IH.
Qed.

(** X2.  [filter_volume] keeps a subsequence of the symbols, each with an
    entry in the volume dict.  With a limit >= 0 and symbols listed once it
    keeps at most [limit] of them.  With one entry per symbol in the dict, a
    kept symbol's volume is at least the volume of any listed symbol that
    was not kept.  With a limit no less than the size of the dict, every
    listed symbol that has an entry is kept. *)
Theorem filter_volume_keeps_top (symbols : list string)
    (volumes : list (string * Q)) (limit : Z) :
  let kept := filter_volume symbols volumes limit in
  sublist kept symbols /\
  (forall s, In s kept -> exists v, volume_of volumes s v) /\
  (0 <= limit -> List.NoDup symbols -> Z.of_nat (length kept) <= limit) /\
  (List.NoDup (map fst volumes) ->
   forall s s' v v',
     In s kept -> In s' symbols -> ~ In s' kept ->
     volume_of volumes s v -> volume_of volumes s' v' -> (v' <= v)%Q) /\
  (Z.of_nat (length volumes) <= limit ->
   forall s, In s kept <-> In s symbols /\ exists v, volume_of volumes s v).
Proof.
  intros kept. subst kept. unfold filter_volume, volume_of.
  destruct (slice_to_take limit (sorted_by_volume volumes))
    as (n & -> & Hbound & Hall).
  pose proof (sorted_by_volume_perm volumes) as Hperm.
  pose proof (sorted_by_volume_sorted volumes) as Hsorted.
  set (sorted := sorted_by_volume volumes) in *.
  assert (Hkept : forall s,
             In s (List.filter (fun symbol => mem symbol (map fst (take n sorted)))
                     symbols) <->
             In s symbols /\ exists v, In (s, v) (take n sorted)).
  { intros s. now rewrite List.filter_In, mem_In, In_fst_exists. }
  split; [apply filter_sublist|]. split; [|split; [|split]].
  - intros s Hs. apply Hkept in Hs as [_ [v Hv]]. exists v.
    apply In_take in Hv. apply list_elem_of_In. rewrite <- Hperm.
    now apply list_elem_of_In.
  - intros Hlimit Hnodup.
    assert (Hlen : (length (List.filter
                              (fun symbol => mem symbol (map fst (take n sorted)))
                              symbols)
                    <= length (map fst (take n sorted)))%nat).
    { apply List.NoDup_incl_length; [now apply List.NoDup_filter|].
      intros s Hs. apply Hkept in Hs as [_ Hs]. now apply In_fst_exists. }
    rewrite length_map, length_take in Hlen. specialize (Hbound Hlimit). lia.
  - intros Hnodup s s' v v' Hs Hs' Hnot Hv Hv'.
    apply Hkept in Hs as [_ [v0 Hv0]].
    assert (v0 = v) as ->.
    { apply (NoDup_fst_inj volumes s); [exact Hnodup| |exact Hv].
      apply In_take in Hv0. apply list_elem_of_In. rewrite <- Hperm.
      now apply list_elem_of_In. }
    assert (Hin' : In (s', v') sorted).
    { apply list_elem_of_In. rewrite Hperm. now apply list_elem_of_In. }
    rewrite <- (take_drop n sorted) in Hin'. apply in_app_or in Hin' as [Hin'|Hin'].
    + exfalso. apply Hnot. apply Hkept. split; [exact Hs'|eauto].
    + exact (sorted_take_drop sorted n (s, v) (s', v') Hsorted Hv0 Hin').
  - intros Hlarge s. rewrite Hkept.
    assert (Hn : n = length sorted).
    { apply Hall. rewrite (Permutation_length Hperm). exact Hlarge. }
    rewrite Hn, firstn_all.
    split; intros [Hs [v Hv]]; (split; [exact Hs|]); exists v;
      apply list_elem_of_In; [rewrite <- Hperm|rewrite Hperm];
      now apply list_elem_of_In.
Qed.

Lemma filter_volume_keeps_top_witness :
  filter_volume ["DDDUSDT"; "CCCUSDT"; "BBBUSDT"; "AAAUSDT"; "EEEUSDT"]
    exchange_volumes 2 = ["BBBUSDT"; "AAAUSDT"] /\
  Z.of_nat (length (filter_volume
                      ["DDDUSDT"; "CCCUSDT"; "BBBUSDT"; "AAAUSDT"; "EEEUSDT"]
                      exchange_volumes 2)) <= 2.
Proof.
  split; [reflexivity|].
  destruct (filter_volume_keeps_top
              ["DDDUSDT"; "CCCUSDT"; "BBBUSDT"; "AAAUSDT"; "EEEUSDT"]
              exchange_volumes 2) as (_ & _ & Hlen & _).
  apply Hlen; [lia|].
  repeat (constructor; [cbn; intuition discriminate|]). constructor.
Defined.

(** ** Further properties of the funding cache *)

(** X3.  A fetch that fails is not cached.  When the cache has no fresh
    entry for the symbol and the exchange call raises, [get_cached_funding]
    lets the exception through and leaves the dict exactly as it was (an old
    entry is neither refreshed nor removed); the request has been sent.  The
    next call, at the same or a later instant, therefore sends a new request
    and caches its answer. *)
Theorem funding_failure_is_not_cached
    (get_funding_rate : string -> string -> nat -> pyresult Q)
    (self : CombinedScraper) (symbol : string) (now now' : Z) (w : world)
    (e : exn) (r : Q)
    (Hstale : absent_or_stale w symbol now)
    (Hfails : get_funding_rate (exchange_name self) symbol
                (length (funding_requests w)) = Raise e)
    (Hlater : now <= now')
    (Hanswers : get_funding_rate (exchange_name self) symbol
                  (S (length (funding_requests w))) = Return r) :
  let failed := get_cached_funding get_funding_rate self symbol now w in
  let retried := get_cached_funding get_funding_rate self symbol now' (snd failed) in
  fst failed = Raise e /\
  funding_cache (snd failed) = funding_cache w /\
  funding_requests (snd failed) = funding_requests w ++ [(exchange_name self, symbol)] /\
  fst retried = Return (r * 100)%Q /\
  funding_cache (snd retried) !! symbol = Some (now', (r * 100)%Q) /\
  funding_requests (snd retried) =
    funding_requests w ++ [(exchange_name self, symbol); (exchange_name self, symbol)].
Proof.
  intros failed retried.
  assert (Hfailed : failed =
    (Raise e, {| funding_cache := funding_cache w;
                 funding_requests := funding_requests w ++ [(exchange_name self, symbol)] |})).
  { subst failed. unfold get_cached_funding, absent_or_stale in *.
    destruct (funding_cache w !! symbol) as [[last_fetched rate]|].
    - destruct (Z.ltb_spec (now - last_fetched) FUNDING_CACHE_DURATION); [lia|].
      unfold fetch_funding. now rewrite Hfails.
    - unfold fetch_funding. now rewrite Hfails. }
  assert (Hretried : retried =
    (Return (r * 100)%Q,
     {| funding_cache := <[symbol := (now', (r * 100)%Q)]> (funding_cache (snd failed));
        funding_requests := funding_requests (snd failed) ++ [(exchange_name self, symbol)] |})).
  { subst retried. apply get_cached_funding_miss.
    - rewrite Hfailed. cbn [snd]. unfold absent_or_stale in *. cbn [funding_cache].
      destruct (funding_cache w !! symbol) as [[last_fetched rate]|]; [lia|exact I].
    - rewrite Hfailed. cbn [snd funding_requests].
      rewrite length_app. cbn [length].
      now replace (length (funding_requests w) + 1)%nat
        with (S (length (funding_requests w))) by lia. }
  rewrite Hretried, Hfailed. cbn [fst snd funding_cache funding_requests].
  repeat split.
  - apply lookup_insert_eq.
  - now rewrite <- app_assoc.
Qed.

Lemma funding_failure_is_not_cached_witness :
  let failed := get_cached_funding outage_then_answer binance_scraper "BTCUSDT" 0
                  initial_world in
  let retried := get_cached_funding outage_then_answer binance_scraper "BTCUSDT" 5
                   (snd failed) in
  fst failed = Raise (ExchangeError "503") /\
  funding_cache (snd failed) = ∅ /\
  fst retried = Return ((1 # 10000) * 100)%Q.
Proof.
  destruct (funding_failure_is_not_cached outage_then_answer binance_scraper
              "BTCUSDT" 0 5 initial_world (ExchangeError "503") (1 # 10000)%Q)
    as (H1 & H2 & _ & H4 & _).
  - exact I.
  - reflexivity.
  - lia.
  - reflexivity.
  - repeat split; assumption.
Defined.

(** X4.  Whatever a call of [get_cached_funding] for [symbol] does, it
    leaves the entries of all other symbols alone and removes no entry (the
    cache has no eviction), it sends at most one request, and a rate it
    returns is, after the call, the rate cached for [symbol], fresh at the
    instant of the call. *)
Theorem funding_cache_only_grows
    (get_funding_rate : string -> string -> nat -> pyresult Q)
    (self : CombinedScraper) (symbol : string) (now : Z) (w : world) :
  let res := fst (get_cached_funding get_funding_rate self symbol now w) in
  let w' := snd (get_cached_funding get_funding_rate self symbol now w) in
  (forall other, other <> symbol ->
     funding_cache w' !! other = funding_cache w !! other) /\
  (forall s, is_Some (funding_cache w !! s) -> is_Some (funding_cache w' !! s)) /\
  (funding_requests w' = funding_requests w \/
   funding_requests w' = funding_requests w ++ [(exchange_name self, symbol)]) /\
  (forall rate, res = Return rate ->
     exists fetched_at,
       funding_cache w' !! symbol = Some (fetched_at, rate) /\
       now - fetched_at < timedelta_hours 4).
Proof.
  intros res w'. subst res w'.
  assert (Hfetch :
    let res := fst (fetch_funding get_funding_rate self symbol now w) in
    let w' := snd (fetch_funding get_funding_rate self symbol now w) in
    (forall other, other <> symbol ->
       funding_cache w' !! other = funding_cache w !! other) /\
    (forall s, is_Some (funding_cache w !! s) -> is_Some (funding_cache w' !! s)) /\
    (funding_requests w' = funding_requests w \/
     funding_requests w' = funding_requests w ++ [(exchange_name self, symbol)]) /\
    (forall rate, res = Return rate ->
       exists fetched_at,
         funding_cache w' !! symbol = Some (fetched_at, rate) /\
         now - fetched_at < timedelta_hours 4)).
  { unfold fetch_funding.
    destruct (get_funding_rate (exchange_name self) symbol
                (length (funding_requests w))) as [r|e];
      cbn [fst snd funding_cache funding_requests].
    - split; [|split; [|split; [now right|]]].
      + intros other Hne. now rewrite lookup_insert_ne.
      + intros s Hs. destruct (decide (symbol = s)) as [->|Hne].
        * rewrite lookup_insert_eq. eauto.
        * now rewrite lookup_insert_ne.
      + intros rate [= <-]. exists now. rewrite lookup_insert_eq.
        split; [reflexivity|]. unfold timedelta_hours. lia.
    - split; [reflexivity|]. split; [auto|]. split; [now right|]. discriminate. }
  unfold get_cached_funding.
  destruct (funding_cache w !! symbol) as [[last_fetched rate0]|] eqn:Hlook;
    [|exact Hfetch].
  destruct (Z.ltb_spec (now - last_fetched) FUNDING_CACHE_DURATION) as [Hfresh|_];
    [|exact Hfetch].
  cbn [fst snd]. split; [reflexivity|]. split; [auto|]. split; [now left|].
  intros rate [= <-]. exists last_fetched. split; [exact Hlook|exact Hfresh].
Qed.

(** ** Further properties of the retry wrapper *)

Lemma retry_loop_exhausts
    (analyse_symbol : string -> nat -> pyresult record)
    (symbol : string) (retry_limit : Z) (errs : nat -> exn) (n : nat) :
  forall (fuel c : nat) (tr : list event),
    Z.of_nat (c + n) = Z.max 0 retry_limit \/ (n = 0%nat /\ retry_limit <= Z.of_nat c) ->
    (forall i, (c <= i < c + n)%nat -> analyse_symbol symbol i = Raise (errs i)) ->
    (n <= fuel)%nat ->
    retry_loop analyse_symbol fuel symbol retry_limit (Z.of_nat c) tr =
      Some (Raise (AnalysisFailed symbol retry_limit),
            tr ++ failed_attempts symbol errs c n).
Proof.
  induction n as [|n IH]; intros fuel c tr Hn Hfail Hfuel.
  - assert (Hdone : retry_limit <= Z.of_nat c) by lia.
    unfold failed_attempts. cbn [seq map concat]. rewrite app_nil_r.
    destruct fuel; cbn [retry_loop];
      destruct (Z.ltb_spec (Z.of_nat c) retry_limit); try lia; reflexivity.
  - destruct fuel as [|fuel]; [lia|]. cbn [retry_loop].
    destruct (Z.ltb_spec (Z.of_nat c) retry_limit) as [_|Hge]; [|lia].
    rewrite Nat2Z.id, (Hfail c) by lia.
    replace (Z.of_nat c + 1) with (Z.of_nat (S c)) by lia.
    rewrite (IH fuel (S c)).
    + rewrite failed_attempts_S. unfold failed_attempt.
      replace (Z.of_nat c + 1) with (Z.of_nat (S c)) by lia.
      now rewrite <- !app_assoc.
    + left. lia.
    + intros i Hi. apply Hfail. lia.
    + lia.
Qed.

(** X5.  When every attempt within the limit raises, [retry_analyse_symbol]
    makes exactly max(retry_limit, 0) attempts, logs and sleeps one second
    after each of them, the last one included, and only then raises
    "Failed to analyse ... after retry_limit attempts": a symbol that
    cannot be analysed costs retry_limit seconds of sleep. *)
Theorem retry_exhausted_sleeps_after_every_failure
    (analyse_symbol : string -> nat -> pyresult record)
    (symbol : string) (retry_limit : Z) (errs : nat -> exn)
    (Hfail : forall i, (i < Z.to_nat retry_limit)%nat ->
                       analyse_symbol symbol i = Raise (errs i)) :
  exists tr,
    retry_analyse_symbol analyse_symbol symbol retry_limit =
      Some (Raise (AnalysisFailed symbol retry_limit), tr) /\
    tr = failed_attempts symbol errs 0 (Z.to_nat retry_limit) /\
    count_calls tr = Z.to_nat retry_limit /\
    List.filter is_sleep tr = repeat (EvSleep 1) (Z.to_nat retry_limit).
Proof.
  eexists. split; [|split; [reflexivity|split]].
  - unfold retry_analyse_symbol. change 0 with (Z.of_nat 0).
    rewrite (retry_loop_exhausts analyse_symbol symbol retry_limit errs
               (Z.to_nat retry_limit)); try reflexivity; try lia.
    intros i Hi. apply Hfail. lia.
  - apply count_calls_failed_attempts.
  - apply sleeps_failed_attempts.
Qed.

Lemma retry_exhausted_sleeps_after_every_failure_witness :
  exists tr,
    retry_analyse_symbol dead_analysis "BTCUSDT" 3 =
      Some (Raise (AnalysisFailed "BTCUSDT" 3), tr) /\
    List.filter is_sleep tr = [EvSleep 1; EvSleep 1; EvSleep 1].
Proof.
  destruct (retry_exhausted_sleeps_after_every_failure dead_analysis "BTCUSDT" 3
              (fun _ => ExchangeError "timeout"))
    as (tr & Hrun & _ & _ & Hsleeps).
  - intros i _. reflexivity.
  - exists tr. split; [exact Hrun|exact Hsleeps].
Defined.


(** ** The order of [sort_values] *)

Lemma string_compare_lt_trans (a b c : string) :
  String.compare a b = Lt -> String.compare b c = Lt -> String.compare a c = Lt.
Proof.
  exact (@RelationClasses.StrictOrder_Transitive _ _
           OrdersEx.String_as_OT.lt_strorder a b c).
Qed.

Lemma descending_antisym (a b : cell) :
  descending b a = CompOpp (descending a b).
Proof.
  destruct a, b; cbn [descending CompOpp]; try reflexivity.
  - symmetry. apply Qcompare_antisym.
  - apply String.compare_antisym.
Qed.

Lemma descending_Eq_l (a b c : cell) :
  clash a b = false -> clash b c = false -> clash a c = false ->
  descending a b = Eq -> descending a c = descending b c.
Proof.
  destruct a as [|x|x], b as [|y|y], c as [|z|z];
    cbn [descending clash is_num is_str andb orb];
    try discriminate; try reflexivity; intros _ _ _ H.
  - apply Qeq_alt in H. now rewrite H.
  - apply String.compare_eq_iff in H. now subst.
Qed.

Lemma descending_Lt_trans (a b c : cell) :
  clash a b = false -> clash b c = false -> clash a c = false ->
  descending a b = Lt -> descending b c = Lt -> descending a c = Lt.
Proof.
  destruct a as [|x|x], b as [|y|y], c as [|z|z];
    cbn [descending clash is_num is_str andb orb];
    try discriminate; try reflexivity; intros _ _ _ H1 H2.
  - apply Qlt_alt. apply Qlt_alt in H1, H2. eapply Qlt_trans; eassumption.
  - eapply string_compare_lt_trans; eassumption.
Qed.

Lemma clash_sym (a b : cell) : clash a b = clash b a.
Proof. destruct a, b; reflexivity. Qed.

Lemma comparable_sym (by_ : list nat) (a b : list cell) :
  comparable by_ a b -> comparable by_ b a.
Proof.
  unfold comparable. intros H. eapply Forall_impl; [exact H|].
  intros i. now rewrite clash_sym.
Qed.

Lemma rows_descending_antisym (by_ : list nat) (a b : list cell) :
  rows_descending by_ b a = CompOpp (rows_descending by_ a b).
Proof.
  induction by_ as [|i by_ IH]; [reflexivity|].
  cbn [rows_descending].
  rewrite (descending_antisym (cell_at i a) (cell_at i b)).
  destruct (descending (cell_at i a) (cell_at i b)); cbn [CompOpp];
    [exact IH|reflexivity|reflexivity].
Qed.

Lemma rows_descending_Eq_l (by_ : list nat) (a b c : list cell) :
  comparable by_ a b -> comparable by_ b c -> comparable by_ a c ->
  rows_descending by_ a b = Eq ->
  rows_descending by_ a c = rows_descending by_ b c.
Proof.
  induction by_ as [|i by_ IH]; [reflexivity|].
  intros Hab Hbc Hac.
  apply Forall_cons in Hab as [Cab Hab], Hbc as [Cbc Hbc], Hac as [Cac Hac].
  cbn [rows_descending].
  destruct (descending (cell_at i a) (cell_at i b)) eqn:E; try discriminate.
  intros Hrest.
  rewrite (descending_Eq_l (cell_at i a) (cell_at i b) (cell_at i c)) by assumption.
  destruct (descending (cell_at i b) (cell_at i c)); try reflexivity.
  now apply IH.
Qed.

Lemma rows_descending_Eq_r (by_ : list nat) (a b c : list cell) :
  comparable by_ a b -> comparable by_ b c -> comparable by_ a c ->
  rows_descending by_ b c = Eq ->
  rows_descending by_ a c = rows_descending by_ a b.
Proof.
  intros Hab Hbc Hac H.
  rewrite (rows_descending_antisym by_ c a), (rows_descending_antisym by_ b a).
  f_equal. apply rows_descending_Eq_l.
  - now apply comparable_sym.
  - now apply comparable_sym.
  - now apply comparable_sym.
  - rewrite (rows_descending_antisym by_ b c), H. reflexivity.
Qed.

Lemma rows_descending_Lt_trans (by_ : list nat) (a b c : list cell) :
  comparable by_ a b -> comparable by_ b c -> comparable by_ a c ->
  rows_descending by_ a b = Lt -> rows_descending by_ b c = Lt ->
  rows_descending by_ a c = Lt.
Proof.
  induction by_ as [|i by_ IH]; [discriminate|].
  intros Hab Hbc Hac.
  apply Forall_cons in Hab as [Cab Hab], Hbc as [Cbc Hbc], Hac as [Cac Hac].
  cbn [rows_descending].
  destruct (descending (cell_at i a) (cell_at i b)) eqn:E1; try discriminate;
    destruct (descending (cell_at i b) (cell_at i c)) eqn:E2; try discriminate;
    intros H1 H2.
  - rewrite (descending_Eq_l _ _ _ Cab Cbc Cac E1), E2.
    now apply IH.
  - now rewrite (descending_Eq_l _ _ _ Cab Cbc Cac E1), E2.
  - assert (E : descending (cell_at i a) (cell_at i c) = Lt).
    { assert (E3 : descending (cell_at i c) (cell_at i b) = Eq)
        by now rewrite (descending_antisym (cell_at i b) (cell_at i c)), E2.
      rewrite (descending_antisym (cell_at i c) (cell_at i a)).
      rewrite (descending_Eq_l (cell_at i c) (cell_at i b) (cell_at i a));
        rewrite ?(clash_sym (cell_at i c)), ?(clash_sym (cell_at i b) (cell_at i a));
        trivial.
      now rewrite (descending_antisym (cell_at i a) (cell_at i b)), E1. }
    now rewrite E.
  - now rewrite (descending_Lt_trans _ _ _ Cab Cbc Cac E1 E2).
Qed.

Lemma in_order_trans (by_ : list nat) (a b c : list cell) :
  comparable by_ a b -> comparable by_ b c -> comparable by_ a c ->
  in_order by_ a b -> in_order by_ b c -> in_order by_ a c.
Proof.
  unfold in_order. intros Hab Hbc Hac H1 H2.
  destruct (rows_descending by_ a b) eqn:E1; try congruence;
    destruct (rows_descending by_ b c) eqn:E2; try congruence.
  - now rewrite (rows_descending_Eq_l by_ a b c), E2.
  - now rewrite (rows_descending_Eq_l by_ a b c), E2.
  - now rewrite (rows_descending_Eq_r by_ a b c), E1.
  - now rewrite (rows_descending_Lt_trans by_ a b c).
Qed.

Lemma not_mixed_comparable (by_ : list nat) (rs : list (list cell)) (a b : list cell) :
  existsb (mixed_column rs) by_ = false -> In a rs -> In b rs ->
  comparable by_ a b.
Proof.
  intros Hmixed Ha Hb. unfold comparable. apply Forall_forall. intros i Hi.
  apply list_elem_of_In in Hi.
  destruct (clash (cell_at i a) (cell_at i b)) eqn:E; [|reflexivity].
  assert (Hm : mixed_column rs i = true).
  { unfold mixed_column. apply andb_true_iff.
    unfold clash in E. apply orb_true_iff in E as [E|E];
      apply andb_true_iff in E as [E1 E2]; split; apply existsb_exists; eauto. }
  assert (Hex : existsb (mixed_column rs) by_ = true)
    by (apply existsb_exists; eauto).
  congruence.
Qed.

Section Sorting.

Variable by_ : list nat.
Variable table : list (list cell).
Hypothesis Hcomparable : forall a b, In a table -> In b table -> comparable by_ a b.

Lemma insert_row_sorted (r : list cell) (sorted : list (list cell)) :
  In r table -> (forall s, In s sorted -> In s table) ->
  StronglySorted (in_order by_) sorted ->
  StronglySorted (in_order by_) (insert_row by_ r sorted).
Proof.
  intros Hr. induction sorted as [|s sorted IH]; intros Hin Hsorted.
  - repeat constructor.
  - inversion Hsorted as [|? ? Hrest Hs]; subst. cbn [insert_row].
    assert (Hs_in : In s table) by (apply Hin; now left).
    destruct (rows_descending by_ r s) eqn:E.
    + constructor.
      * apply IH; [intros; apply Hin; now right|exact Hrest].
      * eapply Permutation_Forall; [symmetry; apply insert_row_perm|].
        constructor; [|exact Hs].
        unfold in_order. now rewrite (rows_descending_antisym by_ r s), E.
    + constructor; [exact Hsorted|].
      constructor; [unfold in_order; congruence|].
      rewrite Forall_forall in Hs. apply Forall_forall. intros x Hx.
      apply list_elem_of_In in Hx.
      apply (in_order_trans by_ r s x).
      * now apply Hcomparable.
      * apply Hcomparable; [exact Hs_in|apply Hin; now right].
      * apply Hcomparable; [exact Hr|apply Hin; now right].
      * unfold in_order; congruence.
      * apply Hs. now apply list_elem_of_In.
    + constructor.
      * apply IH; [intros; apply Hin; now right|exact Hrest].
      * eapply Permutation_Forall; [symmetry; apply insert_row_perm|].
        constructor; [|exact Hs].
        unfold in_order. now rewrite (rows_descending_antisym by_ r s), E.
Qed.

Lemma fold_insert_row_sorted (rs acc : list (list cell)) :
  (forall r, In r rs -> In r table) -> (forall s, In s acc -> In s table) ->
  StronglySorted (in_order by_) acc ->
  StronglySorted (in_order by_)
    (fold_left (fun sorted r => insert_row by_ r sorted) rs acc).
Proof.
  revert acc. induction rs as [|r rs IH]; intros acc Hrs Hacc Hsorted.
  - exact Hsorted.
  - cbn [fold_left]. apply IH.
    + intros; apply Hrs; now right.
    + intros s Hs.
      apply (Permutation_in _ (insert_row_perm by_ r acc)) in Hs.
      destruct Hs as [<-|Hs]; [apply Hrs; now left|now apply Hacc].
    + apply insert_row_sorted; [apply Hrs; now left|exact Hacc|exact Hsorted].
Qed.

End Sorting.

Lemma sort_rows_sorted (by_ : list nat) (rs : list (list cell)) :
  existsb (mixed_column rs) by_ = false ->
  StronglySorted (in_order by_) (sort_rows by_ rs).
Proof.
  intros Hmixed. unfold sort_rows.
  apply (fold_insert_row_sorted by_ rs).
  - intros a b. now apply not_mixed_comparable.
  - trivial.
  - intros s [].
  - constructor.
Qed.

(** X8.  Whenever [sort_values] returns, it returns the same columns and
    the same rows, rearranged so that every row stands before all rows
    that follow it in the order of the key columns: larger values first,
    earlier key columns deciding first, NaN last. *)
Theorem sort_values_sorts (df df' : DataFrame) (by_ : list string)
    (Hreturns : sort_values df by_ = Return df') :
  exists idx,
    indices_of (columns df) by_ = Return idx /\
    columns df' = columns df /\
    Permutation (rows df') (rows df) /\
    StronglySorted (in_order idx) (rows df').
Proof.
  unfold sort_values in Hreturns.
  destruct (indices_of (columns df) by_) as [idx|e] eqn:Hidx; [|discriminate].
  change (Return idx ≫= ?k) with (k idx) in Hreturns. cbv beta in Hreturns.
  destruct (existsb (mixed_column (rows df)) idx) eqn:Hmixed; [discriminate|].
  injection Hreturns as <-. exists idx. cbn [columns rows].
  split; [reflexivity|]. split; [reflexivity|].
  split; [apply sort_rows_perm|now apply sort_rows_sorted].
Qed.

Lemma sort_values_sorts_witness :
  exists df' idx,
    sort_values cycle_table ["1m 1x Volume (USDT)"; "5m Spread"] = Return df' /\
    Permutation (rows df') (rows cycle_table) /\
    StronglySorted (in_order idx) (rows df').
Proof.
  assert (Hrun : sort_values cycle_table ["1m 1x Volume (USDT)"; "5m Spread"] =
                 Return {| columns := analysis_columns;
                           rows := sort_rows [3%nat; 8%nat] (rows cycle_table) |})
    by reflexivity.
  destruct (sort_values_sorts _ _ _ Hrun) as (idx & _ & _ & Hperm & Hsorted).
  eexists _, idx. split; [exact Hrun|]. split; assumption.
Defined.

(** ** A cycle on a disk that does not fail *)

Lemma write_file_ok (path content : string) (m : machine) :
  (String.length content < budget m)%nat ->
  write_file path content m =
    (Return (),
     {| files := <[path := content]> (files m);
        budget := budget m - S (String.length content);
        log := log m; slept := slept m |}).
Proof.
  intros H. unfold write_file.
  destruct (budget m) as [|b] eqn:E; [lia|].
  destruct (Nat.ltb_spec b (String.length content)); [lia|].
  reflexivity.
Qed.

Lemma rename_ok (src dst content : string) (m : machine) :
  (0 < budget m)%nat -> files m !! src = Some content ->
  rename src dst m =
    (Return (),
     {| files := <[dst := content]> (delete src (files m));
        budget := budget m - 1; log := log m; slept := slept m |}).
Proof.
  intros H Hsrc. unfold rename.
  destruct (budget m) as [|b] eqn:E; [lia|].
  rewrite Hsrc. now rewrite Nat.sub_1_r.
Qed.

Lemma io_bind_Return {A B} (c : io A) (k : A -> io B) (m m' : machine) (a : A) :
  c m = (Return a, m') -> (c ≫= k) m = k a m'.
Proof. intros H. unfold mbind, io_bind. now rewrite H. Qed.

Lemma io_bind_Raise {A B} (c : io A) (k : A -> io B) (m m' : machine) (e : exn) :
  c m = (Raise e, m') -> (c ≫= k) m = (Raise e, m').
Proof. intros H. unfold mbind, io_bind. now rewrite H. Qed.

Lemma io_bind_assoc {A B C} (c : io A) (k1 : A -> io B) (k2 : B -> io C) (m : machine) :
  ((c ≫= k1) ≫= k2) m = (c ≫= fun a => k1 a ≫= k2) m.
Proof.
  unfold mbind, io_bind. destruct (c m) as [[a|e] m']; reflexivity.
Qed.

Lemma filter_df_supported_silent (dataframe : DataFrame) (filter_col operator : string)
    (value : Q) :
  operator = ">" \/ operator = "<" \/ operator = "==" ->
  snd (filter_df dataframe filter_col operator value) = [].
Proof. intros [->|[->| ->]]; reflexivity. Qed.

Lemma write_then {B} (path content : string) (k : unit -> io B) (m : machine) :
  (String.length content < budget m)%nat ->
  exists m1,
    (write_file path content ≫= k) m = k () m1 /\
    files m1 = <[path := content]> (files m) /\
    (budget m1 + S (String.length content) = budget m)%nat /\
    log m1 = log m /\ slept m1 = slept m.
Proof.
  intros H. eexists. split.
  - apply io_bind_Return. now apply write_file_ok.
  - cbn [files budget log slept]. repeat split. lia.
Qed.

Lemma rename_then {B} (src dst content : string) (k : unit -> io B) (m : machine) :
  (0 < budget m)%nat -> files m !! src = Some content ->
  exists m1,
    (rename src dst ≫= k) m = k () m1 /\
    files m1 = <[dst := content]> (delete src (files m)) /\
    (budget m1 + 1 = budget m)%nat /\
    log m1 = log m /\ slept m1 = slept m.
Proof.
  intros H Hsrc. eexists. split.
  - apply io_bind_Return. now apply (rename_ok src dst content).
  - cbn [files budget log slept]. repeat split. lia.
Qed.

Lemma output_df_json serialize (df : DataFrame) (path : string) :
  output_df serialize (Some df) path "json" = write_file path (serialize "json" df).
Proof. reflexivity. Qed.

Lemma filter_df_logged_Return {B} (dataframe : DataFrame) (filter_col operator : string)
    (value : Q) (res : option DataFrame) (k : option DataFrame -> io B) (m : machine) :
  filter_df dataframe filter_col operator value = (Return res, []) ->
  (filter_df_logged dataframe filter_col operator value ≫= k) m = k res m.
Proof.
  intros H. unfold mbind, io_bind, filter_df_logged. rewrite H.
  rewrite app_nil_r. now destruct m.
Qed.

Lemma lift_Return {A B} (r : pyresult A) (a : A) (k : A -> io B) (m : machine) :
  r = Return a -> (lift r ≫= k) m = k a m.
Proof. now intros ->. Qed.

Lemma tradeable_view_Some (df trade : DataFrame) :
  tradeable_view df = Some trade ->
  filter_df df "5m 1x Volume (USDT)" ">" 15000 = (Return (Some trade), []).
Proof.
  unfold tradeable_view. intros H.
  pose proof (filter_df_supported_silent df "5m 1x Volume (USDT)" ">" 15000
                (or_introl eq_refl)) as Hsilent.
  destruct (filter_df df "5m 1x Volume (USDT)" ">" 15000) as [[res|e] lines];
    [|discriminate].
  cbn [snd] in Hsilent. now subst.
Qed.

Lemma funding_view_Some (operator : string) (df view : DataFrame) :
  operator = ">" \/ operator = "<" \/ operator = "==" ->
  funding_view operator df = Some view ->
  exists t, filter_df df "Funding" operator 0 = (Return (Some t), []) /\
            reduce_df t ["Asset"; "1m 1x Volume (USDT)"; "Funding"] = Return view.
Proof.
  unfold funding_view. intros Hop H.
  pose proof (filter_df_supported_silent df "Funding" operator 0 Hop) as Hsilent.
  destruct (filter_df df "Funding" operator 0) as [[[t|]|e] lines]; try discriminate.
  cbn [snd] in Hsilent. subst lines. exists t. split; [reflexivity|].
  destruct (reduce_df t ["Asset"; "1m 1x Volume (USDT)"; "Funding"]);
    [now injection H as ->|discriminate].
Qed.

Ltac disk_step :=
  let m1 := fresh "m" in
  let Hrun := fresh "Hrun" in
  let Hfiles := fresh "Hfiles" in
  let Hbudget := fresh "Hbudget" in
  let Hlog := fresh "Hlog" in
  let Hslept := fresh "Hslept" in
  match goal with
  | |- context [ (mret ?a ≫= ?k) ?m ] =>
      change ((mret a ≫= k) m) with (k a m)
  | |- context [ ((?c ≫= ?k1) ≫= ?k2) ?m ] =>
      rewrite (io_bind_assoc c k1 k2 m)
  | |- context [ (write_file ?p ?c ≫= ?k) ?m ] =>
      destruct (write_then p c k m ltac:(lia))
        as (m1 & Hrun & Hfiles & Hbudget & Hlog & Hslept);
      rewrite Hrun; clear Hrun
  | |- context [ (rename ?s ?d ≫= ?k) ?m ] =>
      match goal with
      | H : files m = <[s := ?content]> _ |- _ =>
          destruct (rename_then s d content k m ltac:(lia)
                      ltac:(rewrite H; apply lookup_insert_eq))
            as (m1 & Hrun & Hfiles & Hbudget & Hlog & Hslept);
          rewrite H in Hfiles; clear H;
          rewrite Hrun; clear Hrun
      end
  end;
  cbv beta.

(** Lookups in a directory built by writes and renames at closed paths. *)
Ltac closed_path_neq := apply String.eqb_neq; vm_compute; reflexivity.

Ltac lookup_path :=
  repeat first
    [ rewrite lookup_insert_eq
    | rewrite lookup_delete_eq
    | rewrite lookup_insert_ne by closed_path_neq
    | rewrite lookup_delete_ne by closed_path_neq ];
  try reflexivity.

(** X9.  A cycle on a disk that does not fail.  When the four views of the
    analysis table can be derived, there is a number of disk operations
    such that on every machine that carries out that many, one turn of the
    loop leaves at each destination the whole serialization of its table
    or view (for Bybit also at the two legacy paths, which any other
    exchange leaves alone) and no temporary file.  The historical volumes
    are fetched last: if the fetch raises, the six tables are published
    all the same, the volume file keeps its content and the error is
    logged; otherwise the volume map is written and nothing is logged. *)
Theorem cycle_publishes_every_artifact
    (serialize : string -> DataFrame -> string) (json_dump : volume_map -> string)
    (exchange_name : string) (df trade rotator negative positive : DataFrame)
    (total_historical_volume : pyresult volume_map)
    (Hexchange : exchange_name = "binance" \/ exchange_name = "bybit")
    (Htrade : tradeable_view df = Some trade)
    (Hrotator : rotator_view df = Some rotator)
    (Hnegative : funding_view "<" df = Some negative)
    (Hpositive : funding_view ">" df = Some positive) :
  exists operations : nat, forall m : machine,
    (operations <= budget m)%nat ->
    let m' := scraper_iteration serialize json_dump exchange_name false
                (Return df) total_historical_volume m in
    files m' !! quant_path exchange_name = Some (serialize "json" df) /\
    files m' !! trade_path exchange_name = Some (serialize "json" trade) /\
    files m' !! rotator_path exchange_name = Some (serialize "json" rotator) /\
    files m' !! negative_path exchange_name = Some (serialize "json" negative) /\
    files m' !! positive_path exchange_name = Some (serialize "json" positive) /\
    (if String.eqb exchange_name "bybit" then
       files m' !! legacy_quant_path = Some (serialize "json" df) /\
       files m' !! legacy_rotator_path = Some (serialize "json" rotator) /\
       files m' !! legacy_quant_temp_path = None
     else
       files m' !! legacy_quant_path = files m !! legacy_quant_path /\
       files m' !! legacy_rotator_path = files m !! legacy_rotator_path /\
       files m' !! legacy_quant_temp_path = files m !! legacy_quant_temp_path) /\
    files m' !! quant_temp_path exchange_name = None /\
    files m' !! trade_temp_path exchange_name = None /\
    files m' !! rotator_temp_path exchange_name = None /\
    match total_historical_volume with
    | Return volumes =>
        files m' !! volume_path exchange_name = Some (json_dump volumes) /\
        log m' = log m
    | Raise e =>
        files m' !! volume_path exchange_name =
          files m !! volume_path exchange_name /\
        log m' = log m ++ [LogCycleError exchange_name e]
    end.
Proof.
  exists (2 * S (String.length (serialize "json" df)) + 2 +
          S (String.length (serialize "json" trade)) + 1 +
          2 * S (String.length (serialize "json" rotator)) + 1 +
          S (String.length (serialize "json" negative)) +
          S (String.length (serialize "json" positive)) +
          match total_historical_volume with
          | Return v => S (String.length (json_dump v))
          | Raise _ => 0
          end)%nat.
  intros m Hbudget m'. subst m'.
  pose proof (tradeable_view_Some df trade Htrade) as Hf.
  assert (Hs : (rotator_symbols ← method_of (Some trade);
                sort_values rotator_symbols ["5m 1x Volume (USDT)"; "5m Spread"])
               = Return rotator).
  { unfold rotator_view in Hrotator. rewrite Htrade in Hrotator.
    change (sort_values trade ["5m 1x Volume (USDT)"; "5m Spread"] = Return rotator).
    destruct (sort_values trade ["5m 1x Volume (USDT)"; "5m Spread"]);
      [now injection Hrotator as ->|discriminate]. }
  destruct (funding_view_Some "<" df negative (or_intror (or_introl eq_refl)) Hnegative)
    as (tn & Hfn & Hrn).
  destruct (funding_view_Some ">" df positive (or_introl eq_refl) Hpositive)
    as (tp & Hfp & Hrp).
  unfold scraper_iteration.
  rewrite (lift_Return (Return df) df _ m eq_refl).
  unfold publish_artifacts.
  unfold quant_path, trade_path, rotator_path, negative_path, positive_path,
    volume_path, legacy_quant_path, legacy_rotator_path, quant_temp_path,
    trade_temp_path, rotator_temp_path, legacy_quant_temp_path.
  destruct Hexchange as [-> | ->].
  all: match goal with
       | |- context [ String.eqb ?a ?b ] =>
           let c := eval vm_compute in (String.eqb a b) in
           change (String.eqb a b) with c
       end; cbv iota.
  all: rewrite ?output_df_json.
  all: repeat disk_step.
  all: rewrite (filter_df_logged_Return _ _ _ _ _ _ _ Hf).
  all: rewrite ?output_df_json.
  all: repeat disk_step.
  all: rewrite (filter_df_logged_Return _ _ _ _ _ _ _ Hf).
  all: rewrite (lift_Return _ _ _ _ Hs).
  all: rewrite ?output_df_json.
  all: repeat disk_step.
  all: rewrite (filter_df_logged_Return _ _ _ _ _ _ _ Hfn).
  all: rewrite (lift_Return _ _ _ _ Hrn).
  all: rewrite ?output_df_json.
  all: repeat disk_step.
  all: rewrite (filter_df_logged_Return _ _ _ _ _ _ _ Hfp).
  all: rewrite (lift_Return _ _ _ _ Hrp).
  all: rewrite ?output_df_json.
  all: repeat disk_step.
  all: destruct total_historical_volume as [volumes|e].
  all: try (rewrite (lift_Return (Return volumes) volumes _ _ eq_refl);
            rewrite write_file_ok by lia).
  all: try (rewrite (io_bind_Raise (lift (Raise e)) _ _ _ e eq_refl)).
  all: cbn [snd log_lines files log].
  all: repeat match goal with H : files ?x = _ |- _ => rewrite !H; clear H end.
  all: repeat split; lookup_path; try congruence.
Qed.

Lemma cycle_publishes_every_artifact_witness :
  exists operations : nat, forall m : machine,
    (operations <= budget m)%nat ->
    let m' := scraper_iteration show_rows show_volumes "binance" false
                (Return cycle_table) (Raise (ExchangeError "503")) m in
    files m' !! quant_path "binance" = Some "AAAUSDT;BBBUSDT;CCCUSDT;" /\
    files m' !! volume_path "binance" = files m !! volume_path "binance" /\
    log m' = log m ++ [LogCycleError "binance" (ExchangeError "503")].
Proof.
  destruct (cycle_publishes_every_artifact show_rows show_volumes "binance"
              cycle_table _ _ _ _ (Raise (ExchangeError "503"))
              (or_introl eq_refl) eq_refl eq_refl eq_refl eq_refl)
    as [operations Hcycle].
  exists operations. intros m Hbudget.
  destruct (Hcycle m Hbudget) as (Hquant & _ & _ & _ & _ & _ & _ & _ & _ & Hvolume & Hlog).
  repeat split; assumption.
Defined.

(** ** reduce_df *)

Lemma index_of_None (c : string) (cols : list string) :
  index_of c cols = None <-> ~ In c cols.
Proof.
  induction cols as [|c' cols IH]; cbn [index_of In]; [tauto|].
  destruct (String.eqb_spec c c') as [->|Hne].
  - split; [discriminate|]. intros H. exfalso. apply H. now left.
  - destruct (index_of c cols) as [i|]; cbn [fmap option_fmap option_map].
    + split; [discriminate|]. intros H. exfalso.
      assert (Hin : In c cols).
      { destruct (in_dec String.string_dec c cols) as [Hin|Hout]; [exact Hin|].
        now apply IH in Hout. }
      apply H. now right.
    + split; [|reflexivity]. intros _ [Heq|Hin]; [congruence|].
      now apply (proj1 IH).
Qed.

Lemma index_of_Some (c : string) (cols : list string) (i : nat) :
  index_of c cols = Some i -> nth_error cols i = Some c.
Proof.
  revert i. induction cols as [|c' cols IH]; intros i; cbn [index_of]; [discriminate|].
  destruct (String.eqb_spec c c') as [->|Hne].
  - now intros [= <-].
  - destruct (index_of c cols) as [j|]; cbn [fmap option_fmap option_map];
      [|discriminate].
    intros [= <-]. cbn [nth_error]. now apply IH.
Qed.

Lemma index_of_In (c : string) (cols : list string) (i : nat) :
  index_of c cols = Some i -> In c cols.
Proof. intros H. eapply nth_error_In, index_of_Some, H. Qed.

Lemma indices_of_Return (cols labels : list string) (idx : list nat) :
  indices_of cols labels = Return idx ->
  Forall2 (fun c i => index_of c cols = Some i) labels idx.
Proof.
  unfold indices_of. revert idx.
  induction labels as [|c labels IH]; intros idx; cbn [map pysequence].
  - intros [= <-]. constructor.
  - destruct (index_of c cols) as [i|] eqn:Hi; [|discriminate].
    rewrite bind_Return.
    destruct (pysequence _) as [idx'|e]; [|discriminate].
    rewrite bind_Return. intros [= <-]. constructor; [exact Hi|now apply IH].
Qed.

Lemma indices_of_Raise (cols labels : list string) (e : exn) :
  indices_of cols labels = Raise e ->
  exists before c after,
    labels = before ++ c :: after /\ e = KeyError c /\
    Forall (fun c' => In c' cols) before /\ ~ In c cols.
Proof.
  unfold indices_of.
  induction labels as [|c labels IH]; cbn [map pysequence]; [discriminate|].
  destruct (index_of c cols) as [i|] eqn:Hi.
  - rewrite bind_Return.
    destruct (pysequence _) as [idx'|e'] eqn:Hrest; [discriminate|].
    intros [= <-].
    destruct (IH eq_refl) as (before & c' & after & -> & -> & Hbefore & Hc').
    exists (c :: before), c', after. repeat split; trivial.
    constructor; [|exact Hbefore].
    destruct (in_dec String.string_dec c cols) as [Hin|Hout]; [exact Hin|].
    apply index_of_None in Hout. congruence.
  - intros [= <-]. exists [], c, labels. repeat split; trivial.
    now apply index_of_None.
Qed.

Lemma indices_of_total (cols labels : list string) :
  Forall (fun c => In c cols) labels ->
  exists idx, indices_of cols labels = Return idx.
Proof.
  intros Hall.
  destruct (indices_of cols labels) as [idx|e] eqn:E; [eauto|].
  destruct (indices_of_Raise _ _ _ E) as (before & c & after & -> & _ & _ & Hc).
  apply Forall_app in Hall as [_ Hall]. apply Forall_cons in Hall as [Hin _].
  contradiction.
Qed.

Lemma getitem_reduced (cols labels : list string) (idx : list nat)
    (rs : list (list cell)) (c : string) :
  Forall2 (fun c i => index_of c cols = Some i) labels idx ->
  In c labels ->
  getitem {| columns := labels;
             rows := map (fun row => map (fun i => cell_at i row) idx) rs |} c =
  getitem {| columns := cols; rows := rs |} c.
Proof.
  intros Hidx Hin. unfold getitem. cbn [columns rows].
  assert (H : exists j i, index_of c labels = Some j /\ nth_error idx j = Some i /\
                          index_of c cols = Some i).
  { clear rs. induction Hidx as [|c' i labels idx Hi Hidx IH]; [destruct Hin|].
    cbn [index_of]. destruct (String.eqb_spec c c') as [->|Hne].
    - exists 0%nat, i. repeat split; trivial.
    - destruct Hin as [Heq|Hin]; [congruence|].
      destruct (IH Hin) as (j & i' & Hj & Hnth & Hi').
      exists (S j), i'. rewrite Hj. repeat split; trivial. }
  destruct H as (j & i & -> & Hnth & ->).
  f_equal. rewrite map_map. apply map_ext. intros row.
  unfold cell_at at 1.
  rewrite (nth_indep _ NaN (cell_at 0 row)).
  - rewrite (map_nth (fun i => cell_at i row)).
    f_equal. now apply nth_error_nth.
  - rewrite length_map. apply nth_error_Some. congruence.
Qed.

(** X10.  [reduce_df] returns exactly when every requested label is a
    column of the table.  The result then has the requested labels as its
    columns, in the requested order, as many rows as the table, and under
    each requested label the cells the table has under it.  Otherwise the
    first label that is no column raises KeyError. *)
Theorem reduce_df_selects (dataframe : DataFrame) (cols : list string) :
  (Forall (fun c => In c (columns dataframe)) cols ->
   exists reduced,
     reduce_df dataframe cols = Return reduced /\
     columns reduced = cols /\
     length (rows reduced) = length (rows dataframe) /\
     forall c, In c cols -> getitem reduced c = getitem dataframe c) /\
  (forall before c after,
     cols = before ++ c :: after ->
     Forall (fun c' => In c' (columns dataframe)) before ->
     ~ In c (columns dataframe) ->
     reduce_df dataframe cols = Raise (KeyError c)).
Proof.
  split.
  - intros Hall. destruct (indices_of_total _ _ Hall) as [idx Hidx].
    unfold reduce_df. rewrite Hidx, bind_Return.
    eexists. split; [reflexivity|]. cbn [columns rows].
    split; [reflexivity|]. split; [apply length_map|].
    intros c Hc. destruct dataframe as [dcols drows].
    apply getitem_reduced; [|exact Hc]. now apply indices_of_Return.
  - intros before c after -> Hbefore Hc. unfold reduce_df.
    destruct (indices_of (columns dataframe) (before ++ c :: after)) as [idx|e] eqn:E.
    + apply indices_of_Return in E. apply Forall2_app_inv_l in E
        as (idx1 & idx2 & _ & E & _).
      inversion E as [|? i ? ? Hi]; subst.
      apply index_of_None in Hc. congruence.
    + destruct (indices_of_Raise _ _ _ E) as (before' & c' & after' & Heq & -> & Hb' & Hc').
      cbn. f_equal. f_equal.
      (* the first missing label is unique *)
      clear E. revert before' Heq Hb'. induction before as [|b before IH]; intros before' Heq Hb'.
      * destruct before' as [|b' before']; cbn in Heq; [congruence|].
        injection Heq as <- _. apply Forall_cons in Hb' as [Hin _]. contradiction.
      * apply Forall_cons in Hbefore as [Hb Hbefore].
        destruct before' as [|b' before']; cbn in Heq.
        -- injection Heq as -> _. contradiction.
        -- injection Heq as <- Heq. apply Forall_cons in Hb' as [_ Hb'].
           now apply (IH Hbefore before').
Qed.

Lemma reduce_df_selects_witness :
  (exists reduced,
     reduce_df cycle_table ["Asset"; "Funding"] = Return reduced /\
     getitem reduced "Funding" = getitem cycle_table "Funding") /\
  reduce_df cycle_table ["Asset"; "Bid"; "Funding"] = Raise (KeyError "Bid").
Proof.
  split.
  - destruct (proj1 (reduce_df_selects cycle_table ["Asset"; "Funding"]))
      as (reduced & Hrun & _ & _ & Hcells).
    + repeat constructor; eapply index_of_In; reflexivity.
    + exists reduced. split; [exact Hrun|]. apply Hcells. right. now left.
  - apply (proj2 (reduce_df_selects cycle_table ["Asset"; "Bid"; "Funding"])
             ["Asset"] "Bid" ["Funding"]).
    + reflexivity.
    + repeat constructor; eapply index_of_In; reflexivity.
    + apply index_of_None. reflexivity.
Defined.

(** ** filter_df on a missing column and on a column of strings *)

Lemma mask_total (cmp : cell -> pyresult bool) (test : cell -> bool)
    (i : nat) (rs : list (list cell)) :
  (forall c, cmp c = Return (test c)) ->
  pysequence (map cmp (map (cell_at i) rs)) =
  Return (map (fun row => test (cell_at i row)) rs).
Proof.
  intros Hcmp. induction rs as [|r rs IH]; [reflexivity|].
  cbn [map pysequence]. now rewrite Hcmp, bind_Return, IH, bind_Return.
Qed.

Lemma mask_str (cmp : cell -> pyresult bool) (e : exn) (i : nat)
    (rs : list (list cell)) :
  (forall c, is_str c = true -> cmp c = Raise e) ->
  (forall c, is_str c = false -> exists b, cmp c = Return b) ->
  Exists (fun row => is_str (cell_at i row) = true) rs ->
  pysequence (map cmp (map (cell_at i) rs)) = Raise e.
Proof.
  intros Hstr Hother Hex. induction rs as [|r rs IH]; [inversion Hex|].
  cbn [map pysequence].
  destruct (is_str (cell_at i r)) eqn:E.
  - now rewrite (Hstr _ E).
  - destruct (Hother _ E) as [b ->]. rewrite bind_Return.
    rewrite IH; [reflexivity|].
    apply Exists_cons in Hex as [Hex|Hex]; [congruence|exact Hex].
Qed.

(** X11.  With one of the three operators, [filter_df] lets pandas'
    exceptions through and logs nothing: KeyError when the table has no
    column [filter_col]; TypeError from "<" and ">" when a cell of the
    column holds a string.  "==" raises nothing on such a column: a string
    equals no number, and the rows holding the number are returned. *)
Theorem filter_df_rejects (dataframe : DataFrame) (filter_col operator : string)
    (value : Q)
    (Hoperator : operator = ">" \/ operator = "<" \/ operator = "==") :
  (~ In filter_col (columns dataframe) ->
   filter_df dataframe filter_col operator value =
     (Raise (KeyError filter_col), [])) /\
  (forall i,
     index_of filter_col (columns dataframe) = Some i ->
     Exists (fun row => is_str (cell_at i row) = true) (rows dataframe) ->
     if String.eqb operator "==" then
       filter_df dataframe filter_col operator value =
         (Return (Some {| columns := columns dataframe;
                          rows := List.filter
                                    (fun row => equal_to value (cell_at i row))
                                    (rows dataframe) |}), [])
     else
       exists message,
         filter_df dataframe filter_col operator value =
           (Raise (TypeError message), [])).
Proof.
  split.
  - intros Hmissing. apply index_of_None in Hmissing.
    destruct Hoperator as [->|[->| ->]];
      unfold filter_df, getitem; cbn [String.eqb Ascii.eqb Bool.eqb];
      now rewrite Hmissing.
  - intros i Hcol Hstr.
    destruct Hoperator as [->|[->| ->]];
      unfold filter_df, getitem; cbn [String.eqb Ascii.eqb Bool.eqb];
      rewrite Hcol, bind_Return.
    + eexists.
      rewrite (mask_str (cell_gt value)
                 (TypeError "'>' not supported between instances of 'str' and 'int'")
                 i (rows dataframe)); trivial.
      * intros [| |s] H; try discriminate. reflexivity.
      * intros [|q|s] H; try discriminate; cbn [cell_gt]; eauto.
    + eexists.
      rewrite (mask_str (cell_lt value)
                 (TypeError "'<' not supported between instances of 'str' and 'int'")
                 i (rows dataframe)); trivial.
      * intros [| |s] H; try discriminate. reflexivity.
      * intros [|q|s] H; try discriminate; cbn [cell_lt]; eauto.
    + rewrite (mask_total (cell_eq value) (equal_to value)).
      * rewrite bind_Return. unfold getitem_mask.
        now rewrite (select_rows_map (fun row => equal_to value (cell_at i row))).
      * now intros [|q|s].
Qed.

Lemma filter_df_rejects_witness :
  filter_df funding_table "Bid" "<" 0 = (Raise (KeyError "Bid"), []) /\
  exists message,
    filter_df funding_table "Asset" "<" 0 = (Raise (TypeError message), []).
Proof.
  destruct (filter_df_rejects funding_table "Bid" "<" 0) as [Hmissing _].
  { right. now left. }
  destruct (filter_df_rejects funding_table "Asset" "<" 0) as [_ Hstring].
  { right. now left. }
  split.
  - apply Hmissing. apply index_of_None. reflexivity.
  - apply (Hstring 0%nat); [reflexivity|]. apply Exists_cons. now left.
Defined.

(** ** get_all_historical_volume *)

Lemma completed_permutation {A} (futures : list A) (completion : list nat) :
  Permutation completion (seq 0 (length futures)) ->
  Permutation (omap (fun i => futures !! i) completion) futures.
Proof.
  intros ->. pose proof (omap_lookup_seq futures []) as E.
  cbn [app length] in E. now rewrite E.
Qed.

Lemma dict_set_new (k : string) (v : list cell) (d : volume_map) :
  ~ In k (map fst d) -> dict_set k v d = d ++ [(k, v)].
Proof.
  induction d as [|[k' v'] d IH]; cbn [dict_set map fst In app]; [reflexivity|].
  intros Hnew. destruct (String.eqb_spec k k') as [->|Hne].
  - exfalso. apply Hnew. now left.
  - rewrite IH; [reflexivity|]. intros Hin. apply Hnew. now right.
Qed.

Lemma gather_returns (items : list (string * list cell)) : forall acc : volume_map,
  List.NoDup (map fst (acc ++ items)) ->
  gather (map Return items) acc = Return (acc ++ items).
Proof.
  induction items as [|[k v] items IH]; intros acc Hnodup; cbn [map gather].
  - now rewrite app_nil_r.
  - rewrite dict_set_new.
    + rewrite IH; rewrite <- app_assoc; [reflexivity|exact Hnodup].
    + rewrite map_app in Hnodup. cbn [map fst] in Hnodup.
      apply List.NoDup_remove_2 in Hnodup. intros Hin. apply Hnodup.
      apply in_or_app. now left.
Qed.

Lemma gather_raises (completed : list (pyresult (string * list cell))) :
  forall acc : volume_map,
  Exists (fun r => exists e, r = Raise e) completed ->
  exists e, In (Raise e) completed /\ gather completed acc = Raise e.
Proof.
  induction completed as [|[[k v]|e] completed IH]; intros acc Hex.
  - inversion Hex.
  - apply Exists_cons in Hex as [[e [=]]|Hex].
    destruct (IH (dict_set k v acc) Hex) as (e & Hin & Hrun).
    exists e. split; [now right|exact Hrun].
  - exists e. split; [now left|reflexivity].
Qed.

Section VolumeFacts.

Variable get_futures_kline : string -> string -> Z -> pyresult (list Candle).
Variable binance_kline_volumes : string -> string -> Z -> pyresult (list cell).
Variable exchange_name interval : string.
Variable limit : Z.
Hypothesis Hexchange : exchange_name = "binance" \/ exchange_name = "bybit".

Let answer := volumes_answer get_futures_kline binance_kline_volumes
                exchange_name interval limit.

Let task (symbol : string) : pyresult (string * list cell) :=
  volumes ← answer symbol; Return (symbol, volumes).

Lemma get_all_historical_volume_tasks (self : CombinedScraper) (completion : list nat) :
  get_all_historical_volume get_futures_kline binance_kline_volumes self
    exchange_name interval limit completion =
  gather (omap (fun i => map task (symbols self) !! i) completion) [].
Proof.
  unfold get_all_historical_volume.
  assert (Htask : forall symbol,
            task symbol =
            if String.eqb exchange_name "bybit"
            then get_historical_volume_bybit get_futures_kline symbol interval limit
            else get_historical_volume_binance binance_kline_volumes symbol
                   interval limit).
  { intros symbol. unfold task, answer, volumes_answer,
      get_historical_volume_bybit, get_historical_volume_binance.
    destruct (String.eqb exchange_name "bybit"); [|reflexivity].
    now destruct (get_futures_kline symbol interval limit). }
  rewrite (map_ext _ _ Htask).
  destruct Hexchange as [-> | ->]; reflexivity.
Qed.

(** X12.  [get_all_historical_volume] is all or nothing, whatever the order
    in which the requests complete.  If the exchange answers for every
    symbol, the dict has exactly the scraper's symbols as keys, each with
    the volumes the exchange answered for it.  If it refuses one symbol,
    the call raises what a refused request raised: there is no retry and
    no partial dict. *)
Theorem historical_volume_all_or_nothing (self : CombinedScraper)
    (completion : list nat)
    (Hcompletion : Permutation completion (seq 0 (length (symbols self))))
    (Hdistinct : List.NoDup (symbols self)) :
  let result := get_all_historical_volume get_futures_kline binance_kline_volumes
                  self exchange_name interval limit completion in
  ((forall symbol, In symbol (symbols self) ->
      exists volumes, answer symbol = Return volumes) ->
   exists all_volume,
     result = Return all_volume /\
     Permutation (map fst all_volume) (symbols self) /\
     forall symbol volumes,
       In (symbol, volumes) all_volume -> answer symbol = Return volumes) /\
  ((exists symbol e, In symbol (symbols self) /\ answer symbol = Raise e) ->
   exists symbol e,
     In symbol (symbols self) /\ answer symbol = Raise e /\ result = Raise e).
Proof.
  intros result. subst result. rewrite get_all_historical_volume_tasks.
  assert (Hlen : length (map task (symbols self)) = length (symbols self))
    by apply length_map.
  pose proof (completed_permutation (map task (symbols self)) completion) as Hperm.
  rewrite Hlen in Hperm. specialize (Hperm Hcompletion).
  set (completed := omap (fun i => map task (symbols self) !! i) completion) in *.
  split.
  - intros Hall.
    assert (Hitems : exists items,
               map task (symbols self) = map Return items /\
               map fst items = symbols self /\
               forall symbol volumes,
                 In (symbol, volumes) items -> answer symbol = Return volumes).
    { clear Hperm Hlen Hdistinct Hcompletion completed.
      induction (symbols self) as [|s ss IH].
      - exists []. repeat split. intros ? ? [].
      - destruct (Hall s (or_introl eq_refl)) as [v Hv].
        destruct IH as (items & E1 & E2 & E3); [intros; apply Hall; now right|].
        exists ((s, v) :: items). cbn [map fst]. split; [|split].
        + unfold task at 1. rewrite Hv, bind_Return. now rewrite E1.
        + now rewrite E2.
        + intros symbol volumes [[= <- <-]|Hin]; [exact Hv|now apply E3]. }
    destruct Hitems as (items & Hfutures & Hkeys & Hvalues).
    rewrite Hfutures in Hperm.
    apply Permutation_map_inv in Hperm as (items' & Hcompleted & Hitems').
    rewrite Hcompleted.
    exists items'. split; [|split].
    + rewrite (gather_returns items' []); [reflexivity|].
      cbn [app]. rewrite <- Hitems', Hkeys. exact Hdistinct.
    + rewrite <- Hitems', Hkeys. reflexivity.
    + intros symbol volumes Hin. apply Hvalues.
      apply list_elem_of_In. rewrite Hitems'. now apply list_elem_of_In.
  - intros (s & e & Hs & He).
    assert (Hex : Exists (fun r => exists e, r = Raise e) completed).
    { apply Exists_exists. exists (Raise e). split; [|eauto].
      rewrite Hperm. apply list_elem_of_In, in_map_iff.
      exists s. split; [|exact Hs]. unfold task. now rewrite He. }
    destruct (gather_raises completed [] Hex) as (e' & Hin & Hrun).
    apply list_elem_of_In in Hin. rewrite Hperm in Hin.
    apply list_elem_of_In, in_map_iff in Hin as (s' & Htask & Hs').
    exists s', e'. split; [exact Hs'|]. split; [|exact Hrun].
    unfold task in Htask. destruct (answer s'); [discriminate|].
    injection Htask as ->. reflexivity.
Qed.

End VolumeFacts.

Lemma historical_volume_all_or_nothing_witness :
  get_all_historical_volume (kline_without "BBBUSDT") (fun _ _ _ => Return [])
    {| exchange_name := "bybit"; symbols := ["AAAUSDT"; "CCCUSDT"] |}
    "bybit" "1h" 24 [1%nat; 0%nat] =
    Return [("CCCUSDT", [Num 1]); ("AAAUSDT", [Num 1])] /\
  exists symbol e,
    In symbol ["AAAUSDT"; "BBBUSDT"; "CCCUSDT"] /\
    get_all_historical_volume (kline_without "BBBUSDT") (fun _ _ _ => Return [])
      {| exchange_name := "bybit"; symbols := ["AAAUSDT"; "BBBUSDT"; "CCCUSDT"] |}
      "bybit" "1h" 24 [2%nat; 0%nat; 1%nat] = Raise e.
Proof.
  split; [reflexivity|].
  destruct (historical_volume_all_or_nothing (kline_without "BBBUSDT")
              (fun _ _ _ => Return []) "bybit" "1h" 24 (or_intror eq_refl)
              {| exchange_name := "bybit";
                 symbols := ["AAAUSDT"; "BBBUSDT"; "CCCUSDT"] |}
              [2%nat; 0%nat; 1%nat]) as [_ Hfail].
  - cbn [symbols length seq].
    apply (perm_trans (l' := [0%nat; 2%nat; 1%nat])); [apply perm_swap|].
    apply perm_skip, perm_swap.
  - cbn [symbols].
    repeat (constructor; [cbn; intuition discriminate|]). constructor.
  - destruct Hfail as (symbol & e & Hin & _ & Hrun).
    + exists "BBBUSDT", (ExchangeError "symbol not found").
      split; [right; now left|reflexivity].
    + exists symbol, e. split; assumption.
Defined.

(** ** The constructor *)

Lemma filter_volume_In (symbols : list string) (volumes : list (string * Q))
    (limit : Z) (s : string) :
  In s (filter_volume symbols volumes limit) ->
  In s symbols /\ exists v, volume_of volumes s v.
Proof.
  unfold filter_volume, volume_of.
  destruct (slice_to_take limit (sorted_by_volume volumes)) as (n & -> & _ & _).
  rewrite List.filter_In, mem_In, In_fst_exists.
  intros [Hs [v Hv]]. split; [exact Hs|]. exists v.
  apply In_take in Hv. apply list_elem_of_In.
  rewrite <- (sorted_by_volume_perm volumes). now apply list_elem_of_In.
Qed.

Lemma filter_volume_length (symbols : list string) (volumes : list (string * Q))
    (limit : Z) :
  0 <= limit -> List.NoDup symbols ->
  Z.of_nat (length (filter_volume symbols volumes limit)) <= limit.
Proof.
  intros Hlimit Hnodup. unfold filter_volume.
  destruct (slice_to_take limit (sorted_by_volume volumes)) as (n & -> & Hbound & _).
  set (keys := map fst (take n (sorted_by_volume volumes))).
  assert (Hlen : (length (List.filter (fun symbol => mem symbol keys) symbols)
                  <= length keys)%nat).
  { apply List.NoDup_incl_length; [now apply List.NoDup_filter|].
    intros s Hs. apply List.filter_In in Hs as [_ Hs]. now apply mem_In. }
  subst keys. rewrite length_map, length_take in Hlen.
  specialize (Hbound Hlimit). lia.
Qed.

(** X13.  A scraper is built only for "binance" or "bybit" and only when
    the exchange has answered the three listings.  With both filters set,
    its symbols are a subsequence of the listed symbols; each ends with one
    of the quotes and has an entry in the volume dict; and if the listing
    has no duplicate there are at most [limit] of them (the volumes are
    ranked over the whole dict, so there may be fewer quote symbols than
    [limit] even when more are listed). *)
Theorem init_builds_filtered_universe
    (get_futures_symbols : string -> pyresult (list string))
    (get_futures_prices get_futures_volumes : string -> pyresult (list (string * Q)))
    (name : string) (quotes : list string) (limit : Z) (self : CombinedScraper)
    (Hbuilt : __init__ get_futures_symbols get_futures_prices get_futures_volumes
                name {| quote_symbols := Some quotes; top_volume := Some limit |}
              = Return self) :
  (name = "binance" \/ name = "bybit") /\
  exchange_name self = name /\
  exists listed prices volumes,
    get_futures_symbols name = Return listed /\
    get_futures_prices name = Return prices /\
    get_futures_volumes name = Return volumes /\
    symbols self = filter_volume (filter_quote listed quotes) volumes limit /\
    sublist (symbols self) listed /\
    (forall s, In s (symbols self) ->
       (exists q, In q quotes /\ ends_with s q) /\
       exists v, volume_of volumes s v) /\
    (0 <= limit -> List.NoDup listed ->
     Z.of_nat (length (symbols self)) <= limit).
Proof.
  unfold __init__ in Hbuilt. cbn [quote_symbols top_volume] in Hbuilt.
  destruct (String.eqb name "binance" || String.eqb name "bybit") eqn:Hname;
    [|discriminate].
  split.
  { apply orb_true_iff in Hname as [H|H]; apply String.eqb_eq in H; auto. }
  destruct (get_futures_symbols name) as [listed|e]; [|discriminate].
  rewrite bind_Return in Hbuilt.
  destruct (get_futures_prices name) as [prices|e]; [|discriminate].
  rewrite bind_Return in Hbuilt.
  destruct (get_futures_volumes name) as [volumes|e]; [|discriminate].
  rewrite bind_Return in Hbuilt. injection Hbuilt as <-.
  cbn [exchange_name symbols]. split; [reflexivity|].
  exists listed, prices, volumes. repeat split.
  - etransitivity; [apply filter_sublist|apply filter_sublist].
  - apply filter_volume_In in H as [H _].
    unfold filter_quote in H. apply List.filter_In in H as [_ H].
    apply existsb_exists in H as (q & Hq & He).
    exists q. split; [exact Hq|now apply endswith_spec].
  - now apply filter_volume_In in H.
  - intros Hlimit Hnodup. apply filter_volume_length; [exact Hlimit|].
    now apply List.NoDup_filter.
Qed.

Lemma init_builds_filtered_universe_witness :
  exists self,
    __init__ (fun _ => Return ["DDDUSDT"; "CCCUSDT"; "BBBUSD"; "AAAUSDT"])
      (fun _ => Return []) (fun _ => Return exchange_volumes) "bybit"
      {| quote_symbols := Some ["USDT"]; top_volume := Some 2 |} = Return self /\
    exchange_name self = "bybit" /\
    sublist (symbols self) ["DDDUSDT"; "CCCUSDT"; "BBBUSD"; "AAAUSDT"].
Proof.
  eexists. split; [reflexivity|].
  destruct (init_builds_filtered_universe
              (fun _ => Return ["DDDUSDT"; "CCCUSDT"; "BBBUSD"; "AAAUSDT"])
              (fun _ => Return []) (fun _ => Return exchange_volumes) "bybit"
              ["USDT"] 2 _ eq_refl)
    as (_ & Hname & listed & prices & volumes & Hlisted & _ & _ & _ & Hsub & _).
  injection Hlisted as Hlisted. rewrite <- Hlisted in Hsub. split; assumption.
Defined.

(** ** combine_and_save_rotator_data *)

(** X14.  A failed save of the combined table is only logged.  Whenever the
    merge returns a table, [combine_and_save_rotator_data] returns too and
    touches no other file.  If the disk carries out the whole write, the
    file holds the serialization and nothing is logged.  Otherwise an
    error is logged and the file is left as it was (when it could not be
    opened) or holding a strict prefix of the serialization.  An exception
    of the merge itself is not caught, and then nothing is written or
    logged. *)
Theorem combined_save_failure_is_only_logged
    (serialize : string -> DataFrame -> string)
    (data_binance data_bybit : DataFrame) (filename : string) (m : machine) :
  let run := combine_and_save_rotator_data serialize data_binance data_bybit
               filename m in
  match combined_data data_binance data_bybit with
  | Raise e => run = (Raise e, m)
  | Return combined =>
      let content := serialize "json" combined in
      fst run = Return () /\
      (forall path, path <> filename ->
         files (snd run) !! path = files m !! path) /\
      if (String.length content <? budget m)%nat then
        files (snd run) !! filename = Some content /\
        log (snd run) = log m
      else
        log (snd run) =
          log m ++ [LogError (String.append "Error during saving combined data to "
                                filename)] /\
        match budget m with
        | O => files (snd run) !! filename = files m !! filename
        | S written =>
            (written < String.length content)%nat /\
            files (snd run) !! filename =
              Some (String.substring 0 written content)
        end
  end.
Proof.
  intros run. subst run. unfold combine_and_save_rotator_data.
  destruct (combined_data data_binance data_bybit) as [combined|e]; [|reflexivity].
  cbv zeta. unfold write_file.
  destruct (budget m) as [|b] eqn:Hb.
  - cbn [fst snd log_lines files log]. repeat split.
  - destruct (Nat.ltb_spec b (String.length (serialize "json" combined))) as [Hlt|Hge].
    + assert (E : (String.length (serialize "json" combined) <? S b)%nat = false)
        by (apply Nat.ltb_ge; lia).
      rewrite E. cbn [fst snd log_lines files log]. repeat split; trivial.
      * intros path Hpath. now rewrite lookup_insert_ne.
      * apply lookup_insert_eq.
    + assert (E : (String.length (serialize "json" combined) <? S b)%nat = true)
        by (apply Nat.ltb_lt; lia).
      rewrite E. cbn [fst snd files log]. repeat split.
      * intros path Hpath. now rewrite lookup_insert_ne.
      * apply lookup_insert_eq.
Qed.

Lemma combined_save_failure_is_only_logged_witness :
  let run := combine_and_save_rotator_data show_rows exchange_A exchange_B
               "/var/www/api/data/rotator.json" (machine_with "binance" 3) in
  fst run = Return () /\
  log (snd run) =
    [LogError "Error during saving combined data to /var/www/api/data/rotator.json"].
Proof.
  pose proof (combined_save_failure_is_only_logged show_rows exchange_A exchange_B
                "/var/www/api/data/rotator.json" (machine_with "binance" 3)) as H.
  cbv zeta in H.
  destruct (combined_data exchange_A exchange_B) as [combined|e] eqn:E;
    [|vm_compute in E; discriminate E].
  destruct H as (Hreturns & _ & Hwrite).
  split; [exact Hreturns|].
  vm_compute. reflexivity.
Defined.

(** ** analyse_all_symbols, whatever the tasks do *)

(** The retry loop ends within [retry_limit] iterations. *)
Lemma retry_loop_returns (analyse_symbol : string -> nat -> pyresult record)
    (symbol : string) (retry_limit : Z) :
  forall (fuel c : nat) (tr : list event),
    (Z.to_nat (retry_limit - Z.of_nat c) <= fuel)%nat ->
    exists res tr',
      retry_loop analyse_symbol fuel symbol retry_limit (Z.of_nat c) tr =
        Some (res, tr').
Proof.
  induction fuel as [|fuel IH]; intros c tr Hfuel; cbn [retry_loop].
  - destruct (Z.ltb_spec (Z.of_nat c) retry_limit); [lia|]. eauto.
  - destruct (Z.ltb_spec (Z.of_nat c) retry_limit); [|eauto].
    destruct (analyse_symbol symbol (Z.to_nat (Z.of_nat c))); [eauto|].
    replace (Z.of_nat c + 1) with (Z.of_nat (S c)) by lia.
    apply IH. lia.
Qed.

Lemma submit_total (analyse_symbol : string -> nat -> pyresult record)
    (retry_limit : Z) (symbol : string) :
  exists res, submit analyse_symbol retry_limit symbol = Some (symbol, res).
Proof.
  unfold submit, retry_analyse_symbol.
  destruct (retry_loop_returns analyse_symbol symbol retry_limit
              (Z.to_nat retry_limit) 0 []) as (res & tr' & Heq); [simpl; lia|].
  change (Z.of_nat 0) with 0 in Heq. rewrite Heq. eauto.
Qed.

Lemma returned_or_raised (fs : list (string * pyresult record)) :
  (length (omap returned fs) + length (omap raised fs))%nat = length fs.
Proof.
  induction fs as [|[symbol [values|e]] fs IH]; [reflexivity| |];
    unfold omap in *; cbn [list_omap returned raised length]; lia.
Qed.

Lemma sort_values_Return (df df' : DataFrame) (by_ : list string) (idx : list nat) :
  indices_of (columns df) by_ = Return idx ->
  sort_values df by_ = Return df' ->
  columns df' = columns df /\ rows df' = sort_rows idx (rows df) /\
  existsb (mixed_column (rows df)) idx = false.
Proof.
  unfold sort_values. intros ->. rewrite bind_Return.
  destruct (existsb (mixed_column (rows df)) idx); [discriminate|].
  intros [= <-]. repeat split.
Qed.

(** A task that raised has logged one "Retry attempt" line for each of
    its [retry_limit] attempts. *)
Lemma retry_loop_raised_lines (analyse_symbol : string -> nat -> pyresult record)
    (symbol : string) (retry_limit : Z) :
  forall (fuel c : nat) (tr tr' : list event) (e : exn),
    retry_loop analyse_symbol fuel symbol retry_limit (Z.of_nat c) tr =
      Some (Raise e, tr') ->
    length (retry_lines tr') =
      (length (retry_lines tr) + Z.to_nat (retry_limit - Z.of_nat c))%nat.
Proof.
  induction fuel as [|fuel IH]; intros c tr tr' e; cbn [retry_loop].
  - destruct (Z.ltb_spec (Z.of_nat c) retry_limit); [discriminate|].
    intros [= _ <-]. lia.
  - destruct (Z.ltb_spec (Z.of_nat c) retry_limit); [|intros [= _ <-]; lia].
    destruct (analyse_symbol symbol (Z.to_nat (Z.of_nat c))); [discriminate|].
    replace (Z.of_nat c + 1) with (Z.of_nat (S c)) by lia.
    intros Hrun. rewrite (IH _ _ _ _ Hrun).
    unfold retry_lines. rewrite List.filter_app, length_app.
    cbn [List.filter is_retry_line length]. lia.
Qed.

Lemma submit_runs_task (analyse_symbol : string -> nat -> pyresult record)
    (retry_limit : Z) (symbol : string) (future : string * pyresult record) :
  submit analyse_symbol retry_limit symbol = Some future ->
  fst future = symbol /\
  exists tr,
    retry_analyse_symbol analyse_symbol symbol retry_limit =
      Some (snd future, tr) /\
    (forall e, snd future = Raise e ->
               length (retry_lines tr) = Z.to_nat retry_limit).
Proof.
  unfold submit.
  destruct (retry_analyse_symbol analyse_symbol symbol retry_limit)
    as [[res tr]|] eqn:Hrun; [|discriminate].
  intros [= <-]. split; [reflexivity|]. exists tr. split; [reflexivity|].
  cbn [snd]. intros e ->. unfold retry_analyse_symbol in Hrun.
  change 0 with (Z.of_nat 0) in Hrun.
  rewrite (retry_loop_raised_lines _ _ _ _ _ _ _ _ Hrun). cbn. f_equal. lia.
Qed.

(** X15.  No symbol is lost without a trace.  With a positive number of
    workers and sort keys that are numbers in every record a task returns,
    [analyse_all_symbols] returns a table whatever the tasks do and in
    whatever order they complete.  Each future holds what
    [retry_analyse_symbol] returned or raised for its symbol.  The rows
    are the records of the tasks that returned, sorted by the two keys.
    Line 553 logs one "generated an exception" line for each task that
    raised, so rows and these lines together are as many as the symbols.
    The "Retry attempt" lines (line 534) are logged by the tasks
    themselves: they are in the traces of [retry_analyse_symbol], not
    among the lines counted here, and a task that raised has logged
    [retry_limit] of them. *)
Theorem every_symbol_is_a_row_or_an_error
    (analyse_symbol : string -> nat -> pyresult record)
    (self : CombinedScraper) (max_workers retry_limit : Z)
    (completion : list nat)
    (Hworkers : 0 < max_workers)
    (Hcompletion : Permutation completion (seq 0 (length (symbols self))))
    (Hsortable : forall symbol values,
       In symbol (symbols self) ->
       submit analyse_symbol retry_limit symbol = Some (symbol, Return values) ->
       sortable values) :
  exists (future_data : list (string * pyresult record)) (df : DataFrame)
         (task_errors : list log_line),
    mapM (submit analyse_symbol retry_limit) (symbols self) = Some future_data /\
    Forall2 (fun symbol future =>
               fst future = symbol /\
               exists tr,
                 retry_analyse_symbol analyse_symbol symbol retry_limit =
                   Some (snd future, tr) /\
                 (forall e, snd future = Raise e ->
                            length (retry_lines tr) = Z.to_nat retry_limit))
      (symbols self) future_data /\
    analyse_all_symbols analyse_symbol self max_workers retry_limit completion =
      Some (Return df, task_errors) /\
    columns df = analysis_columns /\
    Permutation (rows df)
      (rows (DataFrame_of_records (omap returned future_data) analysis_columns)) /\
    StronglySorted (in_order [3%nat; 8%nat]) (rows df) /\
    Permutation task_errors (omap raised future_data) /\
    (length (rows df) + length task_errors)%nat = length (symbols self).
Proof.
  assert (Hsome : is_Some (mapM (submit analyse_symbol retry_limit) (symbols self))).
  { apply mapM_is_Some_2, Forall_forall. intros symbol _.
    destruct (submit_total analyse_symbol retry_limit symbol) as [res Hres].
    unfold compose. rewrite Hres. eauto. }
  destruct Hsome as [future_data Hsubmitted].
  pose proof (mapM_Some_1 _ _ _ Hsubmitted) as Hfutures.
  assert (Hlen : length future_data = length (symbols self))
    by (symmetry; eapply Forall2_length; exact Hfutures).
  pose proof (completed_permutation future_data completion) as Hperm.
  rewrite Hlen in Hperm. specialize (Hperm Hcompletion).
  set (completed := omap (fun i => future_data !! i) completion) in *.
  assert (Hdata : Forall sortable (omap returned completed)).
  { apply Forall_forall. intros values Hin.
    apply list_elem_of_omap in Hin as ([symbol res] & Hin & Hret).
    rewrite Hperm in Hin.
    destruct res as [values'|e]; [|discriminate]. injection Hret as <-.
    apply list_elem_of_lookup in Hin as [i Hi].
    destruct (Forall2_lookup_r _ _ _ _ _ Hfutures Hi) as (symbol' & Hs' & Hsub).
    destruct (submit_total analyse_symbol retry_limit symbol') as [res Hres].
    rewrite Hres in Hsub. injection Hsub as -> ->.
    apply (Hsortable symbol); [|exact Hres].
    apply list_elem_of_In, list_elem_of_lookup. eauto. }
  destruct (sort_analysis_table _ Hdata) as (df & Hsort & Hcols & Hrows).
  destruct (sort_values_Return
              (DataFrame_of_records (omap returned completed) analysis_columns)
              df _ [3%nat; 8%nat] sort_keys_indices Hsort)
    as (_ & Hsorted & Hmixed).
  exists future_data, df, (omap raised completed).
  split; [exact Hsubmitted|]. split; [|split; [|split; [exact Hcols|]]].
  - eapply Forall2_impl; [exact Hfutures|].
    intros symbol future. apply submit_runs_task.
  - unfold analyse_all_symbols.
    destruct (Z.leb_spec max_workers 0); [lia|].
    rewrite Hsubmitted. cbn [mbind option_bind]. fold completed.
    rewrite collect_spec. cbn [app]. now rewrite Hsort.
  - assert (Hret : Permutation (omap returned completed) (omap returned future_data))
      by now rewrite Hperm.
    assert (Hraised : Permutation (omap raised completed) (omap raised future_data))
      by now rewrite Hperm.
    split; [|split; [|split; [exact Hraised|]]].
    + rewrite Hrows. cbn [rows DataFrame_of_records].
      now apply Permutation_map.
    + rewrite Hsorted. now apply sort_rows_sorted.
    + rewrite (Permutation_length Hrows). cbn [rows DataFrame_of_records].
      rewrite length_map, (Permutation_length Hret), (Permutation_length Hraised).
      rewrite returned_or_raised. exact Hlen.
Qed.

Lemma every_symbol_is_a_row_or_an_error_witness :
  exists (df : DataFrame) (task_errors : list log_line),
    analyse_all_symbols one_delisted
      three_symbols 20 5
      [2%nat; 0%nat; 1%nat] = Some (Return df, task_errors) /\
    (length (rows df) + length task_errors)%nat = 3%nat.
Proof.
  destruct (every_symbol_is_a_row_or_an_error one_delisted
              three_symbols 20 5
              [2%nat; 0%nat; 1%nat])
    as (future_data & df & task_errors & _ & _ & Hrun & _ & _ & _ & _ & Hcount).
  - lia.
  - unfold three_symbols. cbn [symbols length seq].
    apply (perm_trans (l' := [0%nat; 2%nat; 1%nat])); [apply perm_swap|].
    apply perm_skip, perm_swap.
  - intros symbol values Hin Hsub. unfold three_symbols in Hin.
    cbn [symbols In] in Hin.
    destruct Hin as [<-|[<-|[<-|[]]]]; vm_compute in Hsub;
      try discriminate Hsub; injection Hsub as <-; split; exact I.
  - exists df, task_errors. split; assumption.
Defined.
